(** * HR management system: the Mongoose schemas of hr-system-schema.js

    The source file declares nine Mongoose schemas and nothing else: field
    types, [required]/[enum]/[min]/[max] validators, string setters,
    defaults and indexes.  This development embeds the declarations of the
    Department, Employee, Attendance, Leave and Salary schemas as data, in
    the shape and order in which the source writes them, together with the
    meaning Mongoose and MongoDB give to such declarations:

    - a document is built from the caller's object by applying the string
      setters, the cast to the declared type and the defaults
      ([construct]);
    - [validate] runs the declared validators, path by path;
    - a collection is a finite map from [_id] to documents, and every
      insert or update is checked against the unique indexes ([create],
      [update]);
    - an update loads the document, sets the paths of the patch and saves
      it; a document that the patch has not modified is not written, and
      the [timestamps] hook sets [updatedAt] only on documents that are
      written ([isModified], [stamp]).

    Conventions of the model.  Objects and documents are flat maps keyed
    by Mongoose's dotted paths (["personalInfo.email"]).  A JavaScript
    Number is a binary64 float, a Date is its millisecond time value, an
    ObjectId is a number.  Values are taken as JavaScript values of the
    declared type already: the model's [cast] accepts a value of the
    path's type (and [null]) and reports a CastError otherwise, where
    Mongoose would first try a conversion.  A JavaScript string is the
    string of its UTF-8 bytes, so that the ASCII strings are those whose
    bytes are all below 128.  The string setters call the built-ins
    [toUpperCase], [toLowerCase] and [trim] of JavaScript strings; these
    are no part of the source and are taken as parameters
    ([StringBuiltins]), known only by what they do on ASCII strings. *)

From Stdlib Require Import ZArith NArith List Ascii Floats.
From stdpp Require Import gmap strings pretty list fin_maps.

Local Open Scope string_scope.
Local Open Scope list_scope.

(** ** Values *)

Definition ObjectId := N.

Inductive Atom :=
| AString (s : string)
| ANumber (x : float)
| ABoolean (b : bool)
| ADate (t : Z)
| AObjectId (o : ObjectId)
| ANull.

Arguments ANumber x%_float.
Arguments ADate t%_Z.
Arguments AObjectId o%_N.

(** The elements of a document array are sub-documents with scalar paths. *)
Inductive Value :=
| VAtom (a : Atom)
| VArray (elems : list (gmap string Atom)).

Coercion VAtom : Atom >-> Value.

Abbreviation Doc := (gmap string Value).
Abbreviation SubDoc := (gmap string Atom).

(** A collection is a finite map from [_id] to documents. *)
Abbreviation Collection := (gmap ObjectId Doc).

(** ** The schema language *)

Inductive SchemaType := TString | TNumber | TBoolean | TDate | TObjectId.

(** [default: Date.now] is the one function default of the source. *)
Inductive Default :=
| Const (a : Atom)
| Date_now.

Inductive SchemaTypeOption :=
| type (t : SchemaType)
| required (b : bool)
| unique (b : bool)
| sparse (b : bool)
| uppercase (b : bool)
| lowercase (b : bool)
| trim (b : bool)
| enum (values : list string)
| default (d : Default)
| min (x : float)
| max (x : float)
| ref (model : string).

Arguments min x%_float.
Arguments max x%_float.

Abbreviation Options := (list SchemaTypeOption).

(** A schema definition is a tree: a path with its options, a nested
    object, or an array of sub-documents. *)
#[warnings="-register-all"]
Inductive SchemaDef :=
| Path (opts : Options)
| Nested (fields : list (string * SchemaDef))
| DocumentArray (fields : list (string * SchemaDef)).

Record SchemaIndex := index {
  index_fields : list (string * Z);
  index_options : Options
}.

Record Schema := {
  definition : list (string * SchemaDef);
  indexes : list SchemaIndex;
  timestamps : bool
}.

(** ** 1. Departments *)

Definition DepartmentSchema : Schema := {|
  definition := [
    ("departmentId", Path [type TString; required true; unique true; uppercase true]);
    ("name", Path [type TString; required true; trim true;
                   enum ["Sales"; "Developers"; "HR"; "Design and Media";
                         "Data Entry"; "SEO"; "Content Writers"; "Other"]]);
    ("customName", Path [type TString; trim true]);
    ("description", Path [type TString]);
    ("headOfDepartment", Path [type TObjectId; ref "Employee"]);
    ("employeeCount", Path [type TNumber; default (Const (ANumber 0))]);
    ("isActive", Path [type TBoolean; default (Const (ABoolean true))]);
    ("createdAt", Path [type TDate; default Date_now]);
    ("updatedAt", Path [type TDate; default Date_now])
  ];
  indexes := [ index [("departmentId", 1); ("isActive", 1)] [] ];
  timestamps := true
|}%Z.

(** ** 2. Employees *)

Definition EmployeeSchema : Schema := {|
  definition := [
    ("employeeId", Path [type TString; required true; unique true; uppercase true]);
    ("personalInfo", Nested [
      ("firstName", Path [type TString; required true; trim true]);
      ("lastName", Path [type TString; required true; trim true]);
      ("email", Path [type TString; required true; unique true; lowercase true; trim true]);
      ("phone", Path [type TString; required true]);
      ("alternatePhone", Path [type TString]);
      ("dateOfBirth", Path [type TDate]);
      ("gender", Path [type TString; enum ["Male"; "Female"; "Other"]]);
      ("bloodGroup", Path [type TString]);
      ("address", Nested [
        ("street", Path [type TString]);
        ("city", Path [type TString]);
        ("state", Path [type TString]);
        ("country", Path [type TString]);
        ("zipCode", Path [type TString])
      ]);
      ("emergencyContact", Nested [
        ("name", Path [type TString]);
        ("relationship", Path [type TString]);
        ("phone", Path [type TString])
      ])
    ]);
    ("employmentDetails", Nested [
      ("department", Path [type TObjectId; ref "Department"; required true]);
      ("designation", Path [type TString; required true]);
      ("employeeType", Path [type TString;
                             enum ["Full-Time"; "Part-Time"; "Contract"; "Intern"];
                             required true]);
      ("joiningDate", Path [type TDate; required true]);
      ("confirmationDate", Path [type TDate]);
      ("probationPeriod", Path [type TNumber; default (Const (ANumber 3))]);
      ("reportingManager", Path [type TObjectId; ref "Employee"]);
      ("workLocation", Path [type TString; enum ["Office"; "Remote"; "Hybrid"];
                             default (Const (AString "Office"))])
    ]);
    ("salaryInfo", Nested [
      ("basicSalary", Path [type TNumber; required true]);
      ("allowances", Nested [
        ("houseRent", Path [type TNumber; default (Const (ANumber 0))]);
        ("medical", Path [type TNumber; default (Const (ANumber 0))]);
        ("transport", Path [type TNumber; default (Const (ANumber 0))]);
        ("other", Path [type TNumber; default (Const (ANumber 0))])
      ]);
      ("deductions", Nested [
        ("tax", Path [type TNumber; default (Const (ANumber 0))]);
        ("providentFund", Path [type TNumber; default (Const (ANumber 0))]);
        ("insurance", Path [type TNumber; default (Const (ANumber 0))]);
        ("other", Path [type TNumber; default (Const (ANumber 0))])
      ]);
      ("bankDetails", Nested [
        ("accountHolderName", Path [type TString]);
        ("accountNumber", Path [type TString]);
        ("bankName", Path [type TString]);
        ("branchName", Path [type TString]);
        ("ifscCode", Path [type TString])
      ])
    ]);
    ("biometricInfo", Nested [
      ("biometricId", Path [type TString; unique true; sparse true]);
      ("fingerprintRegistered", Path [type TBoolean; default (Const (ABoolean false))]);
      ("lastSyncedAt", Path [type TDate])
    ]);
    ("status", Path [type TString;
                     enum ["Active"; "On Leave"; "Terminated"; "Resigned"; "Suspended"];
                     default (Const (AString "Active"))]);
    ("terminationDetails", Nested [
      ("terminationDate", Path [type TDate]);
      ("reason", Path [type TString]);
      ("lastWorkingDay", Path [type TDate]);
      ("remarks", Path [type TString])
    ]);
    ("documents", DocumentArray [
      ("documentType", Path [type TString;
                             enum ["Resume"; "ID Proof"; "Address Proof";
                                   "Education Certificate"; "Experience Letter"; "Other"]]);
      ("documentName", Path [type TString]);
      ("documentUrl", Path [type TString]);
      ("uploadedAt", Path [type TDate; default Date_now])
    ]);
    ("leaveBalance", Nested [
      ("casual", Path [type TNumber; default (Const (ANumber 12))]);
      ("sick", Path [type TNumber; default (Const (ANumber 10))]);
      ("annual", Path [type TNumber; default (Const (ANumber 15))]);
      ("unpaid", Path [type TNumber; default (Const (ANumber 0))])
    ]);
    ("createdAt", Path [type TDate; default Date_now]);
    ("updatedAt", Path [type TDate; default Date_now])
  ];
  indexes := [
    index [("employeeId", 1)] [];
    index [("personalInfo.email", 1)] [];
    index [("employmentDetails.department", 1); ("status", 1)] [];
    index [("biometricInfo.biometricId", 1)] [];
    index [("status", 1)] []
  ];
  timestamps := true
|}%Z.

(** ** 3. Attendance *)

Definition AttendanceSchema : Schema := {|
  definition := [
    ("employee", Path [type TObjectId; ref "Employee"; required true]);
    ("date", Path [type TDate; required true]);
    ("checkIn", Nested [
      ("time", Path [type TDate]);
      ("location", Path [type TString]);
      ("source", Path [type TString; enum ["Biometric"; "Manual"; "System"];
                       default (Const (AString "Biometric"))]);
      ("ipAddress", Path [type TString])
    ]);
    ("checkOut", Nested [
      ("time", Path [type TDate]);
      ("location", Path [type TString]);
      ("source", Path [type TString; enum ["Biometric"; "Manual"; "System"];
                       default (Const (AString "Biometric"))]);
      ("ipAddress", Path [type TString])
    ]);
    ("breaks", DocumentArray [
      ("breakIn", Nested [
        ("time", Path [type TDate]);
        ("reason", Path [type TString])
      ]);
      ("breakOut", Nested [
        ("time", Path [type TDate])
      ]);
      ("duration", Path [type TNumber])
    ]);
    ("totalWorkHours", Path [type TNumber]);
    ("totalBreakTime", Path [type TNumber]);
    ("workType", Path [type TString; enum ["Office"; "Remote"; "Field"];
                       default (Const (AString "Office"))]);
    ("status", Path [type TString;
                     enum ["Present"; "Absent"; "Half Day"; "Late"; "On Leave";
                           "Holiday"; "Weekend"];
                     default (Const (AString "Present"))]);
    ("lateArrival", Nested [
      ("isLate", Path [type TBoolean; default (Const (ABoolean false))]);
      ("lateByMinutes", Path [type TNumber; default (Const (ANumber 0))])
    ]);
    ("earlyDeparture", Nested [
      ("isEarly", Path [type TBoolean; default (Const (ABoolean false))]);
      ("earlyByMinutes", Path [type TNumber; default (Const (ANumber 0))])
    ]);
    ("overtime", Nested [
      ("hours", Path [type TNumber; default (Const (ANumber 0))]);
      ("approved", Path [type TBoolean; default (Const (ABoolean false))])
    ]);
    ("remarks", Path [type TString]);
    ("approvedBy", Path [type TObjectId; ref "Employee"]);
    ("createdAt", Path [type TDate; default Date_now]);
    ("updatedAt", Path [type TDate; default Date_now])
  ];
  indexes := [
    index [("employee", 1); ("date", 1)] [unique true];
    index [("date", 1); ("status", 1)] [];
    index [("employee", 1); ("date", -1)] []
  ];
  timestamps := true
|}%Z.

(** ** 4. Leaves *)

Definition LeaveSchema : Schema := {|
  definition := [
    ("employee", Path [type TObjectId; ref "Employee"; required true]);
    ("leaveType", Path [type TString;
                        enum ["Casual"; "Sick"; "Annual"; "Unpaid"; "Maternity";
                              "Paternity"; "Compensatory"];
                        required true]);
    ("startDate", Path [type TDate; required true]);
    ("endDate", Path [type TDate; required true]);
    ("numberOfDays", Path [type TNumber; required true]);
    ("reason", Path [type TString; required true]);
    ("status", Path [type TString;
                     enum ["Pending"; "Approved"; "Rejected"; "Cancelled"];
                     default (Const (AString "Pending"))]);
    ("appliedOn", Path [type TDate; default Date_now]);
    ("approvedBy", Path [type TObjectId; ref "Employee"]);
    ("approvedOn", Path [type TDate]);
    ("rejectionReason", Path [type TString]);
    ("supportingDocuments", DocumentArray [
      ("documentName", Path [type TString]);
      ("documentUrl", Path [type TString]);
      ("uploadedAt", Path [type TDate])
    ]);
    ("createdAt", Path [type TDate; default Date_now]);
    ("updatedAt", Path [type TDate; default Date_now])
  ];
  indexes := [
    index [("employee", 1); ("startDate", -1)] [];
    index [("status", 1); ("appliedOn", -1)] [];
    index [("startDate", 1); ("endDate", 1)] []
  ];
  timestamps := true
|}%Z.

(** ** 5. Salaries *)

Definition SalarySchema : Schema := {|
  definition := [
    ("employee", Path [type TObjectId; ref "Employee"; required true]);
    ("month", Path [type TNumber; required true; min 1; max 12]);
    ("year", Path [type TNumber; required true]);
    ("earnings", Nested [
      ("basicSalary", Path [type TNumber; required true]);
      ("houseRentAllowance", Path [type TNumber; default (Const (ANumber 0))]);
      ("medicalAllowance", Path [type TNumber; default (Const (ANumber 0))]);
      ("transportAllowance", Path [type TNumber; default (Const (ANumber 0))]);
      ("otherAllowances", Path [type TNumber; default (Const (ANumber 0))]);
      ("overtime", Path [type TNumber; default (Const (ANumber 0))]);
      ("bonus", Path [type TNumber; default (Const (ANumber 0))]);
      ("incentives", Path [type TNumber; default (Const (ANumber 0))])
    ]);
    ("deductions", Nested [
      ("tax", Path [type TNumber; default (Const (ANumber 0))]);
      ("providentFund", Path [type TNumber; default (Const (ANumber 0))]);
      ("insurance", Path [type TNumber; default (Const (ANumber 0))]);
      ("loanDeduction", Path [type TNumber; default (Const (ANumber 0))]);
      ("lateDeduction", Path [type TNumber; default (Const (ANumber 0))]);
      ("absentDeduction", Path [type TNumber; default (Const (ANumber 0))]);
      ("otherDeductions", Path [type TNumber; default (Const (ANumber 0))])
    ]);
    ("attendance", Nested [
      ("totalWorkingDays", Path [type TNumber; required true]);
      ("presentDays", Path [type TNumber; required true]);
      ("absentDays", Path [type TNumber; default (Const (ANumber 0))]);
      ("leaveDays", Path [type TNumber; default (Const (ANumber 0))]);
      ("halfDays", Path [type TNumber; default (Const (ANumber 0))]);
      ("paidLeaveDays", Path [type TNumber; default (Const (ANumber 0))])
    ]);
    ("grossSalary", Path [type TNumber; required true]);
    ("totalDeductions", Path [type TNumber; required true]);
    ("netSalary", Path [type TNumber; required true]);
    ("paymentStatus", Path [type TString;
                            enum ["Pending"; "Processing"; "Paid"; "On Hold"];
                            default (Const (AString "Pending"))]);
    ("paymentDate", Path [type TDate]);
    ("paymentMethod", Path [type TString; enum ["Bank Transfer"; "Cash"; "Cheque"]]);
    ("transactionId", Path [type TString]);
    ("remarks", Path [type TString]);
    ("generatedBy", Path [type TObjectId; ref "Employee"]);
    ("createdAt", Path [type TDate; default Date_now]);
    ("updatedAt", Path [type TDate; default Date_now])
  ];
  indexes := [
    index [("employee", 1); ("month", 1); ("year", 1)] [unique true];
    index [("year", -1); ("month", -1)] [];
    index [("paymentStatus", 1)] []
  ];
  timestamps := true
|}%Z.

(** ** Paths

    Mongoose flattens the definition tree into dotted paths; an array of
    sub-documents is one path that carries the scalar paths of its
    elements. *)

Inductive SchemaPath :=
| SchemaScalar (opts : Options)
| SchemaDocumentArray (sub : list (string * Options)).

Definition join (prefix key : string) : string :=
  match prefix with
  | "" => key
  | _ => (prefix ++ "." ++ key)%string
  end.

Fixpoint scalars (prefix : string) (d : SchemaDef) : list (string * Options) :=
  match d with
  | Path o => [(prefix, o)]
  | Nested fs =>
      (fix go (fs : list (string * SchemaDef)) :=
         match fs with
         | [] => []
         | (k, d') :: r => scalars (join prefix k) d' ++ go r
         end) fs
  | DocumentArray _ => []
  end.

Fixpoint flatten (prefix : string) (d : SchemaDef) : list (string * SchemaPath) :=
  match d with
  | Path o => [(prefix, SchemaScalar o)]
  | Nested fs =>
      (fix go (fs : list (string * SchemaDef)) :=
         match fs with
         | [] => []
         | (k, d') :: r => flatten (join prefix k) d' ++ go r
         end) fs
  | DocumentArray fs => [(prefix, SchemaDocumentArray (scalars "" (Nested fs)))]
  end.

Definition paths (S : Schema) : list (string * SchemaPath) :=
  flatten "" (Nested (definition S)).

(** ** Reading the options of a path *)

Fixpoint opt_type (o : Options) : option SchemaType :=
  match o with
  | [] => None
  | type t :: _ => Some t
  | _ :: r => opt_type r
  end.

Fixpoint opt_default (o : Options) : option Default :=
  match o with
  | [] => None
  | default d :: _ => Some d
  | _ :: r => opt_default r
  end.

Definition is_required (o : Options) : bool :=
  existsb (fun x => match x with required true => true | _ => false end) o.
Definition is_unique (o : Options) : bool :=
  existsb (fun x => match x with unique true => true | _ => false end) o.
Definition is_sparse (o : Options) : bool :=
  existsb (fun x => match x with sparse true => true | _ => false end) o.

(** ** String setters

    The setters of [uppercase], [lowercase] and [trim] call
    [String.prototype.toUpperCase], [toLowerCase] and [trim].  On a string
    of ASCII characters these map the letters a-z and A-Z and strip the
    white space characters 9-13 and 32. *)

Definition upper_ascii (c : ascii) : ascii :=
  let n := N_of_ascii c in
  if ((97 <=? n) && (n <=? 122))%N then ascii_of_N (n - 32) else c.

Definition lower_ascii (c : ascii) : ascii :=
  let n := N_of_ascii c in
  if ((65 <=? n) && (n <=? 90))%N then ascii_of_N (n + 32) else c.

Fixpoint ascii_toUpperCase (s : string) : string :=
  match s with
  | EmptyString => EmptyString
  | String c r => String (upper_ascii c) (ascii_toUpperCase r)
  end.

Fixpoint ascii_toLowerCase (s : string) : string :=
  match s with
  | EmptyString => EmptyString
  | String c r => String (lower_ascii c) (ascii_toLowerCase r)
  end.

Definition is_ascii_white_space (c : ascii) : bool :=
  let n := N_of_ascii c in
  (((9 <=? n) && (n <=? 13)) || (n =? 32))%N.

Fixpoint trimStart (s : string) : string :=
  match s with
  | EmptyString => EmptyString
  | String c r => if is_ascii_white_space c then trimStart r else s
  end.

Fixpoint trimEnd (s : string) : string :=
  match s with
  | EmptyString => EmptyString
  | String c r =>
      match trimEnd r with
      | EmptyString => if is_ascii_white_space c then EmptyString else String c EmptyString
      | r' => String c r'
      end
  end.

Definition ascii_trim (s : string) : string := trimEnd (trimStart s).

(** A string of ASCII characters only. *)
Fixpoint is_ascii (s : string) : bool :=
  match s with
  | EmptyString => true
  | String c r => (N_of_ascii c <? 128)%N && is_ascii r
  end.

(** The three built-ins.  Nothing is assumed of them on strings that hold
    other characters. *)
Class StringBuiltins := {
  toUpperCase : string → string;
  toLowerCase : string → string;
  trim_string : string → string;
  toUpperCase_ascii : ∀ s, is_ascii s = true → toUpperCase s = ascii_toUpperCase s;
  toLowerCase_ascii : ∀ s, is_ascii s = true → toLowerCase s = ascii_toLowerCase s;
  trim_string_ascii : ∀ s, is_ascii s = true → trim_string s = ascii_trim s
}.

(** The built-ins restricted to ASCII, for evaluating the model on ASCII
    sample data. *)
Definition ascii_builtins : StringBuiltins := {|
  toUpperCase := ascii_toUpperCase;
  toLowerCase := ascii_toLowerCase;
  trim_string := ascii_trim;
  toUpperCase_ascii := λ _ _, eq_refl;
  toLowerCase_ascii := λ _ _, eq_refl;
  trim_string_ascii := λ _ _, eq_refl
|}.

Section model.
Context {builtins : StringBuiltins}.

(** The setter an option declares. *)
Definition setter (x : SchemaTypeOption) (s : string) : string :=
  match x with
  | uppercase true => toUpperCase s
  | lowercase true => toLowerCase s
  | trim true => trim_string s
  | _ => s
  end.

(** Mongoose registers the setters in the order of the options and runs
    them from the last registered to the first. *)
Definition applySetters (o : Options) (a : Atom) : Atom :=
  match a with
  | AString s => AString (foldr setter s o)
  | _ => a
  end.

(** ** Casting

    [null] is kept for every type; a Number is rejected when it is NaN. *)

Definition cast (t : option SchemaType) (a : Atom) : option Atom :=
  match t, a with
  | _, ANull => Some ANull
  | None, _ => Some a
  | Some TString, AString _ => Some a
  | Some TNumber, ANumber x => if PrimFloat.is_nan x then None else Some a
  | Some TBoolean, ABoolean _ => Some a
  | Some TDate, ADate _ => Some a
  | Some TObjectId, AObjectId _ => Some a
  | _, _ => None
  end.

(** ** Errors *)

Inductive Kind := kind_CastError | kind_required | kind_enum | kind_min | kind_max.

Record ValidatorError := validator_error { path : string; kind : Kind }.

Inductive Error :=
| ValidationError (errors : list ValidatorError)
| DuplicateKey (index_name : string)
| NotFound.

(** ** Building a document *)

Definition default_atom (now : Z) (o : Options) : option Atom :=
  match opt_default o with
  | Some (Const a) => Some a
  | Some Date_now => Some (ADate now)
  | None => None
  end.

(** The value a scalar path takes when the caller supplies [input] and the
    path held [prior]: an absent input leaves the path alone, a failed cast
    leaves it alone and is reported. *)
Definition set_atom (o : Options) (input prior : option Atom) : option Atom * bool :=
  match input with
  | None => (prior, false)
  | Some a =>
      match cast (opt_type o) (applySetters o a) with
      | Some a' => (Some a', false)
      | None => (prior, true)
      end
  end.

Definition construct_sub (now : Z) (sub : list (string * Options)) (obj : SubDoc)
  : SubDoc * list ValidatorError :=
  let rs := map (fun po : string * Options =>
                  (po.1, set_atom po.2 (obj !! po.1) (default_atom now po.2))) sub in
  (list_to_map (omap (fun r : string * (option Atom * bool) => pair r.1 <$> r.2.1) rs),
   omap (fun r : string * (option Atom * bool) =>
           if r.2.2 then Some (validator_error r.1 kind_CastError) else None) rs).

Definition in_element (p : string) (i : nat) (e : ValidatorError) : ValidatorError :=
  validator_error (join (join p (pretty i)) (path e)) (kind e).

Definition set_path (now : Z) (p : string) (sp : SchemaPath) (input prior : option Value)
  : option Value * list ValidatorError :=
  match sp, input with
  | _, None => (prior, [])
  | SchemaScalar o, Some (VAtom a) =>
      match set_atom o (Some a) None with
      | (Some a', _) => (Some (VAtom a'), [])
      | (None, _) => (prior, [validator_error p kind_CastError])
      end
  | SchemaScalar _, Some (VArray _) => (prior, [validator_error p kind_CastError])
  | SchemaDocumentArray sub, Some (VArray elems) =>
      let rs := map (construct_sub now sub) elems in
      (Some (VArray (map fst rs)),
       concat (imap (fun i (r : SubDoc * list ValidatorError) => map (in_element p i) r.2) rs))
  | SchemaDocumentArray _, Some (VAtom ANull) => (Some (VAtom ANull), [])
  | SchemaDocumentArray _, Some (VAtom _) => (prior, [validator_error p kind_CastError])
  end.

Definition default_value (now : Z) (sp : SchemaPath) : option Value :=
  match sp with
  | SchemaScalar o => VAtom <$> default_atom now o
  | SchemaDocumentArray _ => Some (VArray [])
  end.

(** [assign] sets the paths of [obj] on the document [base]; keys of [obj]
    that are no path of the schema are dropped (strict mode). *)
Definition assign (S : Schema) (now : Z) (obj base : Doc) : Doc * list ValidatorError :=
  let rs := map (fun ps : string * SchemaPath =>
                  (ps.1, set_path now ps.1 ps.2 (obj !! ps.1) (base !! ps.1))) (paths S) in
  (list_to_map (omap (fun r : string * (option Value * list ValidatorError) =>
                        pair r.1 <$> r.2.1) rs),
   concat (map (fun r : string * (option Value * list ValidatorError) => r.2.2) rs)).

Definition defaults (S : Schema) (now : Z) : Doc :=
  list_to_map (omap (fun ps : string * SchemaPath =>
                       pair ps.1 <$> default_value now ps.2) (paths S)).

(** [new Model(obj)] *)
Definition construct (S : Schema) (now : Z) (obj : Doc) : Doc * list ValidatorError :=
  assign S now obj (defaults S now).

(** ** Validation

    The [required] validator runs first, then the validators of the path
    in the order of its options; a path reports its first failure. *)

Definition checkRequired (v : option Atom) : bool :=
  match v with
  | None | Some ANull => false
  | Some (AString "") => false
  | Some _ => true
  end.

Definition validator (o : SchemaTypeOption) (v : option Atom) : option Kind :=
  match o, v with
  | enum values, Some (AString s) =>
      if bool_decide (s ∈ values) then None else Some kind_enum
  | min m, Some (ANumber x) => if PrimFloat.leb m x then None else Some kind_min
  | max m, Some (ANumber x) => if PrimFloat.leb x m then None else Some kind_max
  | _, _ => None
  end.

Definition validate_atom (o : Options) (v : option Atom) : option Kind :=
  if is_required o && negb (checkRequired v) then Some kind_required
  else head (omap (fun x => validator x v) o).

Definition validate_sub (sub : list (string * Options)) (d : SubDoc) : list ValidatorError :=
  omap (fun po : string * Options =>
          validator_error po.1 <$> validate_atom po.2 (d !! po.1)) sub.

Definition atom_of (v : option Value) : option Atom :=
  match v with
  | Some (VAtom a) => Some a
  | _ => None
  end.

Definition validate_path (p : string) (sp : SchemaPath) (v : option Value)
  : list ValidatorError :=
  match sp with
  | SchemaScalar o =>
      match validate_atom o (atom_of v) with
      | Some k => [validator_error p k]
      | None => []
      end
  | SchemaDocumentArray sub =>
      match v with
      | Some (VArray elems) =>
          concat (imap (fun i (e : SubDoc) => map (in_element p i) (validate_sub sub e)) elems)
      | _ => []
      end
  end.

Definition validate (S : Schema) (d : Doc) : list ValidatorError :=
  concat (map (fun ps : string * SchemaPath => validate_path ps.1 ps.2 (d !! ps.1)) (paths S)).

(** What JavaScript takes for true in a condition. *)
Definition truthy (v : option Value) : bool :=
  match v with
  | None | Some (VAtom ANull) => false
  | Some (VAtom (AString s)) => negb (bool_decide (s = ""))
  | Some (VAtom (ANumber x)) => negb (PrimFloat.eqb x 0 || PrimFloat.is_nan x)
  | Some (VAtom (ABoolean b)) => b
  | Some _ => true
  end.

(** [timestamps: true], the hook that runs before a document is saved,
    after validation.  A new document gets the current time as [createdAt]
    unless it holds a value there ([null] counts as none), and its
    [updatedAt] is a copy of its [createdAt]; a stored document that is
    saved again gets the current time as [updatedAt].  [update] saves a
    stored document only when it has been modified. *)
Definition stamp (S : Schema) (now : Z) (isNew : bool) (d : Doc) : Doc :=
  if timestamps S then
    if isNew then
      let d := if truthy (d !! "createdAt") then d
               else <["createdAt" := VAtom (ADate now)]> d in
      <["updatedAt" := from_option id (VAtom (ADate now)) (d !! "createdAt")]> d
    else <["updatedAt" := VAtom (ADate now)]> d
  else d.

(** ** Indexes

    The indexes of a collection are those of the paths that declare
    [unique], then those of the [index] calls of the schema. *)

Definition path_index (ps : string * SchemaPath) : option SchemaIndex :=
  match ps.2 with
  | SchemaScalar o => if is_unique o then Some (index [(ps.1, 1%Z)] o) else None
  | SchemaDocumentArray _ => None
  end.

Definition schema_indexes (S : Schema) : list SchemaIndex :=
  omap path_index (paths S) ++ indexes S.

Definition index_name (ix : SchemaIndex) : string :=
  String.concat "_"
    (flat_map (fun f : string * Z => [f.1; if (0 <? f.2)%Z then "1" else "-1"])
              (index_fields ix)).

(** Index keys.  MongoDB compares numbers by value (the two zeros are one
    key) and indexes a missing field as [null]. *)
Inductive Key :=
| KNull
| KString (s : string)
| KNumber (x : spec_float)
| KBoolean (b : bool)
| KDate (t : Z)
| KObjectId (o : ObjectId)
| KArray.

#[global] Instance spec_float_eq_dec : EqDecision spec_float.
Proof. solve_decision. Defined.

#[global] Instance Key_eq_dec : EqDecision Key.
Proof. solve_decision. Defined.

Definition number_key (x : float) : spec_float :=
  match Prim2SF x with
  | S754_zero _ => S754_zero false
  | v => v
  end.

Definition key_of (v : option Value) : Key :=
  match v with
  | None | Some (VAtom ANull) => KNull
  | Some (VAtom (AString s)) => KString s
  | Some (VAtom (ANumber x)) => KNumber (number_key x)
  | Some (VAtom (ABoolean b)) => KBoolean b
  | Some (VAtom (ADate t)) => KDate t
  | Some (VAtom (AObjectId o)) => KObjectId o
  | Some (VArray _) => KArray
  end.

(** The entry of a document in an index; a sparse index has no entry for
    a document that has none of the indexed fields. *)
Definition index_entry (ix : SchemaIndex) (d : Doc) : option (list Key) :=
  let vals := map (fun f : string * Z => d !! f.1) (index_fields ix) in
  if is_sparse (index_options ix)
     && forallb (fun v : option Value => match v with None => true | Some _ => false end) vals
  then None
  else Some (map key_of vals).

Definition clashes (ix : SchemaIndex) (d e : Doc) : bool :=
  match index_entry ix d with
  | Some k => bool_decide (index_entry ix e = Some k)
  | None => false
  end.

Definition unique_indexes (S : Schema) : list SchemaIndex :=
  List.filter (fun ix => is_unique (index_options ix)) (schema_indexes S).

(** The first unique index in which [d], stored under [self], would share
    its entry with another document of the collection. *)
Definition violated (S : Schema) (self : ObjectId) (d : Doc) (c : gmap ObjectId Doc)
  : option SchemaIndex :=
  List.find (fun ix =>
               existsb (fun je : ObjectId * Doc =>
                          negb (bool_decide (je.1 = self)) && clashes ix d je.2)
                       (map_to_list c))
            (unique_indexes S).

(** ** The store operations *)

Definition save (S : Schema) (oid : ObjectId) (d : Doc) (c : Collection)
  : Error + Collection :=
  match violated S oid d c with
  | Some ix => inl (DuplicateKey (index_name ix))
  | None => inr (<[oid := d]> c)
  end.

(** [Model.create(obj)]; [oid] is the [_id] generated for the document. *)
Definition create (S : Schema) (now : Z) (oid : ObjectId) (obj : Doc) (c : Collection)
  : Error + Collection :=
  let r := construct S now obj in
  match r.2 ++ validate S r.1 with
  | [] =>
      match c !! oid with
      | Some _ => inl (DuplicateKey "_id_")
      | None => save S oid (stamp S now true r.1) c
      end
  | errs => inl (ValidationError errs)
  end.

Definition getById (id : ObjectId) (c : Collection) : Error + Doc :=
  match c !! id with
  | Some d => inr d
  | None => inl NotFound
  end.

(** *** Modified paths

    Setting a path of a stored document marks it modified when the new
    value is not [deepEqual] to the one the document holds: scalars are
    compared with [===] (the two zeros are equal), dates and ObjectIds by
    value.  The elements of a document array carry an [_id] of their own,
    which a newly built element gets afresh, so that two arrays are equal
    only when both are empty. *)

Definition strictEquals (a b : Atom) : bool :=
  match a, b with
  | AString s, AString t => bool_decide (s = t)
  | ANumber x, ANumber y => PrimFloat.eqb x y
  | ABoolean x, ABoolean y => bool_decide (x = y)
  | ADate t, ADate u => bool_decide (t = u)
  | AObjectId o, AObjectId p => bool_decide (o = p)
  | ANull, ANull => true
  | _, _ => false
  end.

Definition deepEqual (v w : option Value) : bool :=
  match v, w with
  | None, None => true
  | Some (VAtom a), Some (VAtom b) => strictEquals a b
  | Some (VArray []), Some (VArray []) => true
  | _, _ => false
  end.

(** [d1] is the stored document [d0] after the paths of [patch] have been
    set on it. *)
Definition isModified (S : Schema) (patch d0 d1 : Doc) : bool :=
  existsb (fun ps : string * SchemaPath =>
             match patch !! ps.1 with
             | Some _ => negb (deepEqual (d0 !! ps.1) (d1 !! ps.1))
             | None => false
             end) (paths S).

(** Only the modified paths are sent to the database: the others keep the
    stored value. *)
Definition keep_unmodified (d0 d1 : Doc) : Doc :=
  merge (fun v0 v1 : option Value => if deepEqual v0 v1 then v0 else v1) d0 d1.

(** [update(id, patch)]: the document is loaded, the paths of the patch are
    set on it, and it is saved again.  Saving a document that has not been
    modified writes nothing. *)
Definition update (S : Schema) (now : Z) (id : ObjectId) (patch : Doc) (c : Collection)
  : Error + Collection :=
  match c !! id with
  | None => inl NotFound
  | Some d0 =>
      let r := assign S now patch d0 in
      match r.2 ++ validate S r.1 with
      | [] =>
          if isModified S patch d0 r.1
          then save S id (stamp S now false (keep_unmodified d0 r.1)) c
          else inr c
      | errs => inl (ValidationError errs)
      end
  end.

Definition remove (id : ObjectId) (c : Collection) : Error + Collection :=
  match c !! id with
  | None => inl NotFound
  | Some _ => inr (delete id c)
  end.

Inductive Operation :=
| Create (now : Z) (oid : ObjectId) (obj : Doc)
| Update (now : Z) (id : ObjectId) (patch : Doc)
| Delete (id : ObjectId).

Definition perform (S : Schema) (op : Operation) (c : Collection) : Error + Collection :=
  match op with
  | Create now oid obj => create S now oid obj c
  | Update now id patch => update S now id patch c
  | Delete id => remove id c
  end.

Arguments create S now%_Z oid%_N obj c.
Arguments update S now%_Z id%_N patch c.
Arguments remove id%_N c.
Arguments getById id%_N c.
Arguments Create now%_Z oid%_N obj.
Arguments Update now%_Z id%_N patch.
Arguments Delete id%_N.

(** A failed operation leaves the collection as it was. *)
Definition step (S : Schema) (c : Collection) (op : Operation) : Collection :=
  match perform S op c with
  | inr c' => c'
  | inl _ => c
  end.

Definition run (S : Schema) (ops : list Operation) : Collection :=
  foldl (step S) ∅ ops.

Definition schema_path (S : Schema) (p : string) : option SchemaPath :=
  (list_to_map (paths S) : gmap string SchemaPath) !! p.

Definition is_ok {A : Type} (r : Error + A) : bool :=
  match r with inr _ => true | inl _ => false end.

Definition unique_ok (S : Schema) (c : Collection) : Prop :=
  ∀ ix i j di dj k, ix ∈ unique_indexes S →
    c !! i = Some di → c !! j = Some dj →
    index_entry ix di = Some k → index_entry ix dj = Some k → i = j.

(** A value of the type its path declares: what [cast] returns. *)
Definition well_typed (sp : SchemaPath) (v : Value) : Prop :=
  match sp with
  | SchemaScalar o => ∃ a, v = VAtom a ∧ cast (opt_type o) a = Some a
  | SchemaDocumentArray _ => True
  end.

(** [createdAt] and [updatedAt] as the five schemas declare them. *)
Definition timestamp_path : SchemaPath := SchemaScalar [type TDate; default Date_now].

Definition defaults_typed (S : Schema) : Prop :=
  Forall (λ ps : string * SchemaPath,
            ∀ now v, default_value now ps.2 = Some v → well_typed ps.2 v) (paths S).

Definition timestamps_ok (S : Schema) : Prop :=
  schema_path S "createdAt" = Some timestamp_path
  ∧ schema_path S "updatedAt" = Some timestamp_path.

(** What holds of every stored document: it passes validation, it has no
    key outside the paths of the schema, and its values have the declared
    types. *)
Definition doc_ok (S : Schema) (d : Doc) : Prop :=
  validate S d = []
  ∧ (∀ p, schema_path S p = None → d !! p = None)
  ∧ (∀ p sp v, schema_path S p = Some sp → d !! p = Some v → well_typed sp v).

Definition stored_ok (S : Schema) (c : Collection) : Prop :=
  ∀ i d, c !! i = Some d → doc_ok S d.

(** The document an operation stores, and under which [_id].  An update
    that modifies nothing stores nothing. *)
Definition written (S : Schema) (op : Operation) (c : Collection) : option (ObjectId * Doc) :=
  match op with
  | Create now oid obj => Some (oid, stamp S now true (construct S now obj).1)
  | Update now id patch =>
      match c !! id with
      | Some d0 =>
          let d1 := (assign S now patch d0).1 in
          if isModified S patch d0 d1
          then Some (id, stamp S now false (keep_unmodified d0 d1))
          else None
      | None => None
      end
  | Delete _ => None
  end.

(** The errors [Model.create(obj)] reports before anything is stored. *)
Definition errors (S : Schema) (now : Z) (obj : Doc) : list ValidatorError :=
  (construct S now obj).2 ++ validate S (construct S now obj).1.

(** ** Indexes and sample documents of the five schemas *)

Definition attendance_index : SchemaIndex :=
  index [("employee", 1%Z); ("date", 1%Z)] [unique true].

Definition salary_index : SchemaIndex :=
  index [("employee", 1%Z); ("month", 1%Z); ("year", 1%Z)] [unique true].

Definition employeeId_index : SchemaIndex :=
  index [("employeeId", 1%Z)] [type TString; required true; unique true; uppercase true].

Definition email_index : SchemaIndex :=
  index [("personalInfo.email", 1%Z)]
        [type TString; required true; unique true; lowercase true; trim true].

Definition biometricId_index : SchemaIndex :=
  index [("biometricInfo.biometricId", 1%Z)] [type TString; unique true; sparse true].

Definition departmentId_index : SchemaIndex :=
  index [("departmentId", 1%Z)] [type TString; required true; unique true; uppercase true].

(** An attendance record of employee 7 for one day. *)
Definition attendance_sample : Doc :=
  {[ "employee" := VAtom (AObjectId 7); "date" := VAtom (ADate 1700000000000) ]}.

(** Two documents name the same (employee, month, year): the index
    compares the three fields as keys, numbers by value. *)
Definition same_period (d e : Doc) : Prop :=
  key_of (d !! "employee") = key_of (e !! "employee")
  ∧ key_of (d !! "month") = key_of (e !! "month")
  ∧ key_of (d !! "year") = key_of (e !! "year").

(** The salary of employee 7 for March 2024, with totals that add up. *)
Definition salary_sample : Doc :=
  {[ "employee" := VAtom (AObjectId 7);
     "month" := VAtom (ANumber 3);
     "year" := VAtom (ANumber 2024);
     "earnings.basicSalary" := VAtom (ANumber 1000);
     "earnings.bonus" := VAtom (ANumber 200);
     "deductions.tax" := VAtom (ANumber 100);
     "attendance.totalWorkingDays" := VAtom (ANumber 22);
     "attendance.presentDays" := VAtom (ANumber 21);
     "grossSalary" := VAtom (ANumber 1200);
     "totalDeductions" := VAtom (ANumber 100);
     "netSalary" := VAtom (ANumber 1100) ]}.

Definition employee_sample : Doc :=
  {[ "employeeId" := VAtom (AString "emp-001");
     "personalInfo.firstName" := VAtom (AString "Ada");
     "personalInfo.lastName" := VAtom (AString "Byron");
     "personalInfo.email" := VAtom (AString " Ada@Example.org ");
     "personalInfo.phone" := VAtom (AString "555-0100");
     "employmentDetails.department" := VAtom (AObjectId 3);
     "employmentDetails.designation" := VAtom (AString "Engineer");
     "employmentDetails.employeeType" := VAtom (AString "Full-Time");
     "employmentDetails.joiningDate" := VAtom (ADate 1600000000000);
     "salaryInfo.basicSalary" := VAtom (ANumber 1000);
     "biometricInfo.biometricId" := VAtom (AString "BIO-1") ]}.

(** What two Employee documents may not share. *)
Definition shares_identity (d e : Doc) : Prop :=
  d !! "employeeId" = e !! "employeeId"
  ∨ d !! "personalInfo.email" = e !! "personalInfo.email"
  ∨ (is_Some (d !! "biometricInfo.biometricId")
     ∧ d !! "biometricInfo.biometricId" = e !! "biometricInfo.biometricId").

(** [Number.isInteger]: a finite number whose binary expansion has no
    fractional part. *)
Definition isInteger (x : float) : bool :=
  match Prim2SF x with
  | S754_zero _ => true
  | S754_finite _ m e => ((0 <=? e) || (Z.pos m mod 2 ^ (- e) =? 0))%Z
  | _ => false
  end.

(** A non-negative integer, as the specification asks of
    [employeeCount]. *)
Definition non_negative_integer (x : float) : bool :=
  PrimFloat.leb 0 x && isInteger x.

Definition department_sample : Doc :=
  {[ "departmentId" := VAtom (AString "ops"); "name" := VAtom (AString "Other") ]}.

(** The values of [Leave.status]. *)
Definition leave_statuses : list string := ["Pending"; "Approved"; "Rejected"; "Cancelled"].

(** A leave request of employee 7, from the 1st to the 3rd day. *)
Definition leave_sample : Doc :=
  {[ "employee" := VAtom (AObjectId 7);
     "leaveType" := VAtom (AString "Casual");
     "startDate" := VAtom (ADate 86400000);
     "endDate" := VAtom (ADate 259200000);
     "numberOfDays" := VAtom (ANumber 3);
     "reason" := VAtom (AString "family") ]}.

Definition set_status (s : string) : Doc := {[ "status" := VAtom (AString s) ]}.

Definition with_dates (startDate endDate : Z) (obj : Doc) : Doc :=
  <["startDate" := VAtom (ADate startDate)]> (<["endDate" := VAtom (ADate endDate)]> obj).

(** The value a stored document holds at a path. *)
Definition stored (c : Collection) (id : ObjectId) (p : string) : option Value :=
  c !! id ≫= (λ d : Doc, d !! p).

Arguments stored c id%_N p.

(** A Department named Other, with no [customName]. *)
Definition other_department (departmentId : string) : Doc :=
  {[ "departmentId" := VAtom (AString departmentId); "name" := VAtom (AString "Other") ]}.

(** *** Reconciled totals, in the specification's words

    [grossSalary] is the sum of the earnings, [totalDeductions] the sum of
    the deductions and [netSalary] their difference, compared as numbers
    with tolerance 0. *)

Definition earnings_paths : list string :=
  ["earnings.basicSalary"; "earnings.houseRentAllowance"; "earnings.medicalAllowance";
   "earnings.transportAllowance"; "earnings.otherAllowances"; "earnings.overtime";
   "earnings.bonus"; "earnings.incentives"].

Definition deductions_paths : list string :=
  ["deductions.tax"; "deductions.providentFund"; "deductions.insurance";
   "deductions.loanDeduction"; "deductions.lateDeduction"; "deductions.absentDeduction";
   "deductions.otherDeductions"].

Definition number_at (d : Doc) (p : string) : float :=
  match d !! p with
  | Some (VAtom (ANumber x)) => x
  | _ => PrimFloat.nan
  end.

Definition sum_at (d : Doc) (ps : list string) : float :=
  foldl (λ acc p, PrimFloat.add acc (number_at d p)) 0%float ps.

Definition reconciles (d : Doc) : bool :=
  PrimFloat.eqb (number_at d "grossSalary") (sum_at d earnings_paths)
  && PrimFloat.eqb (number_at d "totalDeductions") (sum_at d deductions_paths)
  && PrimFloat.eqb (number_at d "netSalary")
       (PrimFloat.sub (number_at d "grossSalary") (number_at d "totalDeductions")).

Definition salary_totals : list string := ["grossSalary"; "totalDeductions"; "netSalary"].

(** An object with the three totals set. *)
Definition with_totals (gross deductions net : float) (obj : Doc) : Doc :=
  <["grossSalary" := VAtom (ANumber gross)]>
    (<["totalDeductions" := VAtom (ANumber deductions)]>
       (<["netSalary" := VAtom (ANumber net)]> obj)).

(** The sample salary with a gross of 5 and a net of 7. *)
Definition salary_unreconciled : Doc :=
  <["grossSalary" := VAtom (ANumber 5)]> (<["netSalary" := VAtom (ANumber 7)]> salary_sample).

(** ** The rest of the five schemas *)

Definition schemas : list Schema :=
  [DepartmentSchema; EmployeeSchema; AttendanceSchema; LeaveSchema; SalarySchema].

(** A stored string has been through the setters of its path: a path
    without a default holds what [applySetters] made of some string. *)
Definition set_by_setters (S : Schema) (d : Doc) : Prop :=
  ∀ p o s, schema_path S p = Some (SchemaScalar o) → opt_default o = None →
           d !! p = Some (VAtom (AString s)) →
           ∃ s0, applySetters o (AString s0) = AString s.

(** The [fullName] virtual of EmployeeSchema,
    [`${this.personalInfo.firstName} ${this.personalInfo.lastName}`].  A
    template literal prints a missing value as [undefined] and [null] as
    [null]; the two paths are strings, so a document never holds anything
    else there and the model gives no name in that case. *)
Definition interpolate (v : option Value) : option string :=
  match v with
  | None => Some "undefined"
  | Some (VAtom ANull) => Some "null"
  | Some (VAtom (AString s)) => Some s
  | Some _ => None
  end.

Definition fullName (d : Doc) : option string :=
  match interpolate (d !! "personalInfo.firstName"),
        interpolate (d !! "personalInfo.lastName") with
  | Some f, Some l => Some (f ++ " " ++ l)%string
  | _, _ => None
  end.

(** The elements of [Employee.documents]. *)
Definition document_types : list string :=
  ["Resume"; "ID Proof"; "Address Proof"; "Education Certificate"; "Experience Letter";
   "Other"].

Definition documents_sub : list (string * Options) :=
  [("documentType", [type TString; enum document_types]);
   ("documentName", [type TString]);
   ("documentUrl", [type TString]);
   ("uploadedAt", [type TDate; default Date_now])].

(** ** Objects of ASCII strings

    On these the three built-ins are known, and so is all the model
    does. *)

Definition ascii_atom (a : Atom) : bool :=
  match a with
  | AString s => is_ascii s
  | _ => true
  end.

Definition ascii_sub (e : SubDoc) : bool :=
  forallb (λ kv : string * Atom, ascii_atom kv.2) (map_to_list e).

Definition ascii_value (v : Value) : bool :=
  match v with
  | VAtom a => ascii_atom a
  | VArray elems => forallb ascii_sub elems
  end.

Definition ascii_doc (d : Doc) : bool :=
  forallb (λ kv : string * Value, ascii_value kv.2) (map_to_list d).

Definition ascii_operation (op : Operation) : bool :=
  match op with
  | Create _ _ obj => ascii_doc obj
  | Update _ _ patch => ascii_doc patch
  | Delete _ => true
  end.

End model.

Arguments create {_} S now%_Z oid%_N obj c.
Arguments update {_} S now%_Z id%_N patch c.
Arguments remove id%_N c.
Arguments getById id%_N c.
Arguments Create now%_Z oid%_N obj.
Arguments Update now%_Z id%_N patch.
Arguments Delete id%_N.
Arguments stored c id%_N p.

(** Equations between closed terms are decided by evaluation; the
    evaluated maps are not written into the proof. *)
Ltac not_member :=
  let H := fresh in
  intros H; repeat (apply elem_of_cons in H as [H|H]; [discriminate H|]);
  by apply elem_of_nil in H.

Ltac vm_refl :=
  lazymatch goal with |- ?l = ?r => vm_cast_no_check (@eq_refl _ r) end.

(** Both sides are evaluated to their common (small) value. *)
Ltac vm_eq :=
  lazymatch goal with
  | |- ?l = ?r =>
      let v := eval vm_compute in l in
      transitivity v; [vm_cast_no_check (@eq_refl _ v) | symmetry; vm_cast_no_check (@eq_refl _ v)]
  end.

Ltac paths_nodup := apply (bool_decide_unpack _); vm_compute; exact I.
Ltac dates_ok := split; vm_refl.
Ltac defaults_ok :=
  unfold defaults_typed; repeat constructor; intros now v; vm_compute;
  try discriminate; intros [= <-]; try done; by eexists.
Ltac eval_schema_path :=
  repeat match goal with
  | |- context [schema_path ?S ?p] =>
      let r := eval vm_compute in (schema_path S p) in
      change (schema_path S p) with r
  end.
Ltac member := apply (bool_decide_unpack _); vm_compute; exact I.

(** * Properties of the model

    Everything below holds for whatever the three string built-ins are. *)

Section theory.
Context {builtins : StringBuiltins}.

Lemma lookup_omap_paths {A B : Type} (f : string * A → option B)
    (l : list (string * A)) (p : string) :
  NoDup l.*1 →
  (list_to_map (omap (λ ps : string * A, pair ps.1 <$> f ps) l) : gmap string B) !! p
  = (list_to_map l : gmap string A) !! p ≫= (λ a, f (p, a)).
Proof.
  induction l as [|[k a] l IH]; intros Hnd; csimpl.
  - by rewrite !lookup_empty.
  - rewrite fmap_cons in Hnd. apply NoDup_cons in Hnd as [Hk Hnd].
    destruct (f (k, a)) as [b|] eqn:Hf; csimpl.
    + destruct (decide (p = k)) as [->|Hne].
      * rewrite !lookup_insert_eq. csimpl. by rewrite Hf.
      * rewrite !lookup_insert_ne by done. by apply IH.
    + rewrite IH by done.
      destruct (decide (p = k)) as [->|Hne].
      * rewrite lookup_insert_eq. csimpl. rewrite Hf.
        by rewrite (not_elem_of_list_to_map_1 _ _ Hk).
      * by rewrite lookup_insert_ne.
Qed.

Lemma omap_map {A B C : Type} (g : A → B) (h : B → option C) (l : list A) :
  omap h (map g l) = omap (λ x, h (g x)) l.
Proof. induction l as [|x l IH]; csimpl; [done|]. by rewrite IH. Qed.

Lemma concat_nil_iff {A : Type} (ls : list (list A)) :
  concat ls = [] ↔ ∀ l, l ∈ ls → l = [].
Proof.
  induction ls as [|l ls IH]; simpl.
  - split; [intros _ l Hl; by apply elem_of_nil in Hl | done].
  - split.
    + intros [-> Hls]%app_eq_nil l' [->|Hl']%elem_of_cons; [done|]. by apply IH.
    + intros H. rewrite (H l) by left. simpl. apply IH. intros l' Hl'. apply H. by right.
Qed.

Section generic.
Context (S : Schema) (HS : NoDup (paths S).*1).

Lemma schema_path_elem p sp : schema_path S p = Some sp ↔ (p, sp) ∈ paths S.
Proof. unfold schema_path. symmetry. by apply elem_of_list_to_map. Qed.

Lemma lookup_assign now obj base p :
  (assign S now obj base).1 !! p
  = schema_path S p ≫= (λ sp, (set_path now p sp (obj !! p) (base !! p)).1).
Proof.
  unfold assign, schema_path. cbn [fst]. rewrite omap_map.
  exact (lookup_omap_paths
    (λ ps : string * SchemaPath, (set_path now ps.1 ps.2 (obj !! ps.1) (base !! ps.1)).1)
    (paths S) p HS).
Qed.

Lemma lookup_defaults now p :
  defaults S now !! p = schema_path S p ≫= default_value now.
Proof.
  unfold defaults, schema_path.
  exact (lookup_omap_paths (λ ps : string * SchemaPath, default_value now ps.2)
                           (paths S) p HS).
Qed.

Lemma lookup_construct now obj p :
  (construct S now obj).1 !! p
  = schema_path S p ≫= (λ sp, (set_path now p sp (obj !! p) (default_value now sp)).1).
Proof.
  unfold construct. rewrite lookup_assign, lookup_defaults.
  by destruct (schema_path S p).
Qed.

Lemma errors_assign_nil now obj base :
  (assign S now obj base).2 = []
  ↔ ∀ p sp, schema_path S p = Some sp → (set_path now p sp (obj !! p) (base !! p)).2 = [].
Proof.
  unfold assign. cbn [snd]. rewrite map_map, concat_nil_iff. split.
  - intros H p sp Hp%schema_path_elem. apply H.
    apply list_elem_of_fmap. by exists (p, sp).
  - intros H l [[p sp] [-> Hp]]%list_elem_of_fmap. apply H. by apply schema_path_elem.
Qed.

Lemma validate_nil d :
  validate S d = []
  ↔ ∀ p sp, schema_path S p = Some sp → validate_path p sp (d !! p) = [].
Proof.
  unfold validate. rewrite concat_nil_iff. split.
  - intros H p sp Hp%schema_path_elem. apply H.
    apply list_elem_of_fmap. by exists (p, sp).
  - intros H l [[p sp] [-> Hp]]%list_elem_of_fmap. apply H. by apply schema_path_elem.
Qed.

End generic.

Lemma find_None {A : Type} (f : A → bool) (l : list A) :
  List.find f l = None ↔ ∀ x, x ∈ l → f x = false.
Proof.
  induction l as [|a l IH]; simpl.
  - split; [intros _ x Hx; by apply elem_of_nil in Hx | done].
  - destruct (f a) eqn:Hfa.
    + split; [done|]. intros H. rewrite H in Hfa by left. done.
    + rewrite IH. split.
      * intros H x [->|Hx]%elem_of_cons; auto.
      * intros H x Hx. apply H. by right.
Qed.

Lemma find_Some_elem {A : Type} (f : A → bool) (l : list A) (x : A) :
  List.find f l = Some x → x ∈ l ∧ f x = true.
Proof. intros [H1 H2]%List.find_some. split; [by apply list_elem_of_In | done]. Qed.

Lemma clashes_true ix d e :
  clashes ix d e = true ↔ ∃ k, index_entry ix d = Some k ∧ index_entry ix e = Some k.
Proof.
  unfold clashes. destruct (index_entry ix d) as [k|].
  - rewrite bool_decide_eq_true. split; [intros H; by exists k | by intros [k' [[= ->] H]]].
  - split; [done | by intros [k [? _]]].
Qed.

Lemma clashes_false ix d e :
  clashes ix d e = false
  ↔ ∀ k, index_entry ix d = Some k → index_entry ix e ≠ Some k.
Proof.
  rewrite <- not_true_iff_false, clashes_true. split.
  - intros H k Hd He. apply H. by exists k.
  - intros H [k [Hd He]]. by apply (H k).
Qed.

Lemma violated_None S self d c :
  violated S self d c = None
  ↔ ∀ ix j e, ix ∈ unique_indexes S → c !! j = Some e → j ≠ self →
      clashes ix d e = false.
Proof.
  unfold violated. rewrite find_None. split.
  - intros H ix j e Hix Hj Hne. specialize (H ix Hix).
    destruct (clashes ix d e) eqn:Hcl; [|done].
    rewrite <- H. symmetry. apply existsb_exists. exists (j, e). split.
    + apply list_elem_of_In. by apply elem_of_map_to_list.
    + simpl. rewrite Hcl. by rewrite bool_decide_eq_false_2.
  - intros H ix Hix. apply not_true_iff_false.
    intros [[j e] [Hje Hf]]%existsb_exists.
    apply list_elem_of_In, elem_of_map_to_list in Hje. simpl in Hf.
    apply andb_true_iff in Hf as [Hne Hcl].
    apply negb_true_iff, bool_decide_eq_false in Hne.
    by rewrite (H ix j e) in Hcl.
Qed.

Lemma violated_Some S self d c ix :
  violated S self d c = Some ix →
  ix ∈ unique_indexes S ∧ ∃ j e, c !! j = Some e ∧ j ≠ self ∧ clashes ix d e = true.
Proof.
  unfold violated. intros [Hix Hf]%find_Some_elem. split; [done|].
  apply existsb_exists in Hf as [[j e] [Hje Hf]].
  apply list_elem_of_In, elem_of_map_to_list in Hje. simpl in Hf.
  apply andb_true_iff in Hf as [Hne Hcl].
  apply negb_true_iff, bool_decide_eq_false in Hne. by exists j, e.
Qed.

Lemma save_inr S oid d c c' :
  save S oid d c = inr c' ↔ violated S oid d c = None ∧ c' = <[oid := d]> c.
Proof.
  unfold save. destruct (violated S oid d c); split; try done.
  - by intros [? _].
  - by intros [= <-].
  - by intros [_ ->].
Qed.

Lemma create_inr S now oid obj c c' :
  create S now oid obj c = inr c'
  ↔ (construct S now obj).2 = [] ∧ validate S (construct S now obj).1 = []
    ∧ c !! oid = None
    ∧ violated S oid (stamp S now true (construct S now obj).1) c = None
    ∧ c' = <[oid := stamp S now true (construct S now obj).1]> c.
Proof.
  unfold create. cbv zeta.
  destruct ((construct S now obj).2 ++ validate S (construct S now obj).1) eqn:He.
  - apply app_eq_nil in He as [-> ->].
    destruct (c !! oid).
    + split; [done | by intros (_ & _ & ? & _)].
    + rewrite save_inr. split; [by intros [? ?] | by intros (_ & _ & _ & ? & ?)].
  - split; [done|]. intros (H1 & H2 & _). by rewrite H1, H2 in He.
Qed.

Lemma update_inr S now id patch c c' :
  update S now id patch c = inr c'
  ↔ ∃ d0, c !! id = Some d0
      ∧ (assign S now patch d0).2 = [] ∧ validate S (assign S now patch d0).1 = []
      ∧ if isModified S patch d0 (assign S now patch d0).1
        then violated S id
               (stamp S now false (keep_unmodified d0 (assign S now patch d0).1)) c = None
             ∧ c' = <[id := stamp S now false
                              (keep_unmodified d0 (assign S now patch d0).1)]> c
        else c' = c.
Proof.
  unfold update. cbv zeta. destruct (c !! id) as [d0|]; [|split; [done | by intros (? & ? & _)]].
  destruct ((assign S now patch d0).2 ++ validate S (assign S now patch d0).1) eqn:He.
  - apply app_eq_nil in He as [He1 He2].
    destruct (isModified S patch d0 (assign S now patch d0).1) eqn:Hm.
    + rewrite save_inr. split.
      * intros [? ?]. exists d0. by rewrite Hm.
      * intros (d & [= <-] & _ & _ & Hr). by rewrite Hm in Hr.
    + split.
      * intros [= <-]. exists d0. by rewrite Hm.
      * intros (d & [= <-] & _ & _ & Hr). rewrite Hm in Hr. by subst.
  - split; [done|]. intros (d & [= <-] & H1 & H2 & _). by rewrite H1, H2 in He.
Qed.

(** [deepEqual] on a string, a date or an ObjectId is equality; on numbers
    it is [==] of floats. *)
Lemma deepEqual_String v s :
  deepEqual v (Some (VAtom (AString s))) = true ↔ v = Some (VAtom (AString s)).
Proof.
  destruct v as [[[t| | | | |]|[|]]|]; cbn [deepEqual strictEquals]; try (split; done).
  rewrite bool_decide_eq_true. split; [by intros -> | by intros [= ->]].
Qed.

Lemma deepEqual_Date v t :
  deepEqual v (Some (VAtom (ADate t))) = true ↔ v = Some (VAtom (ADate t)).
Proof.
  destruct v as [[[| | |u| |]|[|]]|]; cbn [deepEqual strictEquals]; try (split; done).
  rewrite bool_decide_eq_true. split; [by intros -> | by intros [= ->]].
Qed.

Lemma deepEqual_ObjectId v o :
  deepEqual v (Some (VAtom (AObjectId o))) = true ↔ v = Some (VAtom (AObjectId o)).
Proof.
  destruct v as [[[| | | |u|]|[|]]|]; cbn [deepEqual strictEquals]; try (split; done).
  rewrite bool_decide_eq_true. split; [by intros -> | by intros [= ->]].
Qed.

Lemma deepEqual_Number v x :
  deepEqual v (Some (VAtom (ANumber x))) = true
  ↔ ∃ y, v = Some (VAtom (ANumber y)) ∧ PrimFloat.eqb y x = true.
Proof.
  destruct v as [[[|y| | | |]|[|]]|]; cbn [deepEqual strictEquals];
    try (split; [done | by intros (? & ? & _)]).
  split; [intros Hy; by exists y | by intros (? & [= <-] & ?)].
Qed.

Lemma lookup_keep_unmodified d0 d1 p :
  keep_unmodified d0 d1 !! p = if deepEqual (d0 !! p) (d1 !! p) then d0 !! p else d1 !! p.
Proof. unfold keep_unmodified. rewrite lookup_merge. by destruct (d0 !! p), (d1 !! p). Qed.

Lemma remove_inr id c c' :
  remove id c = inr c' ↔ is_Some (c !! id) ∧ c' = delete id c.
Proof.
  unfold remove. destruct (c !! id); split; try done.
  - intros [= <-]. eauto.
  - by intros [_ ->].
  - by intros [[? ?] _].
Qed.

Lemma insert_unique_ok S oid d c :
  unique_ok S c → violated S oid d c = None → unique_ok S (<[oid := d]> c).
Proof.
  intros Hc Hv ix i j di dj k Hix Hi Hj Hdi Hdj.
  rewrite violated_None in Hv.
  destruct (decide (i = oid)) as [->|Hio], (decide (j = oid)) as [->|Hjo]; [done| | |].
  - rewrite lookup_insert_eq in Hi. injection Hi as <-.
    rewrite lookup_insert_ne in Hj by done.
    pose proof (Hv ix j dj Hix Hj Hjo) as Hcl.
    rewrite clashes_false in Hcl. by destruct (Hcl k).
  - rewrite lookup_insert_eq in Hj. injection Hj as <-.
    rewrite lookup_insert_ne in Hi by done.
    pose proof (Hv ix i di Hix Hi Hio) as Hcl.
    rewrite clashes_false in Hcl. by destruct (Hcl k).
  - rewrite lookup_insert_ne in Hi, Hj by done. by eapply Hc.
Qed.

Lemma delete_unique_ok S id c : unique_ok S c → unique_ok S (delete id c).
Proof.
  intros Hc ix i j di dj k Hix Hi Hj Hdi Hdj.
  apply lookup_delete_Some in Hi as [_ Hi], Hj as [_ Hj]. by eapply Hc.
Qed.

Lemma perform_unique_ok S op c c' :
  unique_ok S c → perform S op c = inr c' → unique_ok S c'.
Proof.
  intros Hc. destruct op as [now oid obj|now id patch|id]; simpl.
  - intros (_ & _ & _ & Hv & ->)%create_inr. by apply insert_unique_ok.
  - intros (d0 & _ & _ & _ & Hr)%update_inr.
    destruct (isModified S patch d0 (assign S now patch d0).1).
    + destruct Hr as [Hv ->]. by apply insert_unique_ok.
    + by subst.
  - intros [_ ->]%remove_inr. by apply delete_unique_ok.
Qed.

Lemma step_unique_ok S c op : unique_ok S c → unique_ok S (step S c op).
Proof.
  intros Hc. unfold step. destruct (perform S op c) eqn:Hp; [done|].
  by eapply perform_unique_ok.
Qed.

Lemma foldl_step_invariant S (P : Collection → Prop) :
  (∀ c op, P c → P (step S c op)) → ∀ ops c, P c → P (foldl (step S) c ops).
Proof.
  intros Hstep ops. induction ops as [|op ops IH]; intros c Hc; simpl; [done|].
  apply IH. by apply Hstep.
Qed.

Lemma run_unique_ok S ops : unique_ok S (run S ops).
Proof.
  unfold run. apply (foldl_step_invariant S (unique_ok S)); [apply step_unique_ok|].
  intros ix i j di dj k _ Hi. by rewrite lookup_empty in Hi.
Qed.

Lemma index_entry_ext ix d d' :
  (∀ f, f ∈ (index_fields ix).*1 → d !! f = d' !! f) →
  index_entry ix d = index_entry ix d'.
Proof.
  intros H. unfold index_entry.
  assert (map (λ f : string * Z, d !! f.1) (index_fields ix)
          = map (λ f : string * Z, d' !! f.1) (index_fields ix)) as ->; [|done].
  apply map_ext_in. intros f Hf%list_elem_of_In. apply H.
  apply list_elem_of_fmap. by exists f.
Qed.

Lemma cast_idempotent t a a' : cast t a = Some a' → cast t a' = Some a'.
Proof.
  destruct t as [[]|], a; simpl; try discriminate; try (by intros [= <-]).
  destruct (PrimFloat.is_nan x) eqn:Hx; [discriminate|].
  intros [= <-]. simpl. by rewrite Hx.
Qed.

Lemma set_path_typed now p sp input prior v :
  (∀ w, prior = Some w → well_typed sp w) →
  (set_path now p sp input prior).1 = Some v → well_typed sp v.
Proof.
  intros Hprior. destruct sp as [o|sub], input as [[a|elems]|]; simpl; try by apply Hprior.
  - unfold set_atom.
    destruct (cast (opt_type o) (applySetters o a)) as [a'|] eqn:Hc; simpl.
    + intros [= <-]. exists a'. split; [done|]. by eapply cast_idempotent.
    + by apply Hprior.
  - destruct a; simpl; try done; by apply Hprior.
  - done.
Qed.

Section invariants.
Context (S : Schema) (HS : NoDup (paths S).*1).
Context (HT : timestamps_ok S) (HD : defaults_typed S).

Lemma doc_ok_insert d p sp v :
  doc_ok S d → schema_path S p = Some sp →
  validate_path p sp (Some v) = [] → well_typed sp v →
  doc_ok S (<[p := v]> d).
Proof.
  intros (Hv & Hc & Ht) Hp Hval Hty. split_and!.
  - rewrite validate_nil in Hv |- * by done. intros q sq Hq.
    destruct (decide (q = p)) as [->|Hne].
    + rewrite lookup_insert_eq. by simplify_eq.
    + rewrite lookup_insert_ne by done. by apply Hv.
  - intros q Hq. rewrite lookup_insert_ne by congruence. by apply Hc.
  - intros q sq w Hq. destruct (decide (q = p)) as [->|Hne].
    + rewrite lookup_insert_eq. intros [= <-]. by simplify_eq.
    + rewrite lookup_insert_ne by done. by apply Ht.
Qed.

Lemma timestamp_path_valid p v : validate_path p timestamp_path v = [].
Proof. by destruct v as [[]|]. Qed.

Lemma stamp_doc_ok now isNew d : doc_ok S d → doc_ok S (stamp S now isNew d).
Proof.
  intros Hd. unfold stamp. destruct (timestamps S); [|done].
  destruct HT as [Hc Hu].
  assert (∀ t, well_typed timestamp_path (VAtom (ADate t))) as Hdate
    by (intros t; by eexists).
  destruct isNew.
  - cbv zeta.
    set (d' := if truthy (d !! "createdAt") then d
               else <["createdAt" := VAtom (ADate now)]> d).
    assert (doc_ok S d') as Hd'.
    { unfold d'. destruct (truthy (d !! "createdAt")); [done|].
      eapply doc_ok_insert; [done|exact Hc|apply timestamp_path_valid|apply Hdate]. }
    eapply doc_ok_insert; [done|exact Hu|apply timestamp_path_valid|].
    destruct (d' !! "createdAt") as [v|] eqn:Hv; simpl; [|apply Hdate].
    destruct Hd' as (_ & _ & Ht). by apply (Ht "createdAt" _ v Hc).
  - eapply doc_ok_insert; [done|exact Hu|apply timestamp_path_valid|apply Hdate].
Qed.

Lemma keep_unmodified_doc_ok d0 d1 :
  doc_ok S d0 → doc_ok S d1 → doc_ok S (keep_unmodified d0 d1).
Proof.
  intros (Hv0 & Hc0 & Ht0) (Hv1 & Hc1 & Ht1). split_and!.
  - rewrite validate_nil in Hv0, Hv1 |- * by done. intros p sp Hp.
    rewrite lookup_keep_unmodified.
    destruct (deepEqual (d0 !! p) (d1 !! p)); [by apply Hv0 | by apply Hv1].
  - intros p Hp. rewrite lookup_keep_unmodified.
    destruct (deepEqual (d0 !! p) (d1 !! p)); [by apply Hc0 | by apply Hc1].
  - intros p sp v Hp. rewrite lookup_keep_unmodified.
    destruct (deepEqual (d0 !! p) (d1 !! p)); [by apply Ht0 | by apply Ht1].
Qed.

Lemma assign_closed now obj base p :
  schema_path S p = None → (assign S now obj base).1 !! p = None.
Proof. intros Hp. rewrite lookup_assign by done. by rewrite Hp. Qed.

Lemma assign_typed now obj base :
  (∀ p sp v, schema_path S p = Some sp → base !! p = Some v → well_typed sp v) →
  ∀ p sp v, schema_path S p = Some sp →
    (assign S now obj base).1 !! p = Some v → well_typed sp v.
Proof.
  intros Hbase p sp v Hp. rewrite lookup_assign by done. rewrite Hp. simpl.
  apply set_path_typed. intros w Hw. by apply (Hbase p).
Qed.

Lemma defaults_well_typed now p sp v :
  schema_path S p = Some sp → defaults S now !! p = Some v → well_typed sp v.
Proof.
  intros Hp. rewrite lookup_defaults by done. rewrite Hp. simpl.
  apply schema_path_elem in Hp; [|done].
  unfold defaults_typed in HD. rewrite Forall_forall in HD.
  apply (HD (p, sp) Hp now v).
Qed.

Lemma perform_stored_ok op c c' :
  stored_ok S c → perform S op c = inr c' → stored_ok S c'.
Proof.
  intros Hc. destruct op as [now oid obj|now id patch|id]; simpl.
  - intros (_ & Hv & _ & _ & ->)%create_inr i d.
    destruct (decide (i = oid)) as [->|Hne].
    + rewrite lookup_insert_eq. intros [= <-]. apply stamp_doc_ok.
      split_and!; [done|intros p; by apply assign_closed|].
      apply assign_typed. intros p sp v. apply defaults_well_typed.
    + rewrite lookup_insert_ne by done. apply Hc.
  - intros (d0 & Hd0 & _ & Hv & Hr)%update_inr i d.
    destruct (isModified S patch d0 (assign S now patch d0).1); [|subst; apply Hc].
    destruct Hr as [_ ->].
    destruct (decide (i = id)) as [->|Hne].
    + rewrite lookup_insert_eq. intros [= <-]. apply stamp_doc_ok.
      apply keep_unmodified_doc_ok; [by apply (Hc id)|].
      split_and!; [done|intros p; by apply assign_closed|].
      apply assign_typed. by destruct (Hc id d0 Hd0) as (_ & _ & Ht).
    + rewrite lookup_insert_ne by done. apply Hc.
  - intros [_ ->]%remove_inr i d [_ Hi]%lookup_delete_Some. by eapply Hc.
Qed.

Lemma run_stored_ok ops : stored_ok S (run S ops).
Proof.
  unfold run. apply (foldl_step_invariant S (stored_ok S)).
  - intros c op Hc. unfold step. destruct (perform S op c) eqn:Hp; [done|].
    by eapply perform_stored_ok.
  - intros i d Hi. by rewrite lookup_empty in Hi.
Qed.

(** A patch of one path. *)
Lemma assign_singleton now p sp v w d0 :
  (∀ q, schema_path S q = None → d0 !! q = None) →
  schema_path S p = Some sp →
  set_path now p sp (Some v) (d0 !! p) = (Some w, []) →
  assign S now {[p := v]} d0 = (<[p := w]> d0, []).
Proof.
  intros Hc Hp Hset. apply injective_projections; cbn [fst snd].
  - apply map_eq. intros q. rewrite lookup_assign by done.
    destruct (decide (q = p)) as [->|Hne].
    + rewrite Hp, lookup_singleton_eq, lookup_insert_eq. simpl. by rewrite Hset.
    + rewrite lookup_singleton_ne, lookup_insert_ne by done.
      destruct (schema_path S q) as [sq|] eqn:Hq; simpl.
      * by destruct sq.
      * symmetry. by apply Hc.
  - apply errors_assign_nil; [done|]. intros q sq Hq.
    destruct (decide (q = p)) as [->|Hne].
    + rewrite lookup_singleton_eq. simplify_eq. by rewrite Hset.
    + rewrite lookup_singleton_ne by done. by destruct sq.
Qed.

Lemma isModified_singleton p sp v d0 d1 :
  schema_path S p = Some sp →
  isModified S {[p := v]} d0 d1 = negb (deepEqual (d0 !! p) (d1 !! p)).
Proof.
  intros Hp. unfold isModified.
  destruct (negb (deepEqual (d0 !! p) (d1 !! p))) eqn:Hm.
  - apply existsb_exists. exists (p, sp). split.
    + apply list_elem_of_In. by apply schema_path_elem.
    + cbn [fst]. by rewrite lookup_singleton_eq.
  - apply not_true_iff_false. intros [[q sq] [_ Hq]]%existsb_exists. cbn [fst] in Hq.
    destruct (decide (q = p)) as [->|Hne].
    + rewrite lookup_singleton_eq in Hq. congruence.
    + by rewrite lookup_singleton_ne in Hq.
Qed.

Lemma keep_unmodified_insert p w d0 :
  keep_unmodified d0 (<[p := w]> d0)
  = if deepEqual (d0 !! p) (Some w) then d0 else <[p := w]> d0.
Proof.
  apply map_eq. intros q. rewrite lookup_keep_unmodified.
  destruct (decide (q = p)) as [->|Hne].
  - rewrite lookup_insert_eq. destruct (deepEqual (d0 !! p) (Some w)); [done|].
    by rewrite lookup_insert_eq.
  - rewrite lookup_insert_ne by done.
    destruct (deepEqual (d0 !! q) (d0 !! q)), (deepEqual (d0 !! p) (Some w));
      by rewrite ?lookup_insert_ne.
Qed.

(** In a collection that satisfies the invariants, setting one path that
    no unique index reads to a value its validators accept succeeds; the
    record is written when the value is not the one it holds. *)
Lemma update_singleton now id p sp v w c d0 :
  stored_ok S c → unique_ok S c → c !! id = Some d0 →
  schema_path S p = Some sp →
  set_path now p sp (Some v) (d0 !! p) = (Some w, []) →
  validate_path p sp (Some w) = [] →
  (∀ ix, ix ∈ unique_indexes S →
     (p ∉ (index_fields ix).*1) ∧ ("updatedAt" ∉ (index_fields ix).*1)) →
  update S now id {[p := v]} c
  = inr (if deepEqual (d0 !! p) (Some w) then c
         else <[id := stamp S now false (<[p := w]> d0)]> c).
Proof.
  intros Hst Hun Hid Hp Hset Hval Hix.
  destruct (Hst id d0 Hid) as (Hv0 & Hc0 & Ht0).
  apply update_inr. exists d0.
  rewrite (assign_singleton now p sp v w d0) by done. cbn [fst snd].
  rewrite (isModified_singleton p sp) by done.
  rewrite keep_unmodified_insert, lookup_insert_eq.
  split_and!; try done.
  - rewrite validate_nil in Hv0 |- * by done. intros q sq Hq.
    destruct (decide (q = p)) as [->|Hne].
    + rewrite lookup_insert_eq. by simplify_eq.
    + rewrite lookup_insert_ne by done. by apply Hv0.
  - destruct (deepEqual (d0 !! p) (Some w)); cbn [negb]; [done|]. split; [|done].
    apply violated_None. intros ix j e Hin Hj Hne. apply clashes_false.
    intros k Hk He. apply Hne. apply (Hun ix j id e d0 k); try done.
    rewrite <- Hk. apply index_entry_ext. intros f Hf.
    destruct (Hix ix Hin) as [Hfp Hfu].
    unfold stamp. destruct (timestamps S).
    + rewrite lookup_insert_ne by (by intros <-).
      rewrite lookup_insert_ne by (by intros <-). done.
    + rewrite lookup_insert_ne by (by intros <-). done.
Qed.

(** A patch that gives one path a value its validators refuse fails with
    a ValidationError. *)
Lemma update_singleton_refused now id p sp v w c d0 :
  stored_ok S c → c !! id = Some d0 →
  schema_path S p = Some sp →
  set_path now p sp (Some v) (d0 !! p) = (Some w, []) →
  validate_path p sp (Some w) ≠ [] →
  ∃ errs, update S now id {[p := v]} c = inl (ValidationError errs).
Proof.
  intros Hst Hid Hp Hset Hval.
  destruct (Hst id d0 Hid) as (Hv0 & Hc0 & Ht0).
  unfold update. rewrite Hid. cbv zeta.
  rewrite (assign_singleton now p sp v w d0) by done. cbn [fst snd app].
  destruct (validate S (<[p := w]> d0)) as [|e errs] eqn:Hv; [|by eexists].
  rewrite validate_nil in Hv by done. specialize (Hv p sp Hp).
  by rewrite lookup_insert_eq in Hv.
Qed.

(** A write that leaves the indexed fields of a stored record as they are
    clashes with no other record. *)
Lemma violated_unchanged id d d0 c :
  unique_ok S c → c !! id = Some d0 →
  (∀ ix f, ix ∈ unique_indexes S → f ∈ (index_fields ix).*1 → d !! f = d0 !! f) →
  violated S id d c = None.
Proof.
  intros Hun Hid Hsame. apply violated_None. intros ix j e Hin Hj Hne.
  apply clashes_false. intros k Hk He. apply Hne.
  apply (Hun ix j id e d0 k); try done.
  rewrite <- Hk. symmetry. apply index_entry_ext. intros f Hf. by apply (Hsame ix).
Qed.

(** A patch that modifies nothing leaves every path as it is stored. *)
Lemma keep_unmodified_same now patch d0 p :
  (∀ q, schema_path S q = None → d0 !! q = None) →
  isModified S patch d0 (assign S now patch d0).1 = false →
  keep_unmodified d0 (assign S now patch d0).1 !! p = d0 !! p.
Proof.
  intros Hc Hm. rewrite lookup_keep_unmodified.
  destruct (deepEqual (d0 !! p) ((assign S now patch d0).1 !! p)) eqn:He; [done|].
  revert He. rewrite lookup_assign by done.
  destruct (schema_path S p) as [sp|] eqn:Hp; cbn [mbind option_bind].
  - destruct (patch !! p) as [v|] eqn:Hv; [|by destruct sp].
    intros He. exfalso. apply not_true_iff_false in Hm. apply Hm.
    apply existsb_exists. exists (p, sp). split.
    + apply list_elem_of_In. by apply schema_path_elem.
    + cbn [fst]. rewrite Hv, lookup_assign by done.
      rewrite Hp. cbn [mbind option_bind]. rewrite Hv. by rewrite He.
  - intros _. symmetry. by apply Hc.
Qed.
End invariants.
Lemma lookup_stamp S now isNew d p :
  p ≠ "createdAt" → p ≠ "updatedAt" → stamp S now isNew d !! p = d !! p.
Proof.
  intros Hc Hu. unfold stamp. destruct (timestamps S); [|done].
  destruct isNew; cbv zeta; rewrite lookup_insert_ne by done; [|done].
  destruct (truthy (d !! "createdAt")); [done|]. by rewrite lookup_insert_ne.
Qed.

Lemma stamp_ext S now isNew d d' p :
  p ≠ "createdAt" ∨ isNew = false →
  (∀ q, q ≠ p → d !! q = d' !! q) →
  ∀ q, q ≠ p → stamp S now isNew d !! q = stamp S now isNew d' !! q.
Proof.
  intros Hp H q Hq. unfold stamp. destruct (timestamps S); [|by apply H].
  destruct isNew.
  - destruct Hp as [Hp|?]; [|done]. cbv zeta.
    rewrite <- (H "createdAt") by done.
    destruct (truthy (d !! "createdAt")).
    + rewrite <- (H "createdAt") by done.
      destruct (decide (q = "updatedAt")) as [->|Hu]; [by rewrite !lookup_insert_eq|].
      rewrite !lookup_insert_ne by done. by apply H.
    + rewrite !lookup_insert_eq.
      destruct (decide (q = "updatedAt")) as [->|Hu]; [by rewrite !lookup_insert_eq|].
      rewrite !(lookup_insert_ne _ "updatedAt") by done.
      destruct (decide (q = "createdAt")) as [->|Hc]; [by rewrite !lookup_insert_eq|].
      rewrite !lookup_insert_ne by done. by apply H.
  - destruct (decide (q = "updatedAt")) as [->|Hu]; [by rewrite !lookup_insert_eq|].
    rewrite !lookup_insert_ne by done. by apply H.
Qed.

Lemma errors_nil S now obj :
  errors S now obj = []
  ↔ (construct S now obj).2 = [] ∧ validate S (construct S now obj).1 = [].
Proof. unfold errors. split; [apply app_eq_nil | by intros [-> ->]]. Qed.

Lemma lookup_stamp_false S now d p :
  p ≠ "updatedAt" → stamp S now false d !! p = d !! p.
Proof.
  intros Hu. unfold stamp. destruct (timestamps S); [|done]. by rewrite lookup_insert_ne.
Qed.

Section transfer.
Context (S : Schema) (HS : NoDup (paths S).*1).

(** Two objects that differ at one path, where neither value is refused
    and no unique index reads the path, are accepted or rejected together. *)
Lemma assign_transfer now obj obj' base base' p sp :
  (∀ q, q ≠ p → obj !! q = obj' !! q ∧ base !! q = base' !! q) →
  schema_path S p = Some sp →
  (set_path now p sp (obj' !! p) (base' !! p)).2 = [] →
  validate_path p sp (set_path now p sp (obj' !! p) (base' !! p)).1 = [] →
  (assign S now obj base).2 = [] → validate S (assign S now obj base).1 = [] →
  (assign S now obj' base').2 = [] ∧ validate S (assign S now obj' base').1 = []
  ∧ ∀ q, q ≠ p → (assign S now obj base).1 !! q = (assign S now obj' base').1 !! q.
Proof.
  intros Hq Hp Hset Hval He Hv. split_and!.
  - rewrite errors_assign_nil in He |- * by done. intros q sq Hsq.
    destruct (decide (q = p)) as [->|Hne]; [by simplify_eq|].
    destruct (Hq q Hne) as [<- <-]. by apply He.
  - rewrite validate_nil in Hv |- * by done. intros q sq Hsq.
    specialize (Hv q sq Hsq). rewrite lookup_assign in Hv |- * by done.
    rewrite Hsq in Hv |- *. simpl in *.
    destruct (decide (q = p)) as [->|Hne]; [by simplify_eq|].
    by destruct (Hq q Hne) as [<- <-].
  - intros q Hne. rewrite !lookup_assign by done.
    by destruct (Hq q Hne) as [<- <-].
Qed.

Lemma violated_transfer self d d' c p :
  (∀ q, q ≠ p → d !! q = d' !! q) →
  (∀ ix, ix ∈ unique_indexes S → p ∉ (index_fields ix).*1) →
  violated S self d c = None → violated S self d' c = None.
Proof.
  intros Hq Hix. rewrite !violated_None. intros H ix j e Hin Hj Hne.
  rewrite <- (H ix j e Hin Hj Hne). unfold clashes.
  rewrite (index_entry_ext ix d' d); [done|].
  intros f Hf. symmetry. apply Hq. intros ->. by apply (Hix ix).
Qed.

Lemma create_transfer now oid obj obj' c p sp :
  (∀ q, q ≠ p → obj !! q = obj' !! q) →
  schema_path S p = Some sp →
  (set_path now p sp (obj' !! p) (default_value now sp)).2 = [] →
  validate_path p sp (set_path now p sp (obj' !! p) (default_value now sp)).1 = [] →
  (∀ ix, ix ∈ unique_indexes S → p ∉ (index_fields ix).*1) →
  p ≠ "createdAt" →
  is_ok (create S now oid obj c) = true → is_ok (create S now oid obj' c) = true.
Proof.
  intros Hq Hp Hset Hval Hix Hpc.
  destruct (create S now oid obj c) as [|c1] eqn:Hc; [done|]. intros _.
  apply create_inr in Hc as (He & Hv & Hoid & Hviol & _).
  assert (defaults S now !! p = default_value now sp) as Hd.
  { rewrite lookup_defaults by done. by rewrite Hp. }
  destruct (assign_transfer now obj obj' (defaults S now) (defaults S now) p sp)
    as (He' & Hv' & Hsame); try done.
  { intros q Hne. split; [by apply Hq|done]. }
  { by rewrite Hd. } { by rewrite Hd. }
  destruct (create S now oid obj' c) as [err|c2] eqn:Hc'; [|done].
  assert (∃ c2, create S now oid obj' c = inr c2) as [c2 Hc2]; [|congruence].
  eexists. apply create_inr. split_and!; try done.
  eapply violated_transfer; [|done|done]. apply stamp_ext; [by left|done].
Qed.

Lemma update_transfer now id patch patch' c p sp d0 :
  stored_ok S c → unique_ok S c →
  c !! id = Some d0 →
  (∀ q, q ≠ p → patch !! q = patch' !! q) →
  schema_path S p = Some sp →
  (set_path now p sp (patch' !! p) (d0 !! p)).2 = [] →
  validate_path p sp (set_path now p sp (patch' !! p) (d0 !! p)).1 = [] →
  (∀ ix, ix ∈ unique_indexes S →
     (p ∉ (index_fields ix).*1) ∧ ("updatedAt" ∉ (index_fields ix).*1)) →
  is_ok (update S now id patch c) = true → is_ok (update S now id patch' c) = true.
Proof.
  intros Hst Hun Hid Hq Hp Hset Hval Hix.
  destruct (update S now id patch c) as [|c1] eqn:Hc; [done|]. intros _.
  apply update_inr in Hc as (d & Hd & He & Hv & Hr). simplify_eq.
  destruct (assign_transfer now patch patch' d0 d0 p sp)
    as (He' & Hv' & Hsame); try done.
  { intros q Hne. split; [by apply Hq|done]. }
  assert (violated S id (stamp S now false (keep_unmodified d0 (assign S now patch d0).1)) c
          = None) as Hviol.
  { destruct (isModified S patch d0 (assign S now patch d0).1) eqn:Hm; [by destruct Hr|].
    apply (violated_unchanged S id _ d0); [done..|]. intros ix f Hin Hf.
    destruct (Hix ix Hin) as [_ Hu].
    rewrite lookup_stamp_false by (by intros ->).
    apply (keep_unmodified_same S HS now patch d0 f); [|done].
    by destruct (Hst id d0 Hid) as (_ & Hc0 & _). }
  assert (∃ c2, update S now id patch' c = inr c2) as [c2 Hc2].
  { exists (if isModified S patch' d0 (assign S now patch' d0).1
            then <[id := stamp S now false
                            (keep_unmodified d0 (assign S now patch' d0).1)]> c
            else c).
    apply update_inr. exists d0. split_and!; try done.
    destruct (isModified S patch' d0 (assign S now patch' d0).1); [|done].
    split; [|done].
    eapply (violated_transfer _ _ _ _ p); [|intros ix Hin; by apply Hix|exact Hviol].
    apply stamp_ext; [by right|]. intros q Hne.
    rewrite !lookup_keep_unmodified. by rewrite (Hsame q Hne). }
  by rewrite Hc2.
Qed.
End transfer.

Lemma save_duplicate S oid d c ix j e k :
  ix ∈ unique_indexes S → c !! j = Some e → j ≠ oid →
  index_entry ix d = Some k → index_entry ix e = Some k →
  ∃ ix', ix' ∈ unique_indexes S ∧ save S oid d c = inl (DuplicateKey (index_name ix')).
Proof.
  intros Hix Hj Hne Hd He. unfold save.
  destruct (violated S oid d c) as [ix'|] eqn:Hv.
  - exists ix'. split; [|done]. by apply violated_Some in Hv as [? _].
  - rewrite violated_None in Hv. specialize (Hv ix j e Hix Hj Hne).
    rewrite clashes_false in Hv. by destruct (Hv k).
Qed.

Lemma write_duplicate_fails S op c i d ix j e k :
  written S op c = Some (i, d) →
  ix ∈ unique_indexes S → c !! j = Some e → j ≠ i →
  index_entry ix d = Some k → index_entry ix e = Some k →
  is_ok (perform S op c) = false.
Proof.
  intros Hw Hix Hj Hne Hd He.
  destruct (perform S op c) as [|c'] eqn:Hp; [done|].
  destruct op as [now oid obj|now id patch|id]; cbn [perform written] in *.
  - simplify_eq. apply create_inr in Hp as (_ & _ & _ & Hv & _).
    rewrite violated_None in Hv. specialize (Hv ix j e Hix Hj Hne).
    rewrite clashes_false in Hv. by destruct (Hv k).
  - apply update_inr in Hp as (d0 & Hd0 & _ & _ & Hr).
    rewrite Hd0 in Hw. cbv zeta in Hw.
    destruct (isModified S patch d0 (assign S now patch d0).1); [|discriminate Hw].
    destruct Hr as [Hv _]. simplify_eq.
    rewrite violated_None in Hv. specialize (Hv ix j e Hix Hj Hne).
    rewrite clashes_false in Hv. by destruct (Hv k).
  - done.
Qed.

(** ** The five schemas *)


Lemma DepartmentSchema_paths : NoDup (paths DepartmentSchema).*1.
Proof. paths_nodup. Qed.
Lemma EmployeeSchema_paths : NoDup (paths EmployeeSchema).*1.
Proof. paths_nodup. Qed.
Lemma AttendanceSchema_paths : NoDup (paths AttendanceSchema).*1.
Proof. paths_nodup. Qed.
Lemma LeaveSchema_paths : NoDup (paths LeaveSchema).*1.
Proof. paths_nodup. Qed.
Lemma SalarySchema_paths : NoDup (paths SalarySchema).*1.
Proof. paths_nodup. Qed.

Lemma DepartmentSchema_timestamps : timestamps_ok DepartmentSchema.
Proof. dates_ok. Qed.
Lemma EmployeeSchema_timestamps : timestamps_ok EmployeeSchema.
Proof. dates_ok. Qed.
Lemma AttendanceSchema_timestamps : timestamps_ok AttendanceSchema.
Proof. dates_ok. Qed.
Lemma LeaveSchema_timestamps : timestamps_ok LeaveSchema.
Proof. dates_ok. Qed.
Lemma SalarySchema_timestamps : timestamps_ok SalarySchema.
Proof. dates_ok. Qed.

Lemma key_of_ObjectId v o : key_of v = KObjectId o → v = Some (VAtom (AObjectId o)).
Proof. destruct v as [[[]|]|]; simpl; congruence. Qed.

Lemma key_of_Date v t : key_of v = KDate t → v = Some (VAtom (ADate t)).
Proof. destruct v as [[[]|]|]; simpl; congruence. Qed.

Lemma key_of_String v s : key_of v = KString s → v = Some (VAtom (AString s)).
Proof. destruct v as [[[]|]|]; simpl; congruence. Qed.

(** *** Attendance *)

Lemma AttendanceSchema_unique_indexes :
  unique_indexes AttendanceSchema = [attendance_index].
Proof. reflexivity. Qed.

Lemma attendance_entry d :
  index_entry attendance_index d = Some [key_of (d !! "employee"); key_of (d !! "date")].
Proof. reflexivity. Qed.

Lemma attendance_construct now obj (emp : ObjectId) (day : Z) :
  obj !! "employee" = Some (VAtom (AObjectId emp)) →
  obj !! "date" = Some (VAtom (ADate day)) →
  (construct AttendanceSchema now obj).1 !! "employee" = Some (VAtom (AObjectId emp))
  ∧ (construct AttendanceSchema now obj).1 !! "date" = Some (VAtom (ADate day)).
Proof.
  intros He Hd. rewrite !lookup_construct by apply AttendanceSchema_paths.
  rewrite He, Hd. eval_schema_path. done.
Qed.

Lemma attendance_unique ops i j di dj :
  run AttendanceSchema ops !! i = Some di → run AttendanceSchema ops !! j = Some dj →
  di !! "employee" = dj !! "employee" → di !! "date" = dj !! "date" → i = j.
Proof.
  intros Hi Hj He Hd.
  apply (run_unique_ok AttendanceSchema ops attendance_index i j di dj
           [key_of (di !! "employee"); key_of (di !! "date")]); try done.
  - rewrite AttendanceSchema_unique_indexes. by left.
  - by rewrite attendance_entry, He, Hd.
Qed.

Lemma attendance_first_create c now oid obj emp day :
  obj !! "employee" = Some (VAtom (AObjectId emp)) →
  obj !! "date" = Some (VAtom (ADate day)) →
  errors AttendanceSchema now obj = [] →
  c !! oid = None →
  (∀ j e, c !! j = Some e →
     ¬ (e !! "employee" = Some (VAtom (AObjectId emp))
        ∧ e !! "date" = Some (VAtom (ADate day)))) →
  ∃ d, create AttendanceSchema now oid obj c = inr (<[oid := d]> c)
       ∧ d !! "employee" = Some (VAtom (AObjectId emp))
       ∧ d !! "date" = Some (VAtom (ADate day)).
Proof.
  intros He Hd [Herr Hval]%errors_nil Hoid Hnone.
  destruct (attendance_construct now obj emp day He Hd) as [Hce Hcd].
  exists (stamp AttendanceSchema now true (construct AttendanceSchema now obj).1).
  rewrite !lookup_stamp by done. split_and!; try done.
  apply create_inr. split_and!; try done.
  apply violated_None. intros ix j e.
  rewrite AttendanceSchema_unique_indexes. intros ->%list_elem_of_singleton Hj _.
  apply clashes_false. intros k. rewrite !attendance_entry, !lookup_stamp by done.
  rewrite Hce, Hcd. intros [= <-] [= Hke Hkd].
  apply (Hnone j e Hj). split; [by apply key_of_ObjectId | by apply key_of_Date].
Qed.

Lemma attendance_second_create c now oid obj emp day j e :
  obj !! "employee" = Some (VAtom (AObjectId emp)) →
  obj !! "date" = Some (VAtom (ADate day)) →
  errors AttendanceSchema now obj = [] →
  c !! oid = None → c !! j = Some e →
  e !! "employee" = Some (VAtom (AObjectId emp)) →
  e !! "date" = Some (VAtom (ADate day)) →
  create AttendanceSchema now oid obj c = inl (DuplicateKey "employee_1_date_1").
Proof.
  intros He Hd Herr Hoid Hj Hee Hed.
  destruct (attendance_construct now obj emp day He Hd) as [Hce Hcd].
  unfold create. cbv zeta. fold (errors AttendanceSchema now obj). rewrite Herr, Hoid.
  destruct (save_duplicate AttendanceSchema oid
              (stamp AttendanceSchema now true (construct AttendanceSchema now obj).1)
              c attendance_index j e [KObjectId emp; KDate day])
    as (ix' & Hix' & ->); try done.
  - rewrite AttendanceSchema_unique_indexes. by left.
  - intros ->. congruence.
  - by rewrite attendance_entry, !lookup_stamp, Hce, Hcd.
  - by rewrite attendance_entry, Hee, Hed.
  - rewrite AttendanceSchema_unique_indexes in Hix'.
    by apply list_elem_of_singleton in Hix' as ->.
Qed.
Lemma DepartmentSchema_defaults : defaults_typed DepartmentSchema.
Proof. defaults_ok. Qed.
Lemma EmployeeSchema_defaults : defaults_typed EmployeeSchema.
Proof. defaults_ok. Qed.
Lemma AttendanceSchema_defaults : defaults_typed AttendanceSchema.
Proof. defaults_ok. Qed.
Lemma LeaveSchema_defaults : defaults_typed LeaveSchema.
Proof. defaults_ok. Qed.
Lemma SalarySchema_defaults : defaults_typed SalarySchema.
Proof. defaults_ok. Qed.

Lemma is_ok_eq {A B : Type} (r : Error + A) (r' : Error + B) :
  (is_ok r = true → is_ok r' = true) → (is_ok r' = true → is_ok r = true) →
  is_ok r = is_ok r'.
Proof. destruct (is_ok r), (is_ok r'); intros H1 H2; auto. symmetry. auto. Qed.

Lemma required_number S d p o :
  NoDup (paths S).*1 → doc_ok S d →
  schema_path S p = Some (SchemaScalar o) →
  is_required o = true → opt_type o = Some TNumber →
  ∃ x, d !! p = Some (VAtom (ANumber x)) ∧ PrimFloat.is_nan x = false.
Proof.
  intros HS (Hv & _ & Ht) Hp Hreq Hty.
  rewrite validate_nil in Hv by done. specialize (Hv p _ Hp). simpl in Hv.
  unfold validate_atom in Hv. rewrite Hreq in Hv. simpl in Hv.
  destruct (d !! p) as [v|] eqn:Hd; [|done].
  destruct (Ht p _ v Hp Hd) as (a & -> & Hc). rewrite Hty in Hc.
  destruct a; simpl in *; try done.
  exists x. split; [done|]. by destruct (PrimFloat.is_nan x).
Qed.

Lemma required_date S d p o :
  NoDup (paths S).*1 → doc_ok S d →
  schema_path S p = Some (SchemaScalar o) →
  is_required o = true → opt_type o = Some TDate →
  ∃ t, d !! p = Some (VAtom (ADate t)).
Proof.
  intros HS (Hv & _ & Ht) Hp Hreq Hty.
  rewrite validate_nil in Hv by done. specialize (Hv p _ Hp). simpl in Hv.
  unfold validate_atom in Hv. rewrite Hreq in Hv. simpl in Hv.
  destruct (d !! p) as [v|] eqn:Hd; [|done].
  destruct (Ht p _ v Hp Hd) as (a & -> & Hc). rewrite Hty in Hc.
  destruct a; simpl in *; try done. by exists t.
Qed.

Lemma DepartmentSchema_unique_indexes :
  unique_indexes DepartmentSchema = [departmentId_index].
Proof. reflexivity. Qed.

Lemma LeaveSchema_unique_indexes : unique_indexes LeaveSchema = [].
Proof. reflexivity. Qed.

(** ** The model on ASCII strings

    What the model does with objects of ASCII strings does not depend on
    the built-ins: it is what [ascii_builtins] gives. *)

Lemma upper_ascii_is_ascii c :
  (N_of_ascii c <? 128)%N = true → (N_of_ascii (upper_ascii c) <? 128)%N = true.
Proof. destruct c as [[] [] [] [] [] [] [] []]; intros Hc; try discriminate Hc; reflexivity. Qed.

Lemma lower_ascii_is_ascii c :
  (N_of_ascii c <? 128)%N = true → (N_of_ascii (lower_ascii c) <? 128)%N = true.
Proof. destruct c as [[] [] [] [] [] [] [] []]; intros Hc; try discriminate Hc; reflexivity. Qed.

Lemma is_ascii_toUpperCase s : is_ascii s = true → is_ascii (ascii_toUpperCase s) = true.
Proof.
  induction s as [|c s IH]; cbn [is_ascii ascii_toUpperCase]; [done|].
  intros [Hc Hs]%andb_true_iff. by rewrite upper_ascii_is_ascii, IH.
Qed.

Lemma is_ascii_toLowerCase s : is_ascii s = true → is_ascii (ascii_toLowerCase s) = true.
Proof.
  induction s as [|c s IH]; cbn [is_ascii ascii_toLowerCase]; [done|].
  intros [Hc Hs]%andb_true_iff. by rewrite lower_ascii_is_ascii, IH.
Qed.

Lemma is_ascii_trimStart s : is_ascii s = true → is_ascii (trimStart s) = true.
Proof.
  induction s as [|c s IH]; cbn [trimStart]; [done|]. intros Hs.
  destruct (is_ascii_white_space c); [|done].
  apply IH. cbn [is_ascii] in Hs. by apply andb_true_iff in Hs as [_ ?].
Qed.

Lemma is_ascii_trimEnd s : is_ascii s = true → is_ascii (trimEnd s) = true.
Proof.
  induction s as [|c s IH]; cbn [trimEnd is_ascii]; [done|].
  intros [Hc Hs]%andb_true_iff. specialize (IH Hs).
  destruct (trimEnd s) as [|c' r].
  - destruct (is_ascii_white_space c); cbn [is_ascii]; [done|]. by rewrite Hc.
  - cbn [is_ascii] in IH |- *. by rewrite Hc, IH.
Qed.

Lemma is_ascii_trim s : is_ascii s = true → is_ascii (ascii_trim s) = true.
Proof. intros Hs. by apply is_ascii_trimEnd, is_ascii_trimStart. Qed.

Lemma setter_ascii x s :
  is_ascii s = true →
  setter x s = @setter ascii_builtins x s ∧ is_ascii (setter x s) = true.
Proof.
  intros Hs. destruct x as [| | | |[]|[]|[]| | | | |]; cbn [setter]; try done.
  - rewrite toUpperCase_ascii by done. split; [done|]. by apply is_ascii_toUpperCase.
  - rewrite toLowerCase_ascii by done. split; [done|]. by apply is_ascii_toLowerCase.
  - rewrite trim_string_ascii by done. split; [done|]. by apply is_ascii_trim.
Qed.

Lemma setters_ascii o s :
  is_ascii s = true →
  foldr setter s o = foldr (@setter ascii_builtins) s o
  ∧ is_ascii (foldr setter s o) = true.
Proof.
  intros Hs. induction o as [|x o [IH1 IH2]]; cbn [foldr]; [done|].
  rewrite <- IH1. by apply setter_ascii.
Qed.

Lemma applySetters_ascii o a :
  ascii_atom a = true → applySetters o a = @applySetters ascii_builtins o a.
Proof.
  destruct a as [s| | | | |]; cbn [applySetters ascii_atom]; try done.
  intros Hs. f_equal. by apply setters_ascii.
Qed.

Lemma set_atom_ascii o input prior :
  (∀ a, input = Some a → ascii_atom a = true) →
  set_atom o input prior = @set_atom ascii_builtins o input prior.
Proof.
  intros Hin. destruct input as [a|]; cbn [set_atom]; [|done].
  by rewrite applySetters_ascii by (by apply Hin).
Qed.

Lemma ascii_sub_lookup (e : SubDoc) q a :
  ascii_sub e = true → e !! q = Some a → ascii_atom a = true.
Proof.
  unfold ascii_sub. rewrite forallb_forall. intros He Hq.
  apply (He (q, a)). apply list_elem_of_In. by apply elem_of_map_to_list.
Qed.

Lemma ascii_doc_lookup (d : Doc) p v :
  ascii_doc d = true → d !! p = Some v → ascii_value v = true.
Proof.
  unfold ascii_doc. rewrite forallb_forall. intros Hd Hp.
  apply (Hd (p, v)). apply list_elem_of_In. by apply elem_of_map_to_list.
Qed.

Lemma construct_sub_ascii now sub e :
  ascii_sub e = true → construct_sub now sub e = @construct_sub ascii_builtins now sub e.
Proof.
  intros He. unfold construct_sub.
  assert (map (λ po : string * Options,
                 (po.1, set_atom po.2 (e !! po.1) (default_atom now po.2))) sub
          = map (λ po : string * Options,
                   (po.1, @set_atom ascii_builtins po.2 (e !! po.1) (default_atom now po.2)))
                sub) as ->; [|done].
  apply map_ext. intros po. f_equal. apply set_atom_ascii.
  intros a Ha. by apply (ascii_sub_lookup e po.1).
Qed.

Lemma set_path_ascii now p sp input prior :
  (∀ v, input = Some v → ascii_value v = true) →
  set_path now p sp input prior = @set_path ascii_builtins now p sp input prior.
Proof.
  intros Hin. destruct sp as [o|sub], input as [[a|elems]|]; cbn [set_path]; try done.
  - rewrite set_atom_ascii; [done|]. intros a' [= <-]. by apply (Hin (VAtom a)).
  - assert (map (construct_sub now sub) elems
            = map (@construct_sub ascii_builtins now sub) elems) as ->; [|done].
    apply map_ext_in. intros e He. apply construct_sub_ascii.
    specialize (Hin _ eq_refl). cbn [ascii_value] in Hin.
    rewrite forallb_forall in Hin. by apply Hin.
Qed.

Lemma assign_ascii S now obj base :
  ascii_doc obj = true → assign S now obj base = @assign ascii_builtins S now obj base.
Proof.
  intros Hobj. unfold assign.
  assert (map (λ ps : string * SchemaPath,
                 (ps.1, set_path now ps.1 ps.2 (obj !! ps.1) (base !! ps.1))) (paths S)
          = map (λ ps : string * SchemaPath,
                   (ps.1, @set_path ascii_builtins now ps.1 ps.2 (obj !! ps.1) (base !! ps.1)))
                (paths S)) as ->; [|done].
  apply map_ext. intros ps. f_equal. apply set_path_ascii.
  intros v Hv. by apply (ascii_doc_lookup obj ps.1).
Qed.

Lemma create_ascii S now oid obj c :
  ascii_doc obj = true → create S now oid obj c = @create ascii_builtins S now oid obj c.
Proof. intros Hobj. unfold create, construct. by rewrite assign_ascii. Qed.

Lemma update_ascii S now id patch c :
  ascii_doc patch = true → update S now id patch c = @update ascii_builtins S now id patch c.
Proof.
  intros Hpatch. unfold update. destruct (c !! id) as [d0|]; [|done].
  by rewrite assign_ascii.
Qed.

(** A sequence of operations on objects of ASCII strings gives the same
    collection whatever the built-ins. *)
Lemma run_ascii S ops :
  forallb ascii_operation ops = true → run S ops = @run ascii_builtins S ops.
Proof.
  unfold run. generalize (∅ : Collection).
  induction ops as [|op ops IH]; intros c; cbn [foldl forallb]; [done|].
  intros [Hop Hops]%andb_true_iff.
  assert (step S c op = @step ascii_builtins S c op) as ->; [|by apply IH].
  unfold step, perform. destruct op as [now oid obj|now id patch|id]; cbn [ascii_operation] in Hop.
  - by rewrite create_ascii.
  - by rewrite update_ascii.
  - done.
Qed.

(** The sample sequences used below are of this kind. *)
Lemma sample_runs :
  run LeaveSchema
      [Create 10 1 leave_sample; Update 20 1 (set_status "Rejected");
       Update 30 1 (set_status "Approved")]
  = @run ascii_builtins LeaveSchema
      [Create 10 1 leave_sample; Update 20 1 (set_status "Rejected");
       Update 30 1 (set_status "Approved")]
  ∧ run LeaveSchema [Create 10 1 (with_dates 259200000 86400000 leave_sample)]
    = @run ascii_builtins LeaveSchema
        [Create 10 1 (with_dates 259200000 86400000 leave_sample)]
  ∧ run DepartmentSchema [Create 10 1 department_sample]
    = @run ascii_builtins DepartmentSchema [Create 10 1 department_sample]
  ∧ run DepartmentSchema
        [Create 10 1 (<["employeeCount" := VAtom (ANumber (-2.5))]> department_sample)]
    = @run ascii_builtins DepartmentSchema
        [Create 10 1 (<["employeeCount" := VAtom (ANumber (-2.5))]> department_sample)]
  ∧ run SalarySchema [Create 10 1 salary_unreconciled]
    = @run ascii_builtins SalarySchema [Create 10 1 salary_unreconciled]
  ∧ run EmployeeSchema [Create 10 1 employee_sample]
    = @run ascii_builtins EmployeeSchema [Create 10 1 employee_sample].
Proof. split_and!; apply run_ascii; vm_refl. Qed.

Lemma construct_absent S now obj p o :
  NoDup (paths S).*1 →
  schema_path S p = Some (SchemaScalar o) → obj !! p = None →
  (construct S now obj).1 !! p = VAtom <$> default_atom now o.
Proof.
  intros HS Hp Hobj. rewrite lookup_construct by done. by rewrite Hp, Hobj.
Qed.

Lemma construct_given S now obj p o a a' :
  NoDup (paths S).*1 →
  schema_path S p = Some (SchemaScalar o) → obj !! p = Some (VAtom a) →
  cast (opt_type o) (applySetters o a) = Some a' →
  (construct S now obj).1 !! p = Some (VAtom a').
Proof.
  intros HS Hp Hobj Hc. rewrite lookup_construct by done. rewrite Hp, Hobj. simpl.
  unfold set_atom. by rewrite Hc.
Qed.

(** The errors of a create, path by path. *)
Lemma errors_by_path S now obj :
  NoDup (paths S).*1 →
  Forall (λ ps : string * SchemaPath,
            (set_path now ps.1 ps.2 (obj !! ps.1) (default_value now ps.2)).2 = []
            ∧ validate_path ps.1 ps.2
                (set_path now ps.1 ps.2 (obj !! ps.1) (default_value now ps.2)).1 = [])
         (paths S) →
  errors S now obj = [].
Proof.
  intros HS Hall. rewrite Forall_forall in Hall. apply errors_nil. split.
  - unfold construct. apply errors_assign_nil; [done|]. intros p sp Hp.
    rewrite lookup_defaults by done. rewrite Hp. cbn [mbind option_bind].
    apply schema_path_elem in Hp; [|done]. by destruct (Hall (p, sp) Hp).
  - apply validate_nil; [done|]. intros p sp Hp.
    rewrite lookup_construct by done. rewrite Hp. cbn [mbind option_bind].
    apply schema_path_elem in Hp; [|done]. by destruct (Hall (p, sp) Hp).
Qed.

(** A record a create has stored holds, outside the two timestamps, what
    [construct] built. *)
Lemma created_stored S now oid obj c c' p :
  p ≠ "createdAt" → p ≠ "updatedAt" →
  create S now oid obj c = inr c' →
  stored c' oid p = (construct S now obj).1 !! p.
Proof.
  intros Hc Hu (_ & _ & _ & _ & ->)%create_inr.
  unfold stored. rewrite lookup_insert_eq. cbn [mbind option_bind].
  by apply lookup_stamp.
Qed.

(** C2.  Attendance has one record per (employee, date).  In any
    collection [c] that holds no record for the pair, the first of two
    valid creates for the pair succeeds and the second fails with
    DuplicateKey on the index employee_1_date_1; and in every collection
    reached by creates, updates and deletes from the empty one, two
    records with the same employee and date are the same record. *)
Theorem attendance_one_record_per_employee_date
    (ops : list Operation) (c : Collection) (now1 now2 : Z) (oid1 oid2 : ObjectId)
    (obj1 obj2 : Doc) (emp : ObjectId) (day : Z) :
  obj1 !! "employee" = Some (VAtom (AObjectId emp)) →
  obj1 !! "date" = Some (VAtom (ADate day)) →
  obj2 !! "employee" = Some (VAtom (AObjectId emp)) →
  obj2 !! "date" = Some (VAtom (ADate day)) →
  errors AttendanceSchema now1 obj1 = [] →
  errors AttendanceSchema now2 obj2 = [] →
  c !! oid1 = None → c !! oid2 = None → oid1 ≠ oid2 →
  (∀ j e, c !! j = Some e →
     ¬ (e !! "employee" = Some (VAtom (AObjectId emp))
        ∧ e !! "date" = Some (VAtom (ADate day)))) →
  (∃ d1, create AttendanceSchema now1 oid1 obj1 c = inr (<[oid1 := d1]> c)
         ∧ create AttendanceSchema now2 oid2 obj2 (<[oid1 := d1]> c)
           = inl (DuplicateKey "employee_1_date_1"))
  ∧ (∀ i j di dj,
       run AttendanceSchema ops !! i = Some di →
       run AttendanceSchema ops !! j = Some dj →
       di !! "employee" = dj !! "employee" → di !! "date" = dj !! "date" → i = j).
Proof.
  intros He1 Hd1 He2 Hd2 Herr1 Herr2 Hoid1 Hoid2 Hne Hnone. split.
  - destruct (attendance_first_create c now1 oid1 obj1 emp day) as (d1 & Hc1 & Hde & Hdd);
      try done.
    exists d1. split; [done|].
    apply (attendance_second_create _ now2 oid2 obj2 emp day oid1 d1); try done.
    + by rewrite lookup_insert_ne.
    + by rewrite lookup_insert_eq.
  - apply attendance_unique.
Qed.

(** *** Salaries *)

Lemma SalarySchema_unique_indexes : unique_indexes SalarySchema = [salary_index].
Proof. reflexivity. Qed.

Lemma salary_entry d :
  index_entry salary_index d
  = Some [key_of (d !! "employee"); key_of (d !! "month"); key_of (d !! "year")].
Proof. reflexivity. Qed.

Lemma same_period_entry d e :
  same_period d e → index_entry salary_index d = index_entry salary_index e.
Proof. intros (He & Hm & Hy). by rewrite !salary_entry, He, Hm, Hy. Qed.

(** C8.  In every collection reached from the empty one, two Salary
    records for the same (employee, month, year) are the same record, and a
    create or update that would store a second record for the triple of
    another record fails. *)
Theorem salary_one_record_per_employee_month_year
    (ops : list Operation) (op : Operation) (i j : ObjectId) (d e : Doc) :
  (∀ i' j' di dj,
     run SalarySchema ops !! i' = Some di → run SalarySchema ops !! j' = Some dj →
     same_period di dj → i' = j')
  ∧ (written SalarySchema op (run SalarySchema ops) = Some (i, d) →
     run SalarySchema ops !! j = Some e → j ≠ i → same_period d e →
     is_ok (perform SalarySchema op (run SalarySchema ops)) = false).
Proof.
  split.
  - intros i' j' di dj Hi Hj Hsame.
    apply (run_unique_ok SalarySchema ops salary_index i' j' di dj
             [key_of (di !! "employee"); key_of (di !! "month"); key_of (di !! "year")]);
      try done.
    + rewrite SalarySchema_unique_indexes. by left.
    + by rewrite <- (same_period_entry di dj).
  - intros Hw Hj Hne Hsame.
    apply (write_duplicate_fails SalarySchema op _ i d salary_index j e
             [key_of (d !! "employee"); key_of (d !! "month"); key_of (d !! "year")]);
      try done.
    + rewrite SalarySchema_unique_indexes. by left.
    + by rewrite <- (same_period_entry d e).
Qed.

(** *** Employees *)

Lemma EmployeeSchema_unique_indexes :
  unique_indexes EmployeeSchema = [employeeId_index; email_index; biometricId_index].
Proof. reflexivity. Qed.

Lemma employeeId_entry d :
  index_entry employeeId_index d = Some [key_of (d !! "employeeId")].
Proof. reflexivity. Qed.

Lemma email_entry d :
  index_entry email_index d = Some [key_of (d !! "personalInfo.email")].
Proof. reflexivity. Qed.

Lemma biometricId_entry d :
  is_Some (d !! "biometricInfo.biometricId") →
  index_entry biometricId_index d = Some [key_of (d !! "biometricInfo.biometricId")].
Proof. intros [v Hv]. unfold index_entry. simpl. by rewrite Hv. Qed.

Lemma shares_identity_entry d e :
  shares_identity d e →
  ∃ ix k, ix ∈ unique_indexes EmployeeSchema
          ∧ index_entry ix d = Some k ∧ index_entry ix e = Some k.
Proof.
  rewrite EmployeeSchema_unique_indexes. intros [Hs|[Hs|[Hs Hb]]].
  - exists employeeId_index, [key_of (d !! "employeeId")].
    split; [by left|]. by rewrite !employeeId_entry, Hs.
  - exists email_index, [key_of (d !! "personalInfo.email")].
    split; [right; by left|]. by rewrite !email_entry, Hs.
  - exists biometricId_index, [key_of (d !! "biometricInfo.biometricId")].
    split; [right; right; by left|].
    rewrite !biometricId_entry; [by rewrite Hb|by rewrite <- Hb|done].
Qed.

(** C3.  In every collection reached from the empty one, two distinct
    Employee records differ in employeeId, in personalInfo.email and, when
    the first has one, in biometricInfo.biometricId; and a create or update
    whose document would share one of the three with another record
    fails. *)
Theorem employee_identifiers_unique
    (ops : list Operation) (op : Operation) (i j : ObjectId) (d e : Doc) :
  (∀ i' j' di dj,
     run EmployeeSchema ops !! i' = Some di → run EmployeeSchema ops !! j' = Some dj →
     i' ≠ j' → ¬ shares_identity di dj)
  ∧ (written EmployeeSchema op (run EmployeeSchema ops) = Some (i, d) →
     run EmployeeSchema ops !! j = Some e → j ≠ i → shares_identity d e →
     is_ok (perform EmployeeSchema op (run EmployeeSchema ops)) = false).
Proof.
  split.
  - intros i' j' di dj Hi Hj Hne (ix & k & Hix & Hdi & Hdj)%shares_identity_entry.
    apply Hne. by apply (run_unique_ok EmployeeSchema ops ix i' j' di dj k).
  - intros Hw Hj Hne (ix & k & Hix & Hd & He)%shares_identity_entry.
    by apply (write_duplicate_fails EmployeeSchema op _ i d ix j e k).
Qed.

(** C10.  The four leave balances have constant defaults written in the
    schema: an Employee built from an object that gives none of them holds
    casual 12, sick 10, annual 15 and unpaid 0, whatever the time and the
    rest of the object, and so does the record a successful create
    stores. *)
Theorem employee_leaveBalance_defaults
    (now : Z) (obj : Doc) (oid : ObjectId) (c c' : Collection) :
  obj !! "leaveBalance.casual" = None →
  obj !! "leaveBalance.sick" = None →
  obj !! "leaveBalance.annual" = None →
  obj !! "leaveBalance.unpaid" = None →
  (schema_path EmployeeSchema "leaveBalance.casual"
     = Some (SchemaScalar [type TNumber; default (Const (ANumber 12))])
   ∧ schema_path EmployeeSchema "leaveBalance.sick"
     = Some (SchemaScalar [type TNumber; default (Const (ANumber 10))])
   ∧ schema_path EmployeeSchema "leaveBalance.annual"
     = Some (SchemaScalar [type TNumber; default (Const (ANumber 15))])
   ∧ schema_path EmployeeSchema "leaveBalance.unpaid"
     = Some (SchemaScalar [type TNumber; default (Const (ANumber 0))]))
  ∧ ((construct EmployeeSchema now obj).1 !! "leaveBalance.casual" = Some (VAtom (ANumber 12))
     ∧ (construct EmployeeSchema now obj).1 !! "leaveBalance.sick" = Some (VAtom (ANumber 10))
     ∧ (construct EmployeeSchema now obj).1 !! "leaveBalance.annual" = Some (VAtom (ANumber 15))
     ∧ (construct EmployeeSchema now obj).1 !! "leaveBalance.unpaid" = Some (VAtom (ANumber 0)))
  ∧ (create EmployeeSchema now oid obj c = inr c' →
     ∃ d, c' !! oid = Some d
          ∧ d !! "leaveBalance.casual" = Some (VAtom (ANumber 12))
          ∧ d !! "leaveBalance.sick" = Some (VAtom (ANumber 10))
          ∧ d !! "leaveBalance.annual" = Some (VAtom (ANumber 15))
          ∧ d !! "leaveBalance.unpaid" = Some (VAtom (ANumber 0))).
Proof.
  intros Hc Hs Ha Hu.
  assert (schema_path EmployeeSchema "leaveBalance.casual"
          = Some (SchemaScalar [type TNumber; default (Const (ANumber 12))])) as Pc
    by (vm_compute; reflexivity).
  assert (schema_path EmployeeSchema "leaveBalance.sick"
          = Some (SchemaScalar [type TNumber; default (Const (ANumber 10))])) as Ps
    by (vm_compute; reflexivity).
  assert (schema_path EmployeeSchema "leaveBalance.annual"
          = Some (SchemaScalar [type TNumber; default (Const (ANumber 15))])) as Pa
    by (vm_compute; reflexivity).
  assert (schema_path EmployeeSchema "leaveBalance.unpaid"
          = Some (SchemaScalar [type TNumber; default (Const (ANumber 0))])) as Pu
    by (vm_compute; reflexivity).
  pose proof (construct_absent _ now obj _ _ EmployeeSchema_paths Pc Hc) as Dc.
  pose proof (construct_absent _ now obj _ _ EmployeeSchema_paths Ps Hs) as Ds.
  pose proof (construct_absent _ now obj _ _ EmployeeSchema_paths Pa Ha) as Da.
  pose proof (construct_absent _ now obj _ _ EmployeeSchema_paths Pu Hu) as Du.
  split; [exact (conj Pc (conj Ps (conj Pa Pu)))|].
  split; [exact (conj Dc (conj Ds (conj Da Du)))|].
  intros (_ & _ & _ & _ & ->)%create_inr.
  exists (stamp EmployeeSchema now true (construct EmployeeSchema now obj).1).
  rewrite lookup_insert_eq. split; [reflexivity|].
  rewrite !lookup_stamp by discriminate.
  exact (conj Dc (conj Ds (conj Da Du))).
Qed.

(** *** Departments *)

Lemma department_stored_ok ops : stored_ok DepartmentSchema (run DepartmentSchema ops).
Proof.
  apply run_stored_ok;
    [apply DepartmentSchema_paths | apply DepartmentSchema_timestamps
    | apply DepartmentSchema_defaults].
Qed.

Lemma employeeCount_path :
  schema_path DepartmentSchema "employeeCount"
  = Some (SchemaScalar [type TNumber; default (Const (ANumber 0))]).
Proof. vm_refl. Qed.

Lemma department_not_indexed p ix :
  p ≠ "departmentId" → ix ∈ unique_indexes DepartmentSchema →
  (p ∉ (index_fields ix).*1) ∧ ("updatedAt" ∉ (index_fields ix).*1).
Proof.
  rewrite DepartmentSchema_unique_indexes. intros Hp ->%list_elem_of_singleton.
  split; [|not_member]. intros [->|Hin%elem_of_nil]%elem_of_cons; done.
Qed.

(** C9, as the code has it.  [employeeCount] is a Number with default 0
    and no validator: a Department built without it holds 0, and in every
    collection reached from the empty one an update may set it to any
    number that is not NaN, negative and fractional ones included.  The
    update succeeds; unless the number is the one the record holds (in
    which case nothing is written), the record then holds the number as
    given and the time of the update. *)
Theorem department_employeeCount_any_number
    (ops : list Operation) (now : Z) (id : ObjectId) (d obj : Doc) (x : float) :
  run DepartmentSchema ops !! id = Some d →
  PrimFloat.is_nan x = false →
  obj !! "employeeCount" = None →
  (construct DepartmentSchema now obj).1 !! "employeeCount" = Some (VAtom (ANumber 0))
  ∧ update DepartmentSchema now id {["employeeCount" := VAtom (ANumber x)]}
           (run DepartmentSchema ops)
    = inr (if deepEqual (d !! "employeeCount") (Some (VAtom (ANumber x)))
           then run DepartmentSchema ops
           else <[id := <["updatedAt" := VAtom (ADate now)]>
                          (<["employeeCount" := VAtom (ANumber x)]> d)]>
                  (run DepartmentSchema ops)).
Proof.
  intros Hd Hx Hobj. split.
  - rewrite lookup_construct by apply DepartmentSchema_paths.
    rewrite Hobj. by eval_schema_path.
  - apply (update_singleton DepartmentSchema DepartmentSchema_paths
             now id "employeeCount" _
             (VAtom (ANumber x)) (VAtom (ANumber x)) _ d
             (department_stored_ok ops) (run_unique_ok _ _) Hd employeeCount_path).
    + cbn [set_path set_atom applySetters opt_type cast]. by rewrite Hx.
    + reflexivity.
    + intros ix. by apply department_not_indexed.
Qed.

(** *** Leaves *)

Lemma leave_stored_ok ops : stored_ok LeaveSchema (run LeaveSchema ops).
Proof.
  apply run_stored_ok;
    [apply LeaveSchema_paths | apply LeaveSchema_timestamps | apply LeaveSchema_defaults].
Qed.

Lemma leave_not_indexed p ix :
  ix ∈ unique_indexes LeaveSchema →
  (p ∉ (index_fields ix).*1) ∧ ("updatedAt" ∉ (index_fields ix).*1).
Proof. rewrite LeaveSchema_unique_indexes. by intros ?%elem_of_nil. Qed.

Lemma leave_status_path :
  schema_path LeaveSchema "status"
  = Some (SchemaScalar [type TString; enum leave_statuses; default (Const (AString "Pending"))]).
Proof. vm_compute; reflexivity. Qed.

Lemma leave_status_validate (to : string) :
  validate_path "status"
    (SchemaScalar [type TString; enum leave_statuses; default (Const (AString "Pending"))])
    (Some (VAtom (AString to)))
  = if bool_decide (to ∈ leave_statuses) then [] else [validator_error "status" kind_enum].
Proof.
  unfold validate_path, validate_atom, atom_of. cbn [is_required existsb andb].
  change (omap (λ x, validator x (Some (AString to)))
            [type TString; enum leave_statuses; default (Const (AString "Pending"))])
    with (match (if bool_decide (to ∈ leave_statuses) then None else Some kind_enum) with
          | Some k => [k]
          | None => []
          end).
  by destruct (bool_decide (to ∈ leave_statuses)).
Qed.

(** C6, as the code has it.  [status] is checked against its four values
    and nothing else: in every collection reached from the empty one, an
    update that sets the status of a stored Leave to one of the four values
    succeeds whatever the status was (the record then holds the new status
    and the time of the update; when the status is the one it holds,
    nothing is written), and one that sets it to any other string fails
    with a ValidationError. *)
Theorem leave_status_any_transition
    (ops : list Operation) (now : Z) (id : ObjectId) (d : Doc) (to : string) :
  run LeaveSchema ops !! id = Some d →
  (to ∈ leave_statuses →
   update LeaveSchema now id (set_status to) (run LeaveSchema ops)
   = inr (if deepEqual (d !! "status") (Some (VAtom (AString to)))
          then run LeaveSchema ops
          else <[id := <["updatedAt" := VAtom (ADate now)]>
                         (<["status" := VAtom (AString to)]> d)]>
                 (run LeaveSchema ops)))
  ∧ (to ∉ leave_statuses →
     ∃ errs, update LeaveSchema now id (set_status to) (run LeaveSchema ops)
             = inl (ValidationError errs)).
Proof.
  intros Hd. split; intros Hto.
  - apply (update_singleton LeaveSchema LeaveSchema_paths now id "status" _
             (VAtom (AString to)) (VAtom (AString to)) _ d (leave_stored_ok ops)
             (run_unique_ok _ _) Hd leave_status_path); [done| |].
    + rewrite leave_status_validate. by rewrite bool_decide_eq_true_2.
    + intros ix. apply leave_not_indexed.
  - apply (update_singleton_refused LeaveSchema LeaveSchema_paths now id "status" _
             (VAtom (AString to)) (VAtom (AString to)) _ d (leave_stored_ok ops) Hd
             leave_status_path); [done|].
    rewrite leave_status_validate. by rewrite bool_decide_eq_false_2.
Qed.

Lemma leave_date_path p :
  p = "startDate" ∨ p = "endDate" →
  schema_path LeaveSchema p = Some (SchemaScalar [type TDate; required true]).
Proof. intros [-> | ->]; vm_refl. Qed.

Lemma leave_create_date p now oid obj c (t t' : Z) :
  p = "startDate" ∨ p = "endDate" →
  is_ok (create LeaveSchema now oid (<[p := VAtom (ADate t)]> obj) c) = true →
  is_ok (create LeaveSchema now oid (<[p := VAtom (ADate t')]> obj) c) = true.
Proof.
  intros Hp.
  apply (create_transfer LeaveSchema LeaveSchema_paths now oid _ _ c p
           (SchemaScalar [type TDate; required true])).
  - intros q Hq. by rewrite !lookup_insert_ne.
  - by apply leave_date_path.
  - rewrite lookup_insert_eq. reflexivity.
  - rewrite lookup_insert_eq. reflexivity.
  - intros ix. rewrite LeaveSchema_unique_indexes. by intros ?%elem_of_nil.
  - by destruct Hp as [-> | ->].
Qed.

Lemma leave_create_dates now oid obj c (s e s' e' : Z) :
  is_ok (create LeaveSchema now oid (with_dates s e obj) c) = true →
  is_ok (create LeaveSchema now oid (with_dates s' e' obj) c) = true.
Proof.
  unfold with_dates. intros Hok.
  apply (leave_create_date "startDate" now oid _ c s s') in Hok; [|by left].
  rewrite insert_insert_ne in Hok by done.
  apply (leave_create_date "endDate" now oid _ c e e') in Hok; [|by right].
  by rewrite insert_insert_ne in Hok.
Qed.

Lemma leave_update_date p ops now id d (t : Z) :
  p = "startDate" ∨ p = "endDate" →
  run LeaveSchema ops !! id = Some d →
  update LeaveSchema now id {[p := VAtom (ADate t)]} (run LeaveSchema ops)
  = inr (if deepEqual (d !! p) (Some (VAtom (ADate t)))
         then run LeaveSchema ops
         else <[id := <["updatedAt" := VAtom (ADate now)]> (<[p := VAtom (ADate t)]> d)]>
                (run LeaveSchema ops)).
Proof.
  intros Hp Hd.
  apply (update_singleton LeaveSchema LeaveSchema_paths now id p
           (SchemaScalar [type TDate; required true])
           (VAtom (ADate t)) (VAtom (ADate t)) _ d).
  - apply leave_stored_ok.
  - apply run_unique_ok.
  - exact Hd.
  - by apply leave_date_path.
  - reflexivity.
  - reflexivity.
  - intros ix. apply leave_not_indexed.
Qed.

(** C5, as the code has it.  [startDate] and [endDate] are required dates
    and are never compared.  Whether a Leave create is accepted does not
    depend on the two dates, and an accepted create stores them as given;
    every stored Leave has both dates; and in every collection reached from
    the empty one an update may set either date of a stored Leave to any
    date, also an [endDate] before the [startDate] (the record then holds
    the date and the time of the update; when the date is the one it
    holds, nothing is written). *)
Theorem leave_dates_not_compared
    (ops : list Operation) (c c' : Collection) (now : Z) (oid id : ObjectId)
    (obj d : Doc) (s e s' e' t : Z) :
  is_ok (create LeaveSchema now oid (with_dates s e obj) c)
  = is_ok (create LeaveSchema now oid (with_dates s' e' obj) c)
  ∧ (create LeaveSchema now oid (with_dates s e obj) c = inr c' →
     stored c' oid "startDate" = Some (VAtom (ADate s))
     ∧ stored c' oid "endDate" = Some (VAtom (ADate e)))
  ∧ (run LeaveSchema ops !! id = Some d →
     (∃ s0 e0, d !! "startDate" = Some (VAtom (ADate s0))
               ∧ d !! "endDate" = Some (VAtom (ADate e0)))
     ∧ update LeaveSchema now id {["endDate" := VAtom (ADate t)]} (run LeaveSchema ops)
       = inr (if deepEqual (d !! "endDate") (Some (VAtom (ADate t)))
              then run LeaveSchema ops
              else <[id := <["updatedAt" := VAtom (ADate now)]>
                             (<["endDate" := VAtom (ADate t)]> d)]>
                     (run LeaveSchema ops))
     ∧ update LeaveSchema now id {["startDate" := VAtom (ADate t)]} (run LeaveSchema ops)
       = inr (if deepEqual (d !! "startDate") (Some (VAtom (ADate t)))
              then run LeaveSchema ops
              else <[id := <["updatedAt" := VAtom (ADate now)]>
                             (<["startDate" := VAtom (ADate t)]> d)]>
                     (run LeaveSchema ops))).
Proof.
  split_and!.
  - apply is_ok_eq; apply leave_create_dates.
  - intros Hc.
    rewrite !(created_stored LeaveSchema now oid _ c c') by (done || discriminate).
    split.
    + apply (construct_given LeaveSchema now _ "startDate" _ (ADate s) (ADate s)
               LeaveSchema_paths (leave_date_path _ (or_introl eq_refl))); [|done].
      unfold with_dates. by rewrite lookup_insert_eq.
    + apply (construct_given LeaveSchema now _ "endDate" _ (ADate e) (ADate e)
               LeaveSchema_paths (leave_date_path _ (or_intror eq_refl))); [|done].
      unfold with_dates. rewrite lookup_insert_ne by done. by rewrite lookup_insert_eq.
  - intros Hd. split_and!.
    + pose proof (leave_stored_ok ops id d Hd) as Hok.
      destruct (required_date LeaveSchema d "startDate" _ LeaveSchema_paths Hok
                  (leave_date_path _ (or_introl eq_refl)) eq_refl eq_refl) as [s0 Hs0].
      destruct (required_date LeaveSchema d "endDate" _ LeaveSchema_paths Hok
                  (leave_date_path _ (or_intror eq_refl)) eq_refl eq_refl) as [e0 He0].
      by exists s0, e0.
    + apply leave_update_date; [by right|done].
    + apply leave_update_date; [by left|done].
Qed.

Lemma customName_path :
  schema_path DepartmentSchema "customName" = Some (SchemaScalar [type TString; trim true]).
Proof. vm_refl. Qed.

Lemma customName_validate v :
  validate_path "customName" (SchemaScalar [type TString; trim true]) v = [].
Proof. reflexivity. Qed.

Lemma customName_not_indexed ix :
  ix ∈ unique_indexes DepartmentSchema →
  ("customName" ∉ (index_fields ix).*1) ∧ ("updatedAt" ∉ (index_fields ix).*1).
Proof. by apply department_not_indexed. Qed.

Lemma department_create_customName now oid obj c (s : string) :
  is_ok (create DepartmentSchema now oid (<["customName" := VAtom (AString s)]> obj) c)
  = is_ok (create DepartmentSchema now oid (delete "customName" obj) c).
Proof.
  apply is_ok_eq.
  - apply (create_transfer DepartmentSchema DepartmentSchema_paths now oid _ _ c
             "customName" (SchemaScalar [type TString; trim true])).
    + intros q Hq. by rewrite lookup_insert_ne, lookup_delete_ne.
    + exact customName_path.
    + rewrite lookup_delete_eq. reflexivity.
    + apply customName_validate.
    + intros ix Hix. by apply customName_not_indexed.
    + done.
  - apply (create_transfer DepartmentSchema DepartmentSchema_paths now oid _ _ c
             "customName" (SchemaScalar [type TString; trim true])).
    + intros q Hq. by rewrite lookup_insert_ne, lookup_delete_ne.
    + exact customName_path.
    + rewrite lookup_insert_eq. reflexivity.
    + apply customName_validate.
    + intros ix Hix. by apply customName_not_indexed.
    + done.
Qed.

Lemma department_update_customName ops now id patch (s : string) :
  is_ok (update DepartmentSchema now id (<["customName" := VAtom (AString s)]> patch)
           (run DepartmentSchema ops))
  = is_ok (update DepartmentSchema now id (delete "customName" patch)
             (run DepartmentSchema ops)).
Proof.
  destruct (run DepartmentSchema ops !! id) as [d0|] eqn:Hid;
    [|by unfold update; rewrite Hid].
  apply is_ok_eq.
  - apply (update_transfer DepartmentSchema DepartmentSchema_paths now id _ _ _
             "customName" (SchemaScalar [type TString; trim true]) d0
             (department_stored_ok ops) (run_unique_ok _ _) Hid).
    + intros q Hq. by rewrite lookup_insert_ne, lookup_delete_ne.
    + exact customName_path.
    + rewrite lookup_delete_eq. reflexivity.
    + apply customName_validate.
    + apply customName_not_indexed.
  - apply (update_transfer DepartmentSchema DepartmentSchema_paths now id _ _ _
             "customName" (SchemaScalar [type TString; trim true]) d0
             (department_stored_ok ops) (run_unique_ok _ _) Hid).
    + intros q Hq. by rewrite lookup_insert_ne, lookup_delete_ne.
    + exact customName_path.
    + rewrite lookup_insert_eq. reflexivity.
    + apply customName_validate.
    + apply customName_not_indexed.
Qed.

Lemma departmentId_path :
  schema_path DepartmentSchema "departmentId"
  = Some (SchemaScalar [type TString; required true; unique true; uppercase true]).
Proof. vm_refl. Qed.

Lemma department_name_path :
  schema_path DepartmentSchema "name"
  = Some (SchemaScalar
            [type TString; required true; trim true;
             enum ["Sales"; "Developers"; "HR"; "Design and Media"; "Data Entry"; "SEO";
                   "Content Writers"; "Other"]]).
Proof. vm_refl. Qed.

Lemma trim_string_Other : trim_string "Other" = "Other".
Proof. by rewrite trim_string_ascii. Qed.

Lemma departmentId_construct now obj s :
  obj !! "departmentId" = Some (VAtom (AString s)) →
  (construct DepartmentSchema now obj).1 !! "departmentId"
  = Some (VAtom (AString (toUpperCase s))).
Proof.
  intros Hobj.
  by apply (construct_given DepartmentSchema now obj "departmentId" _ (AString s)
              (AString (toUpperCase s)) DepartmentSchema_paths departmentId_path).
Qed.

(** A Department named Other, without [customName], is valid when its
    [departmentId] is not empty after upper-casing. *)
Lemma other_department_valid now did :
  toUpperCase did ≠ "" → errors DepartmentSchema now (other_department did) = [].
Proof.
  intros Hdid. apply errors_by_path; [apply DepartmentSchema_paths|].
  let l := eval vm_compute in (paths DepartmentSchema) in
  change (paths DepartmentSchema) with l.
  repeat apply List.Forall_cons; try apply List.Forall_nil; cbn [fst snd];
    try (split; vm_compute; reflexivity).
  - change (other_department did !! "departmentId") with (Some (VAtom (AString did))).
    cbn [set_path set_atom applySetters foldr setter opt_type cast fst snd].
    split; [done|]. unfold validate_path, validate_atom, atom_of.
    cbn [is_required existsb orb andb checkRequired negb].
    destruct (toUpperCase did) as [|a r]; [done|]. reflexivity.
  - change (other_department did !! "name") with (Some (VAtom (AString "Other"))).
    cbn [set_path set_atom applySetters foldr setter opt_type cast fst snd].
    rewrite trim_string_Other. split; vm_compute; reflexivity.
Qed.

Lemma department_other_created c now oid did :
  toUpperCase did ≠ "" →
  c !! oid = None →
  (∀ j e, c !! j = Some e →
     e !! "departmentId" ≠ Some (VAtom (AString (toUpperCase did)))) →
  ∃ d, create DepartmentSchema now oid (other_department did) c = inr (<[oid := d]> c)
       ∧ d !! "name" = Some (VAtom (AString "Other"))
       ∧ d !! "customName" = None.
Proof.
  intros Hdid Hoid Hfree.
  exists (stamp DepartmentSchema now true
            (construct DepartmentSchema now (other_department did)).1).
  assert ((construct DepartmentSchema now (other_department did)).1 !! "departmentId"
          = Some (VAtom (AString (toUpperCase did)))) as Hid.
  { apply departmentId_construct. vm_refl. }
  destruct (proj1 (errors_nil _ _ _) (other_department_valid now did Hdid)) as [He Hv].
  split_and!.
  - apply create_inr. split_and!.
    + exact He.
    + exact Hv.
    + exact Hoid.
    + apply violated_None. intros ix j e.
      rewrite DepartmentSchema_unique_indexes. intros ->%list_elem_of_singleton Hj _.
      apply clashes_false. intros k.
      change (index_entry departmentId_index ?d) with (Some [key_of (d !! "departmentId")]).
      rewrite lookup_stamp by discriminate. rewrite Hid.
      intros [= <-] [= Hk]. by apply (Hfree j e Hj), key_of_String.
    + reflexivity.
  - rewrite lookup_stamp by discriminate.
    apply (construct_given DepartmentSchema now _ "name" _ (AString "Other") (AString "Other")
             DepartmentSchema_paths department_name_path); [vm_refl|].
    cbn [applySetters foldr setter opt_type cast]. by rewrite trim_string_Other.
  - rewrite lookup_stamp by discriminate.
    rewrite lookup_construct by apply DepartmentSchema_paths.
    rewrite customName_path. vm_refl.
Qed.

(** C4, as the code has it.  [customName] is an optional trimmed string
    and no validator reads [name] to decide about it: a Department create,
    and an update in a collection reached from the empty one, is accepted
    with a [customName] exactly when it is accepted without one; and
    creating a Department named Other succeeds without [customName] (and
    so with one) whenever the [_id] is new and the [departmentId], as the
    upper-case setter leaves it, is not empty and not in use. *)
Theorem department_customName_optional
    (ops : list Operation) (c : Collection) (now : Z) (oid id : ObjectId) (obj patch : Doc)
    (s did : string) :
  is_ok (create DepartmentSchema now oid (<["customName" := VAtom (AString s)]> obj) c)
  = is_ok (create DepartmentSchema now oid (delete "customName" obj) c)
  ∧ is_ok (update DepartmentSchema now id (<["customName" := VAtom (AString s)]> patch)
             (run DepartmentSchema ops))
    = is_ok (update DepartmentSchema now id (delete "customName" patch)
               (run DepartmentSchema ops))
  ∧ (toUpperCase did ≠ "" →
     c !! oid = None →
     (∀ j e, c !! j = Some e →
        e !! "departmentId" ≠ Some (VAtom (AString (toUpperCase did)))) →
     (∃ d, create DepartmentSchema now oid (other_department did) c = inr (<[oid := d]> c)
           ∧ d !! "name" = Some (VAtom (AString "Other"))
           ∧ d !! "customName" = None)
     ∧ is_ok (create DepartmentSchema now oid
                (<["customName" := VAtom (AString s)]> (other_department did)) c) = true).
Proof.
  split_and!.
  - apply department_create_customName.
  - apply department_update_customName.
  - intros Hdid Hoid Hfree.
    destruct (department_other_created c now oid did Hdid Hoid Hfree) as (d & Hc & Hn & Hcn).
    split; [by exists d|].
    rewrite department_create_customName.
    assert (delete "customName" (other_department did) = other_department did) as ->
      by (apply delete_id; vm_refl).
    by rewrite Hc.
Qed.

Lemma salary_total_path p :
  p ∈ salary_totals →
  schema_path SalarySchema p = Some (SchemaScalar [type TNumber; required true]).
Proof.
  intros Hp. repeat (apply elem_of_cons in Hp as [->|Hp]; [vm_refl|]).
  by apply elem_of_nil in Hp.
Qed.

Lemma salary_total_not_indexed p ix :
  p ∈ salary_totals → ix ∈ unique_indexes SalarySchema →
  (p ∉ (index_fields ix).*1) ∧ ("updatedAt" ∉ (index_fields ix).*1).
Proof.
  rewrite SalarySchema_unique_indexes. intros Hp ->%list_elem_of_singleton.
  split; [|not_member].
  repeat (apply elem_of_cons in Hp as [->|Hp]; [not_member|]).
  by apply elem_of_nil in Hp.
Qed.

Lemma salary_stored_ok ops : stored_ok SalarySchema (run SalarySchema ops).
Proof.
  apply run_stored_ok;
    [apply SalarySchema_paths | apply SalarySchema_timestamps | apply SalarySchema_defaults].
Qed.

Lemma salary_totals_elem :
  "grossSalary" ∈ salary_totals ∧ "totalDeductions" ∈ salary_totals
  ∧ "netSalary" ∈ salary_totals.
Proof. split_and!; member. Qed.

Lemma salary_create_total p now oid obj c (x x' : float) :
  p ∈ salary_totals →
  PrimFloat.is_nan x' = false →
  is_ok (create SalarySchema now oid (<[p := VAtom (ANumber x)]> obj) c) = true →
  is_ok (create SalarySchema now oid (<[p := VAtom (ANumber x')]> obj) c) = true.
Proof.
  intros Hp Hx.
  apply (create_transfer SalarySchema SalarySchema_paths now oid _ _ c p
           (SchemaScalar [type TNumber; required true])).
  - intros q Hq. by rewrite !lookup_insert_ne.
  - by apply salary_total_path.
  - rewrite lookup_insert_eq. cbn [set_path set_atom applySetters opt_type cast].
    by rewrite Hx.
  - rewrite lookup_insert_eq. cbn [set_path set_atom applySetters opt_type cast].
    by rewrite Hx.
  - intros ix Hix. by apply (salary_total_not_indexed p ix).
  - intros ->. revert Hp. not_member.
Qed.

Lemma salary_create_totals now oid obj c (g t n g' t' n' : float) :
  PrimFloat.is_nan g' = false → PrimFloat.is_nan t' = false → PrimFloat.is_nan n' = false →
  is_ok (create SalarySchema now oid (with_totals g t n obj) c) = true →
  is_ok (create SalarySchema now oid (with_totals g' t' n' obj) c) = true.
Proof.
  unfold with_totals. intros Hg Ht Hn Hok.
  destruct salary_totals_elem as (Eg & Et & En).
  apply (salary_create_total "grossSalary" now oid _ c g g' Eg Hg) in Hok.
  rewrite (insert_insert_ne _ "grossSalary" "totalDeductions") in Hok by done.
  apply (salary_create_total "totalDeductions" now oid _ c t t' Et Ht) in Hok.
  rewrite (insert_insert_ne _ "grossSalary" "netSalary") in Hok by done.
  rewrite (insert_insert_ne _ "totalDeductions" "netSalary") in Hok by done.
  apply (salary_create_total "netSalary" now oid _ c n n' En Hn) in Hok.
  rewrite (insert_insert_ne _ "netSalary" "totalDeductions") in Hok by done.
  rewrite (insert_insert_ne _ "netSalary" "grossSalary") in Hok by done.
  by rewrite (insert_insert_ne _ "totalDeductions" "grossSalary") in Hok.
Qed.

Lemma salary_created_total p now oid obj c c' (x : float) :
  p ∈ salary_totals → obj !! p = Some (VAtom (ANumber x)) →
  create SalarySchema now oid obj c = inr c' →
  stored c' oid p = Some (VAtom (ANumber x)) ∧ PrimFloat.is_nan x = false.
Proof.
  intros Hp Hobj Hc.
  assert (p ≠ "createdAt" ∧ p ≠ "updatedAt") as [Hpc Hpu].
  { split; intros ->; revert Hp; not_member. }
  rewrite (created_stored SalarySchema now oid obj c c' p Hpc Hpu Hc).
  destruct (PrimFloat.is_nan x) eqn:Hx.
  - exfalso. apply create_inr in Hc as (He & _). unfold construct in He.
    rewrite errors_assign_nil in He by apply SalarySchema_paths.
    specialize (He p _ (salary_total_path p Hp)). rewrite Hobj in He.
    cbn [set_path set_atom applySetters opt_type cast] in He. by rewrite Hx in He.
  - split; [|done].
    apply (construct_given SalarySchema now obj p _ (ANumber x) (ANumber x)
             SalarySchema_paths (salary_total_path p Hp) Hobj).
    cbn [applySetters opt_type cast]. by rewrite Hx.
Qed.

(** C1, as the code has it.  The three totals are required Numbers and
    nothing more.  Whether a Salary create is accepted does not depend on
    which numbers (not NaN) the object gives for them, and an accepted
    create stores them as given; every stored Salary holds a number (not
    NaN) in each; and in every collection reached from the empty one an
    update may set any of the three to any number that is not NaN, whatever
    the itemized earnings and deductions of the record (the record then
    holds the number as given and the time of the update; when the number
    is the one it holds, nothing is written). *)
Theorem salary_totals_stored_as_given
    (ops : list Operation) (c c' : Collection) (now : Z) (oid id : ObjectId) (obj d : Doc)
    (p : string) (g t n g' t' n' x : float) :
  (PrimFloat.is_nan g = false → PrimFloat.is_nan t = false → PrimFloat.is_nan n = false →
   PrimFloat.is_nan g' = false → PrimFloat.is_nan t' = false → PrimFloat.is_nan n' = false →
   is_ok (create SalarySchema now oid (with_totals g t n obj) c)
   = is_ok (create SalarySchema now oid (with_totals g' t' n' obj) c))
  ∧ (create SalarySchema now oid (with_totals g t n obj) c = inr c' →
     stored c' oid "grossSalary" = Some (VAtom (ANumber g))
     ∧ stored c' oid "totalDeductions" = Some (VAtom (ANumber t))
     ∧ stored c' oid "netSalary" = Some (VAtom (ANumber n)))
  ∧ (run SalarySchema ops !! id = Some d →
     (∃ g0 t0 n0,
        d !! "grossSalary" = Some (VAtom (ANumber g0)) ∧ PrimFloat.is_nan g0 = false
        ∧ d !! "totalDeductions" = Some (VAtom (ANumber t0)) ∧ PrimFloat.is_nan t0 = false
        ∧ d !! "netSalary" = Some (VAtom (ANumber n0)) ∧ PrimFloat.is_nan n0 = false)
     ∧ (p ∈ salary_totals → PrimFloat.is_nan x = false →
        update SalarySchema now id {[p := VAtom (ANumber x)]} (run SalarySchema ops)
        = inr (if deepEqual (d !! p) (Some (VAtom (ANumber x)))
               then run SalarySchema ops
               else <[id := <["updatedAt" := VAtom (ADate now)]>
                              (<[p := VAtom (ANumber x)]> d)]>
                      (run SalarySchema ops)))).
Proof.
  destruct salary_totals_elem as (Eg & Et & En).
  split_and!.
  - intros Hg Ht Hn Hg' Ht' Hn'. apply is_ok_eq; by apply salary_create_totals.
  - intros Hc. unfold with_totals in Hc. split_and!.
    + eapply (salary_created_total "grossSalary"); [done| |exact Hc].
      by rewrite lookup_insert_eq.
    + eapply (salary_created_total "totalDeductions"); [done| |exact Hc].
      rewrite lookup_insert_ne by done. by rewrite lookup_insert_eq.
    + eapply (salary_created_total "netSalary"); [done| |exact Hc].
      rewrite !lookup_insert_ne by done. by rewrite lookup_insert_eq.
  - intros Hd. pose proof (salary_stored_ok ops) as Hst. split.
    + pose proof (Hst id d Hd) as Hok.
      destruct (required_number SalarySchema d "grossSalary" _ SalarySchema_paths Hok
                  (salary_total_path _ Eg) eq_refl eq_refl) as (g0 & Hg0 & Hgn).
      destruct (required_number SalarySchema d "totalDeductions" _ SalarySchema_paths Hok
                  (salary_total_path _ Et) eq_refl eq_refl) as (t0 & Ht0 & Htn).
      destruct (required_number SalarySchema d "netSalary" _ SalarySchema_paths Hok
                  (salary_total_path _ En) eq_refl eq_refl) as (n0 & Hn0 & Hnn).
      by exists g0, t0, n0.
    + intros Hp Hx.
      apply (update_singleton SalarySchema SalarySchema_paths now id p
               (SchemaScalar [type TNumber; required true])
               (VAtom (ANumber x)) (VAtom (ANumber x)) _ d Hst (run_unique_ok _ _) Hd
               (salary_total_path p Hp)).
      * cbn [set_path set_atom applySetters opt_type cast]. by rewrite Hx.
      * reflexivity.
      * intros ix. by apply salary_total_not_indexed.
Qed.

(** * Further properties of the schemas *)

Lemma cast_Some t a a' : cast t a = Some a' → a' = a.
Proof.
  destruct t as [[]|], a; simpl; try discriminate; try (by intros [= <-]).
  destruct (PrimFloat.is_nan x); [discriminate|]. by intros [= <-].
Qed.

(** ** What validation leaves in the store *)

Lemma head_omap_None {A B : Type} (f : A → option B) (l : list A) :
  head (omap f l) = None ↔ ∀ x, x ∈ l → f x = None.
Proof.
  rewrite head_None. split.
  - intros H x Hx. destruct (f x) as [y|] eqn:Hy; [|done].
    assert (y ∈ omap f l) as Hin by (apply list_elem_of_omap; eauto).
    rewrite H in Hin. by apply elem_of_nil in Hin.
  - intros H. destruct (omap f l) as [|y l'] eqn:Ho; [done|].
    assert (y ∈ omap f l) as Hin by (rewrite Ho; left).
    apply list_elem_of_omap in Hin as (x & Hx & Hy). by rewrite H in Hy.
Qed.

Lemma validate_atom_None o v :
  validate_atom o v = None
  ↔ (is_required o = true → checkRequired v = true)
    ∧ ∀ x, x ∈ o → validator x v = None.
Proof.
  unfold validate_atom.
  destruct (is_required o) eqn:Hr, (checkRequired v) eqn:Hc; simpl;
    rewrite ?head_omap_None; try (split; [by intros H | by intros [_ H]]).
  split; [done|]. intros [H _]. by specialize (H eq_refl).
Qed.

Lemma schemas_ok S :
  S ∈ schemas → NoDup (paths S).*1 ∧ timestamps_ok S ∧ defaults_typed S.
Proof.
  intros H. unfold schemas in H.
  repeat (apply elem_of_cons in H as [->|H]).
  - split_and!; [apply DepartmentSchema_paths | apply DepartmentSchema_timestamps
                 | apply DepartmentSchema_defaults].
  - split_and!; [apply EmployeeSchema_paths | apply EmployeeSchema_timestamps
                 | apply EmployeeSchema_defaults].
  - split_and!; [apply AttendanceSchema_paths | apply AttendanceSchema_timestamps
                 | apply AttendanceSchema_defaults].
  - split_and!; [apply LeaveSchema_paths | apply LeaveSchema_timestamps
                 | apply LeaveSchema_defaults].
  - split_and!; [apply SalarySchema_paths | apply SalarySchema_timestamps
                 | apply SalarySchema_defaults].
  - by apply elem_of_nil in H.
Qed.

Lemma schemas_stored_ok S ops : S ∈ schemas → stored_ok S (run S ops).
Proof. intros (HS & HT & HD)%schemas_ok. by apply run_stored_ok. Qed.

Lemma stored_validators S ops id d p o :
  S ∈ schemas → run S ops !! id = Some d →
  schema_path S p = Some (SchemaScalar o) →
  (is_required o = true → checkRequired (atom_of (d !! p)) = true)
  ∧ ∀ x, x ∈ o → validator x (atom_of (d !! p)) = None.
Proof.
  intros HS Hd Hp. destruct (schemas_stored_ok S ops HS id d Hd) as (Hv & _ & _).
  destruct (schemas_ok S HS) as (Hnd & _ & _).
  rewrite validate_nil in Hv by done. specialize (Hv p _ Hp). simpl in Hv.
  apply validate_atom_None. by destruct (validate_atom o (atom_of (d !! p))).
Qed.

(** ** Setters and the store *)

Lemma stamp_set_by_setters S now isNew d :
  timestamps_ok S → set_by_setters S d → set_by_setters S (stamp S now isNew d).
Proof.
  intros [Hc Hu] Hd. unfold stamp. destruct (timestamps S); [|done].
  unfold timestamp_path in Hc, Hu.
  assert (∀ d' p' v, p' = "createdAt" ∨ p' = "updatedAt" →
            set_by_setters S d' → set_by_setters S (<[p' := v]> d')) as Hins.
  { intros d' p' v Hp' Hd' p o s Hp Hdef. destruct (decide (p = p')) as [->|Hne].
    - destruct Hp' as [-> | ->]; simplify_eq; discriminate Hdef.
    - rewrite lookup_insert_ne by done. by apply Hd'. }
  destruct isNew; cbv zeta; (apply Hins; [by right|]); [|done].
  destruct (truthy (d !! "createdAt")); [done|]. apply Hins; [by left|done].
Qed.

Lemma assign_set_by_setters S now obj base :
  NoDup (paths S).*1 → set_by_setters S base → set_by_setters S (assign S now obj base).1.
Proof.
  intros HS Hbase p o s Hp Hdef. rewrite lookup_assign by done. rewrite Hp.
  cbn [mbind option_bind].
  destruct (obj !! p) as [[b|elems]|] eqn:Hobj; cbn [set_path].
  - unfold set_atom.
    destruct (cast (opt_type o) (applySetters o b)) as [a'|] eqn:Hc; cbn [fst].
    + intros [= ->]. apply cast_Some in Hc.
      destruct b as [s0| | | | |]; try discriminate Hc. by exists s0.
    + by apply Hbase.
  - by apply Hbase.
  - by apply Hbase.
Qed.

Lemma defaults_set_by_setters S now :
  NoDup (paths S).*1 → set_by_setters S (defaults S now).
Proof.
  intros HS p o s Hp Hdef. rewrite lookup_defaults by done. rewrite Hp.
  cbn [mbind option_bind default_value]. unfold default_atom. by rewrite Hdef.
Qed.

Lemma keep_unmodified_set_by_setters S d0 d1 :
  set_by_setters S d0 → set_by_setters S d1 → set_by_setters S (keep_unmodified d0 d1).
Proof.
  intros H0 H1 p o s Hp Hdef. rewrite lookup_keep_unmodified.
  destruct (deepEqual (d0 !! p) (d1 !! p)); [by apply H0 | by apply H1].
Qed.

Lemma run_set_by_setters S ops id d :
  S ∈ schemas → run S ops !! id = Some d → set_by_setters S d.
Proof.
  intros HS. destruct (schemas_ok S HS) as (Hnd & HT & _).
  revert id d. unfold run.
  apply (foldl_step_invariant S (λ c, ∀ id d, c !! id = Some d → set_by_setters S d)).
  - intros c op Hc. unfold step. destruct (perform S op c) as [|c'] eqn:Hp; [done|].
    destruct op as [now oid obj|now i patch|i]; cbn [perform] in Hp.
    + apply create_inr in Hp as (_ & _ & _ & _ & ->). intros id d.
      destruct (decide (id = oid)) as [->|Hne].
      * rewrite lookup_insert_eq. intros [= <-]. apply stamp_set_by_setters; [done|].
        apply assign_set_by_setters; [done|]. by apply defaults_set_by_setters.
      * rewrite lookup_insert_ne by done. apply Hc.
    + apply update_inr in Hp as (d0 & Hd0 & _ & _ & Hr).
      destruct (isModified S patch d0 (assign S now patch d0).1); [|by subst].
      destruct Hr as [_ ->]. intros id d.
      destruct (decide (id = i)) as [->|Hne].
      * rewrite lookup_insert_eq. intros [= <-]. apply stamp_set_by_setters; [done|].
        apply keep_unmodified_set_by_setters; [by apply (Hc i)|].
        apply assign_set_by_setters; [done|]. by apply (Hc i).
      * rewrite lookup_insert_ne by done. apply Hc.
    + apply remove_inr in Hp as [_ ->]. intros id d [_ Hd]%lookup_delete_Some.
      by apply (Hc id).
  - intros id d Hd. by rewrite lookup_empty in Hd.
Qed.

Lemma create_refused S now oid obj c p sp :
  NoDup (paths S).*1 → schema_path S p = Some sp →
  validate_path p sp ((construct S now obj).1 !! p) ≠ [] →
  is_ok (create S now oid obj c) = false.
Proof.
  intros HS Hp Hval. destruct (create S now oid obj c) as [|c'] eqn:Hc; [done|].
  apply create_inr in Hc as (_ & Hv & _). rewrite validate_nil in Hv by done.
  by specialize (Hv p sp Hp).
Qed.

Lemma validate_elem S d p sp e :
  NoDup (paths S).*1 → schema_path S p = Some sp →
  e ∈ validate_path p sp (d !! p) → e ∈ validate S d.
Proof.
  intros HS Hp He. unfold validate. apply list_elem_of_In, in_concat.
  exists (validate_path p sp (d !! p)). split; [|by apply list_elem_of_In].
  apply in_map_iff. exists (p, sp). split; [done|].
  apply list_elem_of_In. by apply schema_path_elem.
Qed.

Lemma required_string S d p o :
  NoDup (paths S).*1 → doc_ok S d →
  schema_path S p = Some (SchemaScalar o) →
  is_required o = true → opt_type o = Some TString →
  ∃ s, d !! p = Some (VAtom (AString s)) ∧ s ≠ "".
Proof.
  intros HS (Hv & _ & Ht) Hp Hreq Hty.
  rewrite validate_nil in Hv by done. specialize (Hv p _ Hp). simpl in Hv.
  unfold validate_atom in Hv. rewrite Hreq in Hv. simpl in Hv.
  destruct (d !! p) as [v|] eqn:Hd; [|done].
  destruct (Ht p _ v Hp Hd) as (a & -> & Hc). rewrite Hty in Hc.
  destruct a as [s| | | | |]; simpl in *; try done.
  exists s. split; [done|]. by destruct s.
Qed.

Lemma create_cast_error S now oid obj c p o a :
  NoDup (paths S).*1 →
  schema_path S p = Some (SchemaScalar o) → obj !! p = Some (VAtom a) →
  cast (opt_type o) (applySetters o a) = None →
  is_ok (create S now oid obj c) = false.
Proof.
  intros HS Hp Hobj Hc. destruct (create S now oid obj c) as [|c'] eqn:Hcr; [done|].
  apply create_inr in Hcr as (He & _). unfold construct in He.
  rewrite errors_assign_nil in He by done.
  specialize (He p _ Hp). rewrite Hobj in He. simpl in He.
  unfold set_atom in He. by rewrite Hc in He.
Qed.

(** A required string path of a stored record holds a non-empty string
    that the setters of the path have produced. *)
Lemma stored_string S ops id d p o :
  S ∈ schemas → run S ops !! id = Some d →
  schema_path S p = Some (SchemaScalar o) →
  is_required o = true → opt_type o = Some TString → opt_default o = None →
  ∃ s s0, d !! p = Some (VAtom (AString s)) ∧ s ≠ ""
          ∧ applySetters o (AString s0) = AString s.
Proof.
  intros HS Hd Hp Hreq Hty Hdef. destruct (schemas_ok S HS) as (Hnd & _ & _).
  destruct (required_string S d p o Hnd (schemas_stored_ok _ ops HS id d Hd) Hp Hreq Hty)
    as (s & Hs & Hne).
  destruct (run_set_by_setters S ops id d HS Hd p o s Hp Hdef Hs) as [s0 Hs0].
  by exists s, s0.
Qed.

(** ** Departments *)

Lemma DepartmentSchema_in_schemas : DepartmentSchema ∈ schemas.
Proof. unfold schemas. left. Qed.

Lemma departmentId_entry d :
  index_entry departmentId_index d = Some [key_of (d !! "departmentId")].
Proof. reflexivity. Qed.

(** X1.  [departmentId] is a unique, upper-cased key of Departments.  In
    every collection reached from the empty one, two records with the same
    [departmentId] are the same record, and the [departmentId] of a record
    is a non-empty string that [toUpperCase] has returned; and once a
    Department is created, creating another whose [departmentId] has the
    same upper-case form fails. *)
Theorem department_departmentId_unique
    (ops : list Operation) (c c1 : Collection) (now1 now2 : Z) (oid1 oid2 : ObjectId)
    (obj1 obj2 : Doc) (s1 s2 : string) :
  (∀ i j di dj,
     run DepartmentSchema ops !! i = Some di → run DepartmentSchema ops !! j = Some dj →
     di !! "departmentId" = dj !! "departmentId" → i = j)
  ∧ (∀ i d, run DepartmentSchema ops !! i = Some d →
       ∃ s s0, d !! "departmentId" = Some (VAtom (AString s)) ∧ s ≠ ""
               ∧ s = toUpperCase s0)
  ∧ (create DepartmentSchema now1 oid1 obj1 c = inr c1 →
     obj1 !! "departmentId" = Some (VAtom (AString s1)) →
     obj2 !! "departmentId" = Some (VAtom (AString s2)) →
     toUpperCase s1 = toUpperCase s2 → oid2 ≠ oid1 →
     is_ok (create DepartmentSchema now2 oid2 obj2 c1) = false).
Proof.
  split_and!.
  - intros i j di dj Hi Hj Heq.
    apply (run_unique_ok DepartmentSchema ops departmentId_index i j di dj
             [key_of (di !! "departmentId")]); try done.
    + rewrite DepartmentSchema_unique_indexes. by left.
    + by rewrite departmentId_entry, Heq.
  - intros i d Hd.
    destruct (stored_string DepartmentSchema ops i d "departmentId" _
                DepartmentSchema_in_schemas Hd departmentId_path eq_refl eq_refl eq_refl)
      as (s & s0 & Hs & Hne & Hset).
    exists s, s0. split_and!; [done..|].
    cbn [applySetters foldr setter] in Hset. by injection Hset.
  - intros (_ & _ & _ & _ & ->)%create_inr H1 H2 Hup Hne.
    apply (write_duplicate_fails DepartmentSchema (Create now2 oid2 obj2) _ oid2
             (stamp DepartmentSchema now2 true (construct DepartmentSchema now2 obj2).1)
             departmentId_index oid1
             (stamp DepartmentSchema now1 true (construct DepartmentSchema now1 obj1).1)
             [KString (toUpperCase s2)]).
    + reflexivity.
    + rewrite DepartmentSchema_unique_indexes. by left.
    + by rewrite lookup_insert_eq.
    + done.
    + rewrite departmentId_entry, lookup_stamp by discriminate.
      by rewrite (departmentId_construct now2 obj2 s2).
    + rewrite departmentId_entry, lookup_stamp by discriminate.
      by rewrite (departmentId_construct now1 obj1 s1), Hup.
Qed.

(** ** Employees *)

Lemma employeeId_path :
  schema_path EmployeeSchema "employeeId"
  = Some (SchemaScalar [type TString; required true; unique true; uppercase true]).
Proof. vm_refl. Qed.

Lemma email_path :
  schema_path EmployeeSchema "personalInfo.email"
  = Some (SchemaScalar [type TString; required true; unique true; lowercase true; trim true]).
Proof. vm_refl. Qed.

Lemma firstName_path :
  schema_path EmployeeSchema "personalInfo.firstName"
  = Some (SchemaScalar [type TString; required true; trim true]).
Proof. vm_refl. Qed.

Lemma lastName_path :
  schema_path EmployeeSchema "personalInfo.lastName"
  = Some (SchemaScalar [type TString; required true; trim true]).
Proof. vm_refl. Qed.

Lemma EmployeeSchema_in_schemas : EmployeeSchema ∈ schemas.
Proof. unfold schemas. right. left. Qed.

(** X2.  The identifiers of a stored Employee are held as the setters
    leave them: in every collection reached from the empty one, the
    [employeeId] of a record is a non-empty string that [toUpperCase] has
    returned, and its [personalInfo.email] a non-empty string that
    [toLowerCase] has returned for a string that [trim] has returned. *)
Theorem employee_identifiers_normalised (ops : list Operation) (id : ObjectId) (d : Doc) :
  run EmployeeSchema ops !! id = Some d →
  ∃ eid mail eid0 mail0,
    d !! "employeeId" = Some (VAtom (AString eid))
    ∧ eid ≠ "" ∧ eid = toUpperCase eid0
    ∧ d !! "personalInfo.email" = Some (VAtom (AString mail))
    ∧ mail ≠ "" ∧ mail = toLowerCase (trim_string mail0).
Proof.
  intros Hd.
  destruct (stored_string EmployeeSchema ops id d _ _ EmployeeSchema_in_schemas Hd
              employeeId_path eq_refl eq_refl eq_refl) as (eid & eid0 & He & Hene & Hes).
  destruct (stored_string EmployeeSchema ops id d _ _ EmployeeSchema_in_schemas Hd
              email_path eq_refl eq_refl eq_refl) as (mail & mail0 & Hm & Hmne & Hms).
  exists eid, mail, eid0, mail0.
  cbn [applySetters foldr setter] in Hes, Hms. injection Hes as Hes. injection Hms as Hms.
  by split_and!.
Qed.

(** X3.  The [fullName] virtual of a stored Employee is its first name, a
    space and its last name, each a non-empty string that [trim] has
    returned: on a record of a collection reached from the empty one it
    never prints [undefined] or [null]. *)
Theorem employee_fullName (ops : list Operation) (id : ObjectId) (d : Doc) :
  run EmployeeSchema ops !! id = Some d →
  ∃ first last first0 last0,
    d !! "personalInfo.firstName" = Some (VAtom (AString first))
    ∧ d !! "personalInfo.lastName" = Some (VAtom (AString last))
    ∧ first ≠ "" ∧ last ≠ ""
    ∧ first = trim_string first0 ∧ last = trim_string last0
    ∧ fullName d = Some (first ++ " " ++ last)%string.
Proof.
  intros Hd.
  destruct (stored_string EmployeeSchema ops id d _ _ EmployeeSchema_in_schemas Hd
              firstName_path eq_refl eq_refl eq_refl) as (first & first0 & Hf & Hfne & Hfs).
  destruct (stored_string EmployeeSchema ops id d _ _ EmployeeSchema_in_schemas Hd
              lastName_path eq_refl eq_refl eq_refl) as (last & last0 & Hl & Hlne & Hls).
  exists first, last, first0, last0.
  cbn [applySetters foldr setter] in Hfs, Hls. injection Hfs as Hfs. injection Hls as Hls.
  split_and!; try done.
  unfold fullName. by rewrite Hf, Hl.
Qed.

Lemma employeeId_construct now obj s :
  obj !! "employeeId" = Some (VAtom (AString s)) →
  (construct EmployeeSchema now obj).1 !! "employeeId"
  = Some (VAtom (AString (toUpperCase s))).
Proof.
  intros H.
  by apply (construct_given EmployeeSchema now obj "employeeId" _ (AString s)
              (AString (toUpperCase s)) EmployeeSchema_paths employeeId_path).
Qed.

Lemma email_construct now obj s :
  obj !! "personalInfo.email" = Some (VAtom (AString s)) →
  (construct EmployeeSchema now obj).1 !! "personalInfo.email"
  = Some (VAtom (AString (toLowerCase (trim_string s)))).
Proof.
  intros H.
  by apply (construct_given EmployeeSchema now obj "personalInfo.email" _ (AString s)
              (AString (toLowerCase (trim_string s))) EmployeeSchema_paths email_path).
Qed.

(** X4.  Employee identifiers are compared as they are stored: once an
    Employee is created, creating another fails when [toUpperCase] gives
    the same string for the two [employeeId]s, and when [trim] followed by
    [toLowerCase] gives the same string for the two
    [personalInfo.email]s. *)
Theorem employee_identifiers_compared_in_normal_form
    (c c1 : Collection) (now1 now2 : Z) (oid1 oid2 : ObjectId) (obj1 obj2 : Doc)
    (id1 id2 mail1 mail2 : string) :
  create EmployeeSchema now1 oid1 obj1 c = inr c1 →
  obj1 !! "employeeId" = Some (VAtom (AString id1)) →
  obj2 !! "employeeId" = Some (VAtom (AString id2)) →
  obj1 !! "personalInfo.email" = Some (VAtom (AString mail1)) →
  obj2 !! "personalInfo.email" = Some (VAtom (AString mail2)) →
  toUpperCase id1 = toUpperCase id2
  ∨ toLowerCase (trim_string mail1) = toLowerCase (trim_string mail2) →
  oid2 ≠ oid1 →
  is_ok (create EmployeeSchema now2 oid2 obj2 c1) = false.
Proof.
  intros (_ & _ & _ & _ & ->)%create_inr Hi1 Hi2 Hm1 Hm2 Hsame Hne.
  assert (shares_identity
            (stamp EmployeeSchema now2 true (construct EmployeeSchema now2 obj2).1)
            (stamp EmployeeSchema now1 true (construct EmployeeSchema now1 obj1).1)) as Hsh.
  { unfold shares_identity. rewrite !lookup_stamp by discriminate.
    rewrite (employeeId_construct now1 obj1 id1), (employeeId_construct now2 obj2 id2),
      (email_construct now1 obj1 mail1), (email_construct now2 obj2 mail2) by done.
    destruct Hsame as [-> | ->]; [by left | right; by left]. }
  apply shares_identity_entry in Hsh as (ix & k & Hix & Hd & He).
  apply (write_duplicate_fails EmployeeSchema (Create now2 oid2 obj2) _ oid2
           (stamp EmployeeSchema now2 true (construct EmployeeSchema now2 obj2).1) ix oid1
           (stamp EmployeeSchema now1 true (construct EmployeeSchema now1 obj1).1) k);
    [reflexivity|done| |done|done|done].
  by rewrite lookup_insert_eq.
Qed.



(** ** Salaries *)

Lemma SalarySchema_in_schemas : SalarySchema ∈ schemas.
Proof. unfold schemas. do 4 right. left. Qed.

Lemma month_path :
  schema_path SalarySchema "month"
  = Some (SchemaScalar [type TNumber; required true; min 1; max 12]).
Proof. vm_refl. Qed.

(** X6.  [month] lies between 1 and 12.  Every Salary record of a
    collection reached from the empty one holds a number [m] with
    [1 <= m] and [m <= 12], and a create whose [month] fails one of the
    two comparisons is refused. *)
Theorem salary_month_in_range
    (ops : list Operation) (c : Collection) (now : Z) (oid id : ObjectId)
    (obj d : Doc) (m : float) :
  (run SalarySchema ops !! id = Some d →
   ∃ x, d !! "month" = Some (VAtom (ANumber x))
        ∧ PrimFloat.leb 1 x = true ∧ PrimFloat.leb x 12 = true)
  ∧ (obj !! "month" = Some (VAtom (ANumber m)) →
     PrimFloat.leb 1 m = false ∨ PrimFloat.leb m 12 = false →
     is_ok (create SalarySchema now oid obj c) = false).
Proof.
  split.
  - intros Hd.
    destruct (required_number SalarySchema d "month" _ SalarySchema_paths
                (schemas_stored_ok _ ops SalarySchema_in_schemas id d Hd)
                month_path eq_refl eq_refl) as (x & Hx & _).
    exists x. split; [done|].
    destruct (stored_validators SalarySchema ops id d "month" _
                SalarySchema_in_schemas Hd month_path) as [_ Hv].
    rewrite Hx in Hv. simpl in Hv. split.
    + specialize (Hv (min 1)). simpl in Hv.
      destruct (PrimFloat.leb 1 x); [done|].
      discriminate Hv. do 2 right. left.
    + specialize (Hv (max 12)). simpl in Hv.
      destruct (PrimFloat.leb x 12); [done|].
      discriminate Hv. do 3 right. left.
  - intros Hm Hout.
    destruct (PrimFloat.is_nan m) eqn:Hnan.
    + apply (create_cast_error SalarySchema now oid obj c "month" _ (ANumber m)
               SalarySchema_paths month_path Hm).
      simpl. by rewrite Hnan.
    + apply (create_refused SalarySchema now oid obj c "month" _ SalarySchema_paths
               month_path).
      rewrite (construct_given SalarySchema now obj "month" _ (ANumber m) (ANumber m)
                 SalarySchema_paths month_path Hm) by (simpl; by rewrite Hnan).
      unfold validate_path, validate_atom. simpl.
      destruct Hout as [-> | Hmax]; [done|].
      destruct (PrimFloat.leb 1 m); by rewrite ?Hmax.
Qed.

(** ** All five schemas *)

(** X7.  Enumerated fields.  For each of the five schemas and each path
    that declares an [enum]: a string stored at the path, in a collection
    reached from the empty one, is one of the listed values, and a create
    that gives the path a string which, after the setters of the path, is
    not listed is refused. *)
Theorem enum_values_enforced
    (S : Schema) (ops : list Operation) (c : Collection) (now : Z) (oid id : ObjectId)
    (obj d : Doc) (p : string) (o : Options) (values : list string) (s s' : string) :
  S ∈ schemas →
  schema_path S p = Some (SchemaScalar o) →
  enum values ∈ o →
  (run S ops !! id = Some d → d !! p = Some (VAtom (AString s)) → s ∈ values)
  ∧ (obj !! p = Some (VAtom (AString s)) →
     applySetters o (AString s) = AString s' → s' ∉ values →
     is_ok (create S now oid obj c) = false).
Proof.
  intros HS Hp Henum. destruct (schemas_ok S HS) as (Hnd & _ & _). split.
  - intros Hd Hs.
    destruct (stored_validators S ops id d p o HS Hd Hp) as [_ Hv].
    specialize (Hv _ Henum). rewrite Hs in Hv. simpl in Hv.
    destruct (bool_decide (s ∈ values)) eqn:Hb; [|done].
    by apply bool_decide_eq_true in Hb.
  - intros Hobj Hset Hout.
    destruct (cast (opt_type o) (applySetters o (AString s))) as [a|] eqn:Hc.
    + apply (create_refused S now oid obj c p _ Hnd Hp).
      rewrite (construct_given S now obj p o (AString s) a Hnd Hp Hobj Hc).
      apply cast_Some in Hc as ->. rewrite Hset. simpl.
      destruct (validate_atom o (Some (AString s'))) as [k|] eqn:Hv; [done|].
      apply validate_atom_None in Hv as [_ Hv]. specialize (Hv _ Henum). simpl in Hv.
      by rewrite bool_decide_eq_false_2 in Hv.
    + by apply (create_cast_error S now oid obj c p o (AString s) Hnd Hp Hobj).
Qed.

(** X8.  Required fields.  For each of the five schemas and each path
    that declares [required: true]: every record of a collection reached
    from the empty one holds a value there that is neither null nor the
    empty string, and a create from an object without the path (the path
    having no default) fails with a ValidationError that names the path
    with kind required. *)
Theorem required_paths_enforced
    (S : Schema) (ops : list Operation) (c : Collection) (now : Z) (oid id : ObjectId)
    (obj d : Doc) (p : string) (o : Options) :
  S ∈ schemas →
  schema_path S p = Some (SchemaScalar o) →
  is_required o = true →
  (run S ops !! id = Some d →
   ∃ a, d !! p = Some (VAtom a) ∧ a ≠ ANull ∧ a ≠ AString "")
  ∧ (obj !! p = None → opt_default o = None →
     ∃ errs, create S now oid obj c = inl (ValidationError errs)
             ∧ validator_error p kind_required ∈ errs).
Proof.
  intros HS Hp Hreq. destruct (schemas_ok S HS) as (Hnd & _ & _). split.
  - intros Hd.
    destruct (stored_validators S ops id d p o HS Hd Hp) as [Hr _].
    specialize (Hr Hreq). destruct (d !! p) as [[a|]|]; simpl in Hr; try done.
    exists a. split; [done|]. split; intros ->; done.
  - intros Hobj Hdef.
    assert (validator_error p kind_required ∈ validate S (construct S now obj).1) as Hin.
    { apply (validate_elem S _ p _ _ Hnd Hp).
      rewrite (construct_absent S now obj p o Hnd Hp Hobj).
      unfold default_atom. rewrite Hdef. simpl. unfold validate_atom.
      rewrite Hreq. simpl. left. }
    unfold create. cbv zeta.
    destruct ((construct S now obj).2 ++ validate S (construct S now obj).1)
      as [|e errs] eqn:He.
    + apply app_eq_nil in He as [_ He]. rewrite He in Hin. by apply elem_of_nil in Hin.
    + exists (e :: errs). split; [done|]. rewrite <- He. apply elem_of_app. by right.
Qed.

(** X9.  Defaults.  For each of the five schemas and each path with a
    default: a record created from an object that leaves the path out
    holds the declared constant there, or the time of the create when the
    default is [Date.now]; so a new Leave is Pending, a new Salary has
    payment status Pending, a new Employee is Active and a new Attendance
    is Present. *)
Theorem defaults_stored
    (S : Schema) (c c' : Collection) (now : Z) (oid : ObjectId) (obj : Doc)
    (p : string) (o : Options) (a : Atom) :
  S ∈ schemas →
  schema_path S p = Some (SchemaScalar o) →
  default_atom now o = Some a →
  obj !! p = None →
  p ≠ "createdAt" → p ≠ "updatedAt" →
  create S now oid obj c = inr c' →
  stored c' oid p = Some (VAtom a).
Proof.
  intros HS Hp Hdef Hobj Hc Hu (_ & _ & _ & _ & ->)%create_inr.
  destruct (schemas_ok S HS) as (Hnd & _ & _).
  unfold stored. rewrite lookup_insert_eq. cbn [mbind option_bind].
  rewrite lookup_stamp by done.
  rewrite (construct_absent S now obj p o Hnd Hp Hobj). by rewrite Hdef.
Qed.





(** ** Leaves *)

Lemma LeaveSchema_in_schemas : LeaveSchema ∈ schemas.
Proof. unfold schemas. do 3 right. left. Qed.

(** X11.  Leave has no unique index: a valid Leave object is created
    under any new [_id], whatever the collection holds, so the same
    request can be stored twice and a create never fails with
    DuplicateKey on a field. *)
Theorem leave_create_never_duplicate
    (c : Collection) (now : Z) (oid : ObjectId) (obj : Doc) :
  errors LeaveSchema now obj = [] → c !! oid = None →
  create LeaveSchema now oid obj c
  = inr (<[oid := stamp LeaveSchema now true (construct LeaveSchema now obj).1]> c).
Proof.
  intros [He Hv]%errors_nil Hoid. apply create_inr.
  split_and!; [exact He | exact Hv | exact Hoid | reflexivity | reflexivity].
Qed.

Lemma numberOfDays_path :
  schema_path LeaveSchema "numberOfDays" = Some (SchemaScalar [type TNumber; required true]).
Proof. vm_refl. Qed.

(** X12.  [numberOfDays] is a required number that nothing relates to the
    two dates: in every collection reached from the empty one, an update
    may set the [numberOfDays] of a stored Leave to any number that is not
    NaN, whatever its [startDate] and [endDate].  The record then holds the
    number and the time of the update; when the number is the one it
    holds, nothing is written. *)
Theorem leave_numberOfDays_as_given
    (ops : list Operation) (now : Z) (id : ObjectId) (d : Doc) (x : float) :
  run LeaveSchema ops !! id = Some d →
  PrimFloat.is_nan x = false →
  update LeaveSchema now id {["numberOfDays" := VAtom (ANumber x)]} (run LeaveSchema ops)
  = inr (if deepEqual (d !! "numberOfDays") (Some (VAtom (ANumber x)))
         then run LeaveSchema ops
         else <[id := <["updatedAt" := VAtom (ADate now)]>
                        (<["numberOfDays" := VAtom (ANumber x)]> d)]>
                (run LeaveSchema ops)).
Proof.
  intros Hd Hx.
  apply (update_singleton LeaveSchema LeaveSchema_paths now id "numberOfDays" _
           (VAtom (ANumber x)) (VAtom (ANumber x)) _ d
           (leave_stored_ok ops) (run_unique_ok _ _) Hd numberOfDays_path).
  - cbn [set_path set_atom applySetters opt_type cast]. by rewrite Hx.
  - reflexivity.
  - intros ix. apply leave_not_indexed.
Qed.

Lemma reportingManager_path :
  schema_path EmployeeSchema "employmentDetails.reportingManager"
  = Some (SchemaScalar [type TObjectId; ref "Employee"]).
Proof. vm_refl. Qed.

(** X13.  [reportingManager] is an unchecked reference: in every
    collection reached from the empty one, an update may set the
    [reportingManager] of a stored Employee to any ObjectId, the
    Employee's own [_id] and the [_id] of no record included.  The record
    then holds the ObjectId and the time of the update; when the ObjectId
    is the one it holds, nothing is written. *)
Theorem employee_reportingManager_unchecked
    (ops : list Operation) (now : Z) (id manager : ObjectId) (d : Doc) :
  run EmployeeSchema ops !! id = Some d →
  update EmployeeSchema now id
         {["employmentDetails.reportingManager" := VAtom (AObjectId manager)]}
         (run EmployeeSchema ops)
  = inr (if deepEqual (d !! "employmentDetails.reportingManager")
                      (Some (VAtom (AObjectId manager)))
         then run EmployeeSchema ops
         else <[id := <["updatedAt" := VAtom (ADate now)]>
                        (<["employmentDetails.reportingManager"
                           := VAtom (AObjectId manager)]> d)]>
                (run EmployeeSchema ops)).
Proof.
  intros Hd.
  apply (update_singleton EmployeeSchema EmployeeSchema_paths now id
           "employmentDetails.reportingManager" _
           (VAtom (AObjectId manager)) (VAtom (AObjectId manager)) _ d
           (schemas_stored_ok _ ops EmployeeSchema_in_schemas) (run_unique_ok _ _) Hd
           reportingManager_path).
  - reflexivity.
  - reflexivity.
  - intros ix. rewrite EmployeeSchema_unique_indexes. intros Hix.
    repeat (apply elem_of_cons in Hix as [->|Hix]); [split; not_member..|].
    by apply elem_of_nil in Hix.
Qed.

(** ** Attendance *)

(** X14.  The index on (employee, date) also guards updates: a create or
    update whose document would have the employee and date of another
    Attendance record of the collection fails, and leaves the collection
    as it was. *)
Theorem attendance_write_duplicate_fails
    (c : Collection) (op : Operation) (i j : ObjectId) (d e : Doc) :
  written AttendanceSchema op c = Some (i, d) →
  c !! j = Some e → j ≠ i →
  d !! "employee" = e !! "employee" → d !! "date" = e !! "date" →
  is_ok (perform AttendanceSchema op c) = false ∧ step AttendanceSchema c op = c.
Proof.
  intros Hw Hj Hne He Hd.
  assert (is_ok (perform AttendanceSchema op c) = false) as Hfail.
  { apply (write_duplicate_fails AttendanceSchema op c i d attendance_index j e
             [key_of (d !! "employee"); key_of (d !! "date")]); try done.
    - rewrite AttendanceSchema_unique_indexes. by left.
    - by rewrite attendance_entry, He, Hd. }
  split; [done|]. unfold step. by destruct (perform AttendanceSchema op c).
Qed.

(** ** Arrays of sub-documents *)

Lemma lookup_construct_sub now sub obj q :
  NoDup sub.*1 →
  (construct_sub now sub obj).1 !! q
  = (list_to_map sub : gmap string Options) !! q
    ≫= (λ o, (set_atom o (obj !! q) (default_atom now o)).1).
Proof.
  intros Hnd. unfold construct_sub. cbn [fst]. rewrite omap_map.
  exact (lookup_omap_paths
           (λ po : string * Options, (set_atom po.2 (obj !! po.1) (default_atom now po.2)).1)
           sub q Hnd).
Qed.

Lemma documents_path :
  schema_path EmployeeSchema "documents" = Some (SchemaDocumentArray documents_sub).
Proof. vm_refl. Qed.

Lemma documents_sub_NoDup : NoDup documents_sub.*1.
Proof. apply (bool_decide_unpack _). vm_compute. exact I. Qed.

Lemma documentType_sub :
  (list_to_map documents_sub : gmap string Options) !! "documentType"
  = Some [type TString; enum document_types].
Proof. vm_refl. Qed.

Lemma uploadedAt_sub :
  (list_to_map documents_sub : gmap string Options) !! "uploadedAt"
  = Some [type TDate; default Date_now].
Proof. vm_refl. Qed.

Lemma validate_elements_nil p sub (elems : list SubDoc) i e :
  validate_path p (SchemaDocumentArray sub) (Some (VArray elems)) = [] →
  elems !! i = Some e → validate_sub sub e = [].
Proof.
  simpl. rewrite concat_nil_iff. intros H He.
  specialize (H (map (in_element p i) (validate_sub sub e))).
  apply map_eq_nil in H; [done|].
  by apply (elem_of_lookup_imap_2
              (λ (i : nat) (e : SubDoc), map (in_element p i) (validate_sub sub e)) elems e i).
Qed.

Lemma validate_sub_nil sub e q o :
  validate_sub sub e = [] → (q, o) ∈ sub → validate_atom o (e !! q) = None.
Proof.
  unfold validate_sub. intros H Hin. apply head_None in H.
  rewrite head_omap_None in H. specialize (H (q, o) Hin). simpl in H.
  by destruct (validate_atom o (e !! q)).
Qed.

(** X15.  [Employee.documents].  A record created from an object without
    [documents] holds an empty array.  When the object gives an array, the
    record holds one sub-document per element, in order; an element given
    without [uploadedAt] holds the time of the create, and the
    [documentType] of an element, when a string, is one of the six listed
    types (otherwise the create is refused). *)
Theorem employee_documents_elements
    (c c' : Collection) (now : Z) (oid : ObjectId) (obj : Doc) (elems : list SubDoc) :
  create EmployeeSchema now oid obj c = inr c' →
  (obj !! "documents" = None → stored c' oid "documents" = Some (VArray []))
  ∧ (obj !! "documents" = Some (VArray elems) →
     stored c' oid "documents"
     = Some (VArray (map (λ e, (construct_sub now documents_sub e).1) elems))
     ∧ ∀ i e, elems !! i = Some e →
         (e !! "uploadedAt" = None →
          (construct_sub now documents_sub e).1 !! "uploadedAt" = Some (ADate now))
         ∧ (∀ s, e !! "documentType" = Some (AString s) → s ∈ document_types)).
Proof.
  intros (_ & Hv & _ & _ & ->)%create_inr.
  assert (∀ v, obj !! "documents" = v →
            stored (<[oid := stamp EmployeeSchema now true
                               (construct EmployeeSchema now obj).1]> c) oid "documents"
            = (set_path now "documents" (SchemaDocumentArray documents_sub) v
                 (Some (VArray []))).1) as Hstored.
  { intros v Hobj. unfold stored. rewrite lookup_insert_eq. cbn [mbind option_bind].
    rewrite lookup_stamp by discriminate.
    rewrite lookup_construct by apply EmployeeSchema_paths.
    by rewrite documents_path, Hobj. }
  split.
  - intros Hobj. by rewrite (Hstored None Hobj).
  - intros Hobj. rewrite (Hstored _ Hobj). cbn [set_path fst]. rewrite map_map.
    split; [done|]. intros i e He.
    rewrite validate_nil in Hv by apply EmployeeSchema_paths.
    specialize (Hv "documents" _ documents_path).
    rewrite lookup_construct in Hv by apply EmployeeSchema_paths.
    rewrite documents_path, Hobj in Hv. cbn [mbind option_bind] in Hv.
    cbn [set_path fst] in Hv.
    assert (map fst (map (construct_sub now documents_sub) elems) !! i
            = Some (construct_sub now documents_sub e).1) as Hi.
    { rewrite map_map. change (map ?f ?l) with (f <$> l).
      by rewrite list_lookup_fmap, He. }
    pose proof (validate_elements_nil _ _ _ _ _ Hv Hi) as Hsub.
    split.
    + intros Hup. rewrite lookup_construct_sub by apply documents_sub_NoDup.
      rewrite Hup, uploadedAt_sub. reflexivity.
    + intros s Hs.
      assert (("documentType", [type TString; enum document_types]) ∈ documents_sub) as Hin
        by left.
      pose proof (validate_sub_nil _ _ _ _ Hsub Hin) as Hatom.
      rewrite lookup_construct_sub in Hatom by apply documents_sub_NoDup.
      rewrite Hs, documentType_sub in Hatom. cbn [mbind option_bind] in Hatom.
      change (set_atom [type TString; enum document_types] (Some (AString s))
                (default_atom now [type TString; enum document_types])).1
        with (Some (AString s)) in Hatom.
      apply validate_atom_None in Hatom as [_ Hatom].
      specialize (Hatom (enum document_types)). simpl in Hatom.
      destruct (bool_decide (s ∈ document_types)) eqn:Hb.
      * by apply bool_decide_eq_true in Hb.
      * discriminate Hatom. right. left.
Qed.

(** X16.  The Attendance index compares [date] as the exact time value it
    holds, not as a calendar day: in a collection with no record of the
    employee at either time, two valid creates for the same employee whose
    [date]s differ, by however little, both succeed. *)
Theorem attendance_dates_compared_exactly
    (c : Collection) (now1 now2 : Z) (oid1 oid2 : ObjectId) (obj1 obj2 : Doc)
    (emp : ObjectId) (t1 t2 : Z) :
  obj1 !! "employee" = Some (VAtom (AObjectId emp)) →
  obj1 !! "date" = Some (VAtom (ADate t1)) →
  obj2 !! "employee" = Some (VAtom (AObjectId emp)) →
  obj2 !! "date" = Some (VAtom (ADate t2)) →
  t1 ≠ t2 →
  errors AttendanceSchema now1 obj1 = [] →
  errors AttendanceSchema now2 obj2 = [] →
  c !! oid1 = None → c !! oid2 = None → oid1 ≠ oid2 →
  (∀ j e, c !! j = Some e →
     e !! "employee" = Some (VAtom (AObjectId emp)) →
     e !! "date" ≠ Some (VAtom (ADate t1)) ∧ e !! "date" ≠ Some (VAtom (ADate t2))) →
  ∃ d1 d2,
    create AttendanceSchema now1 oid1 obj1 c = inr (<[oid1 := d1]> c)
    ∧ create AttendanceSchema now2 oid2 obj2 (<[oid1 := d1]> c)
      = inr (<[oid2 := d2]> (<[oid1 := d1]> c))
    ∧ d1 !! "date" = Some (VAtom (ADate t1))
    ∧ d2 !! "date" = Some (VAtom (ADate t2)).
Proof.
  intros He1 Hd1 He2 Hd2 Ht Herr1 Herr2 Hoid1 Hoid2 Hne Hnone.
  destruct (attendance_first_create c now1 oid1 obj1 emp t1 He1 Hd1 Herr1 Hoid1)
    as (d1 & Hc1 & Hde1 & Hdd1).
  { intros j e Hj [Hee Hed]. by destruct (Hnone j e Hj Hee). }
  destruct (attendance_first_create (<[oid1 := d1]> c) now2 oid2 obj2 emp t2
              He2 Hd2 Herr2) as (d2 & Hc2 & Hde2 & Hdd2).
  { by rewrite lookup_insert_ne. }
  { intros j e. destruct (decide (j = oid1)) as [->|Hj1].
    - rewrite lookup_insert_eq. intros [= <-] [_ Hd]. rewrite Hdd1 in Hd. congruence.
    - rewrite lookup_insert_ne by done. intros Hj [Hee Hed].
      by destruct (Hnone j e Hj Hee). }
  by exists d1, d2.
Qed.

End theory.

(** * The model on sample data

    The samples are ASCII strings, on which the built-ins are known:
    the model is evaluated with [ascii_builtins]. *)

#[local] Existing Instance ascii_builtins.

Example samples_are_ascii :
  forallb ascii_doc
    [attendance_sample; salary_sample; salary_unreconciled; employee_sample;
     department_sample; leave_sample; other_department "ops"] = true.
Proof. vm_refl. Qed.

Lemma attendance_one_record_per_employee_date_witness :
  (∃ d1, create AttendanceSchema 10 1 attendance_sample ∅ = inr (<[1%N := d1]> ∅)
         ∧ create AttendanceSchema 20 2 attendance_sample (<[1%N := d1]> ∅)
           = inl (DuplicateKey "employee_1_date_1"))
  ∧ (∀ i j di dj,
       run AttendanceSchema [Create 10 1 attendance_sample; Create 20 2 attendance_sample]
         !! i = Some di →
       run AttendanceSchema [Create 10 1 attendance_sample; Create 20 2 attendance_sample]
         !! j = Some dj →
       di !! "employee" = dj !! "employee" → di !! "date" = dj !! "date" → i = j).
Proof.
  apply (attendance_one_record_per_employee_date
           [Create 10 1 attendance_sample; Create 20 2 attendance_sample]
           ∅ 10%Z 20%Z 1%N 2%N attendance_sample attendance_sample 7%N 1700000000000%Z).
  - vm_refl.
  - vm_refl.
  - vm_refl.
  - vm_refl.
  - vm_refl.
  - vm_refl.
  - reflexivity.
  - reflexivity.
  - discriminate.
  - intros j e Hj. rewrite lookup_empty in Hj. discriminate Hj.
Defined.

Lemma salary_one_record_per_employee_month_year_witness :
  (∀ i' j' di dj,
     run SalarySchema [Create 10 1 salary_sample] !! i' = Some di →
     run SalarySchema [Create 10 1 salary_sample] !! j' = Some dj →
     same_period di dj → i' = j')
  ∧ is_ok (perform SalarySchema (Create 20 2 salary_sample)
             (run SalarySchema [Create 10 1 salary_sample])) = false.
Proof.
  destruct (salary_one_record_per_employee_month_year
              [Create 10 1 salary_sample] (Create 20 2 salary_sample) 2%N 1%N
              (stamp SalarySchema 20 true (construct SalarySchema 20 salary_sample).1)
              (stamp SalarySchema 10 true (construct SalarySchema 10 salary_sample).1))
    as [Hinv Hdup].
  split; [exact Hinv|]. apply Hdup.
  - reflexivity.
  - vm_refl.
  - discriminate.
  - unfold same_period. split_and!; vm_eq.
Defined.

Lemma employee_identifiers_unique_witness :
  (∀ i' j' di dj,
     run EmployeeSchema [Create 10 1 employee_sample] !! i' = Some di →
     run EmployeeSchema [Create 10 1 employee_sample] !! j' = Some dj →
     i' ≠ j' → ¬ shares_identity di dj)
  ∧ is_ok (perform EmployeeSchema
             (Create 20 2 (<["employeeId" := VAtom (AString "EMP-001")]>
                             (<["personalInfo.email" := VAtom (AString "other@example.org")]>
                                (delete "biometricInfo.biometricId" employee_sample))))
             (run EmployeeSchema [Create 10 1 employee_sample])) = false.
Proof.
  destruct (employee_identifiers_unique
              [Create 10 1 employee_sample]
              (Create 20 2 (<["employeeId" := VAtom (AString "EMP-001")]>
                              (<["personalInfo.email" := VAtom (AString "other@example.org")]>
                                 (delete "biometricInfo.biometricId" employee_sample))))
              2%N 1%N
              (stamp EmployeeSchema 20 true
                 (construct EmployeeSchema 20
                    (<["employeeId" := VAtom (AString "EMP-001")]>
                       (<["personalInfo.email" := VAtom (AString "other@example.org")]>
                          (delete "biometricInfo.biometricId" employee_sample)))).1)
              (stamp EmployeeSchema 10 true (construct EmployeeSchema 10 employee_sample).1))
    as [Hinv Hdup].
  split; [exact Hinv|]. apply Hdup.
  - reflexivity.
  - vm_refl.
  - discriminate.
  - left. vm_eq.
Defined.

Lemma employee_leaveBalance_defaults_witness :
  (construct EmployeeSchema 10 employee_sample).1 !! "leaveBalance.casual"
    = Some (VAtom (ANumber 12))
  ∧ (construct EmployeeSchema 10 employee_sample).1 !! "leaveBalance.sick"
    = Some (VAtom (ANumber 10))
  ∧ (construct EmployeeSchema 10 employee_sample).1 !! "leaveBalance.annual"
    = Some (VAtom (ANumber 15))
  ∧ (construct EmployeeSchema 10 employee_sample).1 !! "leaveBalance.unpaid"
    = Some (VAtom (ANumber 0)).
Proof.
  apply (employee_leaveBalance_defaults 10 employee_sample 1%N ∅ ∅); vm_refl.
Defined.

Example isInteger_examples :
  isInteger 3 = true ∧ isInteger (-1) = true ∧ isInteger 2.5 = false
  ∧ isInteger 0 = true ∧ isInteger 4503599627370496 = true ∧ isInteger 0.75 = false.
Proof. split_and!; vm_refl. Qed.

(** An update that repeats the stored value writes nothing, and neither
    does an empty patch: [updatedAt] stays at the time of the create. *)
Example update_unmodified :
  run LeaveSchema [Create 10 1 leave_sample; Update 20 1 (set_status "Pending")]
  = run LeaveSchema [Create 10 1 leave_sample]
  ∧ run LeaveSchema [Create 10 1 leave_sample; Update 20 1 ∅]
    = run LeaveSchema [Create 10 1 leave_sample]
  ∧ stored (run LeaveSchema [Create 10 1 leave_sample; Update 20 1 (set_status "Pending")])
           1 "updatedAt" = Some (VAtom (ADate 10))
  ∧ stored (run LeaveSchema [Create 10 1 leave_sample; Update 20 1 (set_status "Approved")])
           1 "updatedAt" = Some (VAtom (ADate 20)).
Proof. split_and!; [vm_eq | vm_eq | vm_refl | vm_refl]. Qed.

(** A [createdAt] the object gives is kept and copied into [updatedAt]; a
    null one is replaced by the time of the create. *)
Example create_with_createdAt :
  stored (run LeaveSchema [Create 10 1 (<["createdAt" := VAtom (ADate 5)]> leave_sample)])
         1 "createdAt" = Some (VAtom (ADate 5))
  ∧ stored (run LeaveSchema [Create 10 1 (<["createdAt" := VAtom (ADate 5)]> leave_sample)])
           1 "updatedAt" = Some (VAtom (ADate 5))
  ∧ stored (run LeaveSchema [Create 10 1 (<["createdAt" := VAtom ANull]> leave_sample)])
           1 "createdAt" = Some (VAtom (ADate 10))
  ∧ stored (run LeaveSchema [Create 10 1 (<["updatedAt" := VAtom (ADate 5)]> leave_sample)])
           1 "updatedAt" = Some (VAtom (ADate 10)).
Proof. split_and!; vm_refl. Qed.

Lemma department_employeeCount_any_number_witness :
  ((construct DepartmentSchema 20 department_sample).1 !! "employeeCount"
   = Some (VAtom (ANumber 0))
   ∧ update DepartmentSchema 20 1 {["employeeCount" := VAtom (ANumber (-2.5))]}
            (run DepartmentSchema [Create 10 1 department_sample])
     = inr (if deepEqual
                 (stamp DepartmentSchema 10 true
                    (construct DepartmentSchema 10 department_sample).1 !! "employeeCount")
                 (Some (VAtom (ANumber (-2.5))))
            then run DepartmentSchema [Create 10 1 department_sample]
            else <[1%N := <["updatedAt" := VAtom (ADate 20)]>
                            (<["employeeCount" := VAtom (ANumber (-2.5))]>
                               (stamp DepartmentSchema 10 true
                                  (construct DepartmentSchema 10 department_sample).1))]>
                   (run DepartmentSchema [Create 10 1 department_sample])))
  ∧ deepEqual
      (stamp DepartmentSchema 10 true
         (construct DepartmentSchema 10 department_sample).1 !! "employeeCount")
      (Some (VAtom (ANumber (-2.5)))) = false.
Proof.
  split; [|vm_refl].
  apply (department_employeeCount_any_number
           [Create 10 1 department_sample] 20 1%N
           (stamp DepartmentSchema 10 true (construct DepartmentSchema 10 department_sample).1)
           department_sample (-2.5)%float).
  - vm_refl.
  - vm_refl.
  - vm_refl.
Defined.

(** C9 as stated fails: a Department is created with employeeCount -2.5,
    which is stored, and is neither non-negative nor an integer. *)
Lemma department_employeeCount_counterexample :
  ∃ d, run DepartmentSchema
         [Create 10 1 (<["employeeCount" := VAtom (ANumber (-2.5))]> department_sample)]
         !! 1%N = Some d
       ∧ d !! "employeeCount" = Some (VAtom (ANumber (-2.5)))
       ∧ PrimFloat.leb 0 (-2.5) = false
       ∧ isInteger (-2.5) = false
       ∧ non_negative_integer (-2.5) = false.
Proof.
  exists (stamp DepartmentSchema 10 true
            (construct DepartmentSchema 10
               (<["employeeCount" := VAtom (ANumber (-2.5))]> department_sample)).1).
  split_and!; vm_refl.
Qed.

Lemma leave_status_any_transition_witness :
  update LeaveSchema 30 1 (set_status "Approved")
         (run LeaveSchema [Create 10 1 leave_sample; Update 20 1 (set_status "Rejected")])
  = inr (if deepEqual
              (<["updatedAt" := VAtom (ADate 20)]>
                 (<["status" := VAtom (AString "Rejected")]>
                    (stamp LeaveSchema 10 true (construct LeaveSchema 10 leave_sample).1))
                 !! "status")
              (Some (VAtom (AString "Approved")))
         then run LeaveSchema [Create 10 1 leave_sample; Update 20 1 (set_status "Rejected")]
         else <[1%N := <["updatedAt" := VAtom (ADate 30)]>
                         (<["status" := VAtom (AString "Approved")]>
                            (<["updatedAt" := VAtom (ADate 20)]>
                               (<["status" := VAtom (AString "Rejected")]>
                                  (stamp LeaveSchema 10 true
                                     (construct LeaveSchema 10 leave_sample).1))))]>
                (run LeaveSchema
                   [Create 10 1 leave_sample; Update 20 1 (set_status "Rejected")]))
  ∧ ∃ errs, update LeaveSchema 30 1 (set_status "Granted")
                   (run LeaveSchema
                      [Create 10 1 leave_sample; Update 20 1 (set_status "Rejected")])
            = inl (ValidationError errs).
Proof.
  split.
  - apply (leave_status_any_transition
             [Create 10 1 leave_sample; Update 20 1 (set_status "Rejected")] 30 1%N
             (<["updatedAt" := VAtom (ADate 20)]>
                (<["status" := VAtom (AString "Rejected")]>
                   (stamp LeaveSchema 10 true (construct LeaveSchema 10 leave_sample).1)))
             "Approved").
    + vm_refl.
    + member.
  - apply (leave_status_any_transition
             [Create 10 1 leave_sample; Update 20 1 (set_status "Rejected")] 30 1%N
             (<["updatedAt" := VAtom (ADate 20)]>
                (<["status" := VAtom (AString "Rejected")]>
                   (stamp LeaveSchema 10 true (construct LeaveSchema 10 leave_sample).1)))
             "Granted").
    + vm_refl.
    + not_member.
Defined.

(** C6 as stated fails: a Leave is created (Pending), rejected, and then
    approved; the update from Rejected to Approved succeeds.  The sequence
    Pending, Approved, Cancelled succeeds as well. *)
Lemma leave_status_counterexample :
  ∃ c1 c2 c3,
    create LeaveSchema 10 1 leave_sample ∅ = inr c1
    ∧ update LeaveSchema 20 1 (set_status "Rejected") c1 = inr c2
    ∧ stored c2 1 "status" = Some (VAtom (AString "Rejected"))
    ∧ update LeaveSchema 30 1 (set_status "Approved") c2 = inr c3
    ∧ stored c3 1 "status" = Some (VAtom (AString "Approved")).
Proof.
  exists (run LeaveSchema [Create 10 1 leave_sample]),
         (run LeaveSchema [Create 10 1 leave_sample; Update 20 1 (set_status "Rejected")]),
         (run LeaveSchema [Create 10 1 leave_sample; Update 20 1 (set_status "Rejected");
                           Update 30 1 (set_status "Approved")]).
  split_and!; vm_refl.
Qed.

Lemma leave_dates_not_compared_witness :
  (stored (run LeaveSchema [Create 20 2 (with_dates 259200000 86400000 leave_sample)])
          2 "startDate" = Some (VAtom (ADate 259200000))
   ∧ stored (run LeaveSchema [Create 20 2 (with_dates 259200000 86400000 leave_sample)])
            2 "endDate" = Some (VAtom (ADate 86400000)))
  ∧ update LeaveSchema 20 1 {["endDate" := VAtom (ADate 0)]}
           (run LeaveSchema [Create 10 1 leave_sample])
    = inr (if deepEqual
                (stamp LeaveSchema 10 true (construct LeaveSchema 10 leave_sample).1
                   !! "endDate")
                (Some (VAtom (ADate 0)))
           then run LeaveSchema [Create 10 1 leave_sample]
           else <[1%N := <["updatedAt" := VAtom (ADate 20)]>
                           (<["endDate" := VAtom (ADate 0)]>
                              (stamp LeaveSchema 10 true
                                 (construct LeaveSchema 10 leave_sample).1))]>
                  (run LeaveSchema [Create 10 1 leave_sample])).
Proof.
  destruct (leave_dates_not_compared
              [Create 10 1 leave_sample] ∅
              (run LeaveSchema [Create 20 2 (with_dates 259200000 86400000 leave_sample)])
              20 2%N 1%N leave_sample
              (stamp LeaveSchema 10 true (construct LeaveSchema 10 leave_sample).1)
              259200000 86400000 0 0 0) as (_ & Hcreate & Hupdate).
  split.
  - apply Hcreate. vm_refl.
  - destruct Hupdate as (_ & Hend & _); [vm_refl|]. exact Hend.
Defined.

(** C5 as stated fails: a Leave whose [endDate] (day 1) is before its
    [startDate] (day 3) is created and stored. *)
Lemma leave_dates_counterexample :
  ∃ c,
    create LeaveSchema 10 1 (with_dates 259200000 86400000 leave_sample) ∅ = inr c
    ∧ stored c 1 "startDate" = Some (VAtom (ADate 259200000))
    ∧ stored c 1 "endDate" = Some (VAtom (ADate 86400000))
    ∧ (86400000 < 259200000)%Z.
Proof.
  exists (run LeaveSchema [Create 10 1 (with_dates 259200000 86400000 leave_sample)]).
  split_and!; [vm_refl..|reflexivity].
Qed.

Lemma department_customName_optional_witness :
  (∃ d, create DepartmentSchema 10 1 (other_department "ops") ∅ = inr (<[1%N := d]> ∅)
        ∧ d !! "name" = Some (VAtom (AString "Other"))
        ∧ d !! "customName" = None)
  ∧ is_ok (create DepartmentSchema 10 1
             (<["customName" := VAtom (AString "Legal")]> (other_department "ops")) ∅) = true.
Proof.
  apply (department_customName_optional [] ∅ 10 1%N 1%N ∅ ∅ "Legal" "ops").
  - discriminate.
  - reflexivity.
  - intros j e Hj. rewrite lookup_empty in Hj. discriminate Hj.
Defined.

(** C4 as stated fails: a Department named Other is created without
    [customName]; the create succeeds and the record has no
    [customName]. *)
Lemma department_customName_counterexample :
  ∃ c, create DepartmentSchema 10 1 department_sample ∅ = inr c
       ∧ department_sample !! "customName" = None
       ∧ stored c 1 "name" = Some (VAtom (AString "Other"))
       ∧ stored c 1 "customName" = None.
Proof.
  exists (run DepartmentSchema [Create 10 1 department_sample]).
  split_and!; vm_refl.
Qed.

Example salary_sample_reconciles :
  ∃ d, run SalarySchema [Create 10 1 salary_sample] !! 1%N = Some d ∧ reconciles d = true.
Proof.
  exists (stamp SalarySchema 10 true (construct SalarySchema 10 salary_sample).1).
  split; vm_refl.
Qed.

Lemma salary_totals_stored_as_given_witness :
  is_ok (create SalarySchema 20 2 (with_totals 1200 100 1100 salary_sample) ∅)
  = is_ok (create SalarySchema 20 2 (with_totals 5 100 7 salary_sample) ∅)
  ∧ update SalarySchema 20 1 {["grossSalary" := VAtom (ANumber 5)]}
           (run SalarySchema [Create 10 1 salary_sample])
    = inr (if deepEqual
                (stamp SalarySchema 10 true (construct SalarySchema 10 salary_sample).1
                   !! "grossSalary")
                (Some (VAtom (ANumber 5)))
           then run SalarySchema [Create 10 1 salary_sample]
           else <[1%N := <["updatedAt" := VAtom (ADate 20)]>
                           (<["grossSalary" := VAtom (ANumber 5)]>
                              (stamp SalarySchema 10 true
                                 (construct SalarySchema 10 salary_sample).1))]>
                  (run SalarySchema [Create 10 1 salary_sample])).
Proof.
  destruct (salary_totals_stored_as_given
              [Create 10 1 salary_sample] ∅ ∅ 20 2%N 1%N salary_sample
              (stamp SalarySchema 10 true (construct SalarySchema 10 salary_sample).1)
              "grossSalary" 1200 100 1100 5 100 7 5) as (Hcreate & _ & Hstored).
  split.
  - apply Hcreate; vm_refl.
  - destruct Hstored as [_ Hupdate]; [vm_refl|].
    apply Hupdate; [member|vm_refl].
Defined.

(** C1 as stated fails: a Salary whose earnings add up to 1200 is created
    with grossSalary 5, totalDeductions 100 and netSalary 7; the create
    succeeds and the stored record does not reconcile. *)
Lemma salary_totals_counterexample :
  ∃ c d, create SalarySchema 10 1 salary_unreconciled ∅ = inr c
         ∧ c !! 1%N = Some d
         ∧ sum_at d earnings_paths = 1200%float
         ∧ number_at d "grossSalary" = 5%float
         ∧ number_at d "netSalary" = 7%float
         ∧ reconciles d = false.
Proof.
  exists (run SalarySchema [Create 10 1 salary_unreconciled]),
         (stamp SalarySchema 10 true (construct SalarySchema 10 salary_unreconciled).1).
  split_and!; vm_refl.
Qed.

Lemma department_departmentId_unique_witness :
  is_ok (create DepartmentSchema 20 2
           (<["departmentId" := VAtom (AString "OPS")]> department_sample)
           (run DepartmentSchema [Create 10 1 department_sample])) = false.
Proof.
  apply (department_departmentId_unique
           [] ∅ (run DepartmentSchema [Create 10 1 department_sample]) 10 20 1%N 2%N
           department_sample
           (<["departmentId" := VAtom (AString "OPS")]> department_sample) "ops" "OPS").
  - vm_refl.
  - vm_refl.
  - vm_refl.
  - vm_refl.
  - discriminate.
Defined.

Lemma employee_identifiers_normalised_witness :
  ∃ eid mail eid0 mail0,
    stamp EmployeeSchema 10 true (construct EmployeeSchema 10 employee_sample).1
      !! "employeeId" = Some (VAtom (AString eid))
    ∧ eid ≠ "" ∧ eid = toUpperCase eid0
    ∧ stamp EmployeeSchema 10 true (construct EmployeeSchema 10 employee_sample).1
        !! "personalInfo.email" = Some (VAtom (AString mail))
    ∧ mail ≠ "" ∧ mail = toLowerCase (trim_string mail0).
Proof.
  apply (employee_identifiers_normalised [Create 10 1 employee_sample] 1%N).
  vm_refl.
Defined.

Lemma employee_fullName_witness :
  fullName (stamp EmployeeSchema 10 true (construct EmployeeSchema 10 employee_sample).1)
  = Some "Ada Byron".
Proof.
  destruct (employee_fullName [Create 10 1 employee_sample] 1%N
              (stamp EmployeeSchema 10 true (construct EmployeeSchema 10 employee_sample).1))
    as (first & last & first0 & last0 & Hf & Hl & _ & _ & _ & _ & Hfull).
  - vm_refl.
  - rewrite Hfull. f_equal.
    assert (Some (VAtom (AString first)) = Some (VAtom (AString "Ada"))) as Ef
      by (rewrite <- Hf; vm_refl).
    assert (Some (VAtom (AString last)) = Some (VAtom (AString "Byron"))) as El
      by (rewrite <- Hl; vm_refl).
    injection Ef as ->. injection El as ->. reflexivity.
Defined.

Lemma employee_identifiers_compared_in_normal_form_witness :
  is_ok (create EmployeeSchema 20 2
           (<["employeeId" := VAtom (AString "emp-002")]>
              (<["personalInfo.email" := VAtom (AString "ADA@example.ORG")]>
                 (delete "biometricInfo.biometricId" employee_sample)))
           (run EmployeeSchema [Create 10 1 employee_sample])) = false.
Proof.
  apply (employee_identifiers_compared_in_normal_form
           ∅ (run EmployeeSchema [Create 10 1 employee_sample]) 10 20 1%N 2%N
           employee_sample
           (<["employeeId" := VAtom (AString "emp-002")]>
              (<["personalInfo.email" := VAtom (AString "ADA@example.ORG")]>
                 (delete "biometricInfo.biometricId" employee_sample)))
           "emp-001" "emp-002" " Ada@Example.org " "ADA@example.ORG").
  - vm_refl.
  - vm_refl.
  - vm_refl.
  - vm_refl.
  - vm_refl.
  - right. vm_eq.
  - discriminate.
Defined.

(** The second Employee of the example above is refused for its email and
    nothing else: it is valid, and with another email it is created. *)
Example employee_email_decides :
  create EmployeeSchema 20 2
    (<["employeeId" := VAtom (AString "emp-002")]>
       (<["personalInfo.email" := VAtom (AString "ADA@example.ORG")]>
          (delete "biometricInfo.biometricId" employee_sample)))
    (run EmployeeSchema [Create 10 1 employee_sample])
  = inl (DuplicateKey "personalInfo.email_1")
  ∧ is_ok (create EmployeeSchema 20 2
             (<["employeeId" := VAtom (AString "emp-002")]>
                (<["personalInfo.email" := VAtom (AString "eve@example.org")]>
                   (delete "biometricInfo.biometricId" employee_sample)))
             (run EmployeeSchema [Create 10 1 employee_sample])) = true.
Proof. split; vm_refl. Qed.


Lemma salary_month_in_range_witness :
  is_ok (create SalarySchema 10 1 (<["month" := VAtom (ANumber 13)]> salary_sample) ∅) = false.
Proof.
  apply (salary_month_in_range [] ∅ 10 1%N 1%N
           (<["month" := VAtom (ANumber 13)]> salary_sample) ∅ 13%float).
  - vm_refl.
  - right. vm_refl.
Defined.

Lemma enum_values_enforced_witness :
  is_ok (create LeaveSchema 10 1 (<["leaveType" := VAtom (AString "Sabbatical")]> leave_sample) ∅)
  = false.
Proof.
  apply (enum_values_enforced LeaveSchema [] ∅ 10 1%N 1%N
           (<["leaveType" := VAtom (AString "Sabbatical")]> leave_sample) ∅ "leaveType"
           [type TString;
            enum ["Casual"; "Sick"; "Annual"; "Unpaid"; "Maternity"; "Paternity"; "Compensatory"];
            required true]
           ["Casual"; "Sick"; "Annual"; "Unpaid"; "Maternity"; "Paternity"; "Compensatory"]
           "Sabbatical" "Sabbatical").
  - unfold schemas. do 3 right. left.
  - vm_refl.
  - right. left.
  - vm_refl.
  - vm_refl.
  - not_member.
Defined.

Lemma required_paths_enforced_witness :
  ∃ errs, create AttendanceSchema 10 1 (delete "date" attendance_sample) ∅
          = inl (ValidationError errs)
          ∧ validator_error "date" kind_required ∈ errs.
Proof.
  apply (required_paths_enforced AttendanceSchema [] ∅ 10 1%N 1%N
           (delete "date" attendance_sample) ∅ "date" [type TDate; required true]).
  - unfold schemas. do 2 right. left.
  - vm_refl.
  - reflexivity.
  - vm_refl.
  - reflexivity.
Defined.

Lemma defaults_stored_witness :
  stored (run LeaveSchema [Create 10 1 leave_sample]) 1 "status"
  = Some (VAtom (AString "Pending")).
Proof.
  apply (defaults_stored LeaveSchema ∅ (run LeaveSchema [Create 10 1 leave_sample]) 10 1%N
           leave_sample "status"
           [type TString; enum leave_statuses; default (Const (AString "Pending"))]).
  - unfold schemas. do 3 right. left.
  - exact leave_status_path.
  - reflexivity.
  - vm_refl.
  - discriminate.
  - discriminate.
  - vm_refl.
Defined.


Lemma leave_create_never_duplicate_witness :
  create LeaveSchema 20 2 leave_sample (run LeaveSchema [Create 10 1 leave_sample])
  = inr (<[2%N := stamp LeaveSchema 20 true (construct LeaveSchema 20 leave_sample).1]>
           (run LeaveSchema [Create 10 1 leave_sample])).
Proof.
  apply leave_create_never_duplicate.
  - vm_refl.
  - vm_refl.
Defined.

Lemma leave_numberOfDays_as_given_witness :
  update LeaveSchema 20 1 {["numberOfDays" := VAtom (ANumber (-40))]}
         (run LeaveSchema [Create 10 1 leave_sample])
  = inr (if deepEqual
              (stamp LeaveSchema 10 true (construct LeaveSchema 10 leave_sample).1
                 !! "numberOfDays")
              (Some (VAtom (ANumber (-40))))
         then run LeaveSchema [Create 10 1 leave_sample]
         else <[1%N := <["updatedAt" := VAtom (ADate 20)]>
                         (<["numberOfDays" := VAtom (ANumber (-40))]>
                            (stamp LeaveSchema 10 true
                               (construct LeaveSchema 10 leave_sample).1))]>
                (run LeaveSchema [Create 10 1 leave_sample])).
Proof.
  apply (leave_numberOfDays_as_given [Create 10 1 leave_sample] 20 1%N
           (stamp LeaveSchema 10 true (construct LeaveSchema 10 leave_sample).1) (-40)%float).
  - vm_refl.
  - vm_refl.
Defined.

Lemma employee_reportingManager_unchecked_witness :
  update EmployeeSchema 20 1
         {["employmentDetails.reportingManager" := VAtom (AObjectId 1)]}
         (run EmployeeSchema [Create 10 1 employee_sample])
  = inr (if deepEqual
              (stamp EmployeeSchema 10 true (construct EmployeeSchema 10 employee_sample).1
                 !! "employmentDetails.reportingManager")
              (Some (VAtom (AObjectId 1)))
         then run EmployeeSchema [Create 10 1 employee_sample]
         else <[1%N := <["updatedAt" := VAtom (ADate 20)]>
                         (<["employmentDetails.reportingManager" := VAtom (AObjectId 1)]>
                            (stamp EmployeeSchema 10 true
                               (construct EmployeeSchema 10 employee_sample).1))]>
                (run EmployeeSchema [Create 10 1 employee_sample])).
Proof.
  apply (employee_reportingManager_unchecked [Create 10 1 employee_sample] 20 1%N 1%N
           (stamp EmployeeSchema 10 true (construct EmployeeSchema 10 employee_sample).1)).
  vm_refl.
Defined.

(** In the three examples above the value is not the stored one, and the
    record is written. *)
Example updates_modify :
  stored (run LeaveSchema
            [Create 10 1 leave_sample;
             Update 20 1 {["numberOfDays" := VAtom (ANumber (-40))]}]) 1 "numberOfDays"
  = Some (VAtom (ANumber (-40)))
  ∧ stored (run EmployeeSchema
              [Create 10 1 employee_sample;
               Update 20 1 {["employmentDetails.reportingManager" := VAtom (AObjectId 1)]}])
           1 "employmentDetails.reportingManager"
    = Some (VAtom (AObjectId 1))
  ∧ stored (run SalarySchema
              [Create 10 1 salary_sample;
               Update 20 1 {["grossSalary" := VAtom (ANumber 5)]}]) 1 "grossSalary"
    = Some (VAtom (ANumber 5))
  ∧ stored (run LeaveSchema
              [Create 10 1 leave_sample; Update 20 1 {["endDate" := VAtom (ADate 0)]}])
           1 "endDate"
    = Some (VAtom (ADate 0)).
Proof. split_and!; vm_refl. Qed.

Lemma attendance_write_duplicate_fails_witness :
  is_ok (perform AttendanceSchema
           (Update 30 2 {["date" := VAtom (ADate 1700000000000)]})
           (run AttendanceSchema
              [Create 10 1 attendance_sample;
               Create 20 2 (<["date" := VAtom (ADate 1700086400000)]> attendance_sample)]))
  = false.
Proof.
  apply (attendance_write_duplicate_fails
           (run AttendanceSchema
              [Create 10 1 attendance_sample;
               Create 20 2 (<["date" := VAtom (ADate 1700086400000)]> attendance_sample)])
           (Update 30 2 {["date" := VAtom (ADate 1700000000000)]}) 2%N 1%N
           (stamp AttendanceSchema 30 false
              (keep_unmodified
                 (stamp AttendanceSchema 20 true
                    (construct AttendanceSchema 20
                       (<["date" := VAtom (ADate 1700086400000)]> attendance_sample)).1)
                 (assign AttendanceSchema 30 {["date" := VAtom (ADate 1700000000000)]}
                    (stamp AttendanceSchema 20 true
                       (construct AttendanceSchema 20
                          (<["date" := VAtom (ADate 1700086400000)]> attendance_sample)).1)).1))
           (stamp AttendanceSchema 10 true (construct AttendanceSchema 10 attendance_sample).1)).
  - vm_refl.
  - vm_refl.
  - discriminate.
  - vm_eq.
  - vm_eq.
Defined.

Lemma employee_documents_elements_witness :
  stored (run EmployeeSchema
            [Create 10 1 (<["documents" := VArray [ {["documentType" := AString "Resume"]} ]]>
                            employee_sample)])
         1 "documents"
  = Some (VArray (map (λ e, (construct_sub 10 documents_sub e).1)
                      [ {["documentType" := AString "Resume"]} ])).
Proof.
  destruct (employee_documents_elements ∅
              (run EmployeeSchema
                 [Create 10 1 (<["documents" := VArray [ {["documentType" := AString "Resume"]} ]]>
                                 employee_sample)])
              10 1%N
              (<["documents" := VArray [ {["documentType" := AString "Resume"]} ]]> employee_sample)
              [ {["documentType" := AString "Resume"]} ]) as [_ Hgiven].
  - vm_refl.
  - apply Hgiven. vm_refl.
Defined.

Lemma attendance_dates_compared_exactly_witness :
  ∃ d1 d2,
    create AttendanceSchema 20 2
      (<["date" := VAtom (ADate 1700086400000)]> attendance_sample)
      (run AttendanceSchema [Create 10 1 attendance_sample])
    = inr (<[2%N := d1]> (run AttendanceSchema [Create 10 1 attendance_sample]))
    ∧ create AttendanceSchema 30 3
        (<["date" := VAtom (ADate 1700086400001)]> attendance_sample)
        (<[2%N := d1]> (run AttendanceSchema [Create 10 1 attendance_sample]))
      = inr (<[3%N := d2]>
               (<[2%N := d1]> (run AttendanceSchema [Create 10 1 attendance_sample])))
    ∧ d1 !! "date" = Some (VAtom (ADate 1700086400000))
    ∧ d2 !! "date" = Some (VAtom (ADate 1700086400001)).
Proof.
  apply (attendance_dates_compared_exactly
           (run AttendanceSchema [Create 10 1 attendance_sample]) 20 30 2%N 3%N
           (<["date" := VAtom (ADate 1700086400000)]> attendance_sample)
           (<["date" := VAtom (ADate 1700086400001)]> attendance_sample) 7%N).
  - vm_refl.
  - vm_refl.
  - vm_refl.
  - vm_refl.
  - discriminate.
  - vm_refl.
  - vm_refl.
  - vm_refl.
  - vm_refl.
  - discriminate.
  - intros j e Hj He.
    assert (run AttendanceSchema [Create 10 1 attendance_sample]
            = <[1%N := stamp AttendanceSchema 10 true
                         (construct AttendanceSchema 10 attendance_sample).1]> ∅) as Hrun
      by vm_refl.
    rewrite Hrun in Hj. apply lookup_insert_Some in Hj as [[_ <-]|[_ Hj]].
    + assert (stamp AttendanceSchema 10 true
                (construct AttendanceSchema 10 attendance_sample).1 !! "date"
              = Some (VAtom (ADate 1700000000000))) as -> by vm_refl.
      split; discriminate.
    + rewrite lookup_empty in Hj. discriminate Hj.
Defined.
